(** * Reputation and interaction engine of the forum backend (app.py)

    A shallow embedding of the parts of [app.py] that the specification
    covers: the score recomputation [UserModel.update_score], the
    like/dislike/favorite handlers [post_interaction] and
    [comment_interaction], the two faction paths ([choose_faction] and the
    [join_faction] action) and the faction check on comments in [post].

    Conventions.
    - The relational tables are fields of [db].  Tables looked up by primary
      key are finite maps from the key; tables that the code scans with
      [filter_by(...).first()] are lists in insertion order.
    - A request handler is a function from the committed database to a
      response (or a raised exception) and the database committed when the
      request ends: work done after the last [db.session.commit()] is
      discarded with the session, so a [return] before the first commit
      leaves the database as it was.
    - Python's [float] arithmetic is a parameter ([PyNum]).  The theorems are
      proved for exact rationals ([Q]); the instance on IEEE binary64 is used
      to evaluate the code on concrete inputs.  Rounding, overflow,
      infinities and NaN are outside the exact model: what is proved of a
      score is proved of its exact value, and the claims on scores are made
      for the stored users of reachable databases, not for arbitrary
      numbers. *)

From Stdlib Require Import ZArith QArith Qminmax String Floats Lia Lqa.
From stdpp Require Import base option list gmap strings sorting.

Local Open Scope Z_scope.
Local Open Scope string_scope.

(** ** Exceptions and results *)

Inductive exn : Type :=
  | ZeroDivisionError   (* float division by zero *)
  | UnboundLocalError   (* a local variable read before assignment *)
  | AttributeError      (* getattr without default on a missing attribute *)
  | NotFound.           (* get_or_404 aborted the request *)

Inductive result (A : Type) : Type :=
  | Ok (a : A)
  | Raise (e : exn).
Arguments Ok {A} a.
Arguments Raise {A} e.

#[export] Instance result_ret : MRet result := fun A a => Ok a.
#[export] Instance result_bind : MBind result := fun A B f m =>
  match m with Ok a => f a | Raise e => Raise e end.

(** ** Python numbers *)

Class PyNum (F : Type) : Type := {
  of_Z : Z -> F;
  add : F -> F -> F;
  sub : F -> F -> F;
  mul : F -> F -> F;
  quot : F -> F -> F;
  eqb : F -> F -> bool;
  ltb : F -> F -> bool
}.

(** Exact rationals: the idealised arithmetic of the proofs. *)
#[export] Instance Q_num : PyNum Q := {|
  of_Z := inject_Z;
  add := Qplus;
  sub := Qminus;
  mul := Qmult;
  quot := Qdiv;
  eqb := Qeq_bool;
  ltb := fun a b => negb (Qle_bool b a)
|}.

(** IEEE binary64: Python's [float]. *)
#[export] Instance float_num : PyNum float := {|
  of_Z := fun z => PrimFloat.of_uint63 (Uint63.of_Z z);
  add := PrimFloat.add;
  sub := PrimFloat.sub;
  mul := PrimFloat.mul;
  quot := PrimFloat.div;
  eqb := PrimFloat.eqb;
  ltb := PrimFloat.ltb
|}.

Section Numbers.
Context {F : Type} {PN : PyNum F}.

(** [x or d] on a nullable float column: [None] and zero are falsy. *)
Definition py_or (x : option F) (d : F) : F :=
  match x with
  | Some v => if eqb v (of_Z 0) then d else v
  | None => d
  end.

(** [max(a, b)]: the first argument unless the second is greater. *)
Definition py_max (a b : F) : F := if ltb a b then b else a.

(** [a / b] raises on a zero divisor. *)
Definition py_div (a b : F) : result F :=
  if eqb b (of_Z 0) then Raise ZeroDivisionError else Ok (quot a b).
End Numbers.

Declare Scope py_scope.
Delimit Scope py_scope with py.
Notation "a + b" := (add a b) : py_scope.
Notation "a - b" := (sub a b) : py_scope.
Notation "a * b" := (mul a b) : py_scope.
Notation "a / b" := (quot a b) : py_scope.

(** ** Data model: the tables of app.py *)

(** [UserModel]: the columns the engine reads or writes. *)
Record UserModel (F : Type) : Type := {
  score : option F;          (* db.Float, default 1.0, nullable *)
  post_count : Z
}.
Arguments score {F} _.
Arguments post_count {F} _.

Record PostModel : Type := {
  p_author_id : Z;
  p_view_count : Z;
  p_like_count : Z;
  p_dislike_count : Z;
  p_favorite_count : Z
}.

Record CommentModel : Type := {
  c_content : string;
  c_author_id : Z;
  c_post_id : Z;
  c_like_count : Z;
  c_dislike_count : Z;
  c_faction : string         (* 'pro', 'anti', 'neutral' *)
}.

Record UserPostInteraction : Type := {
  upi_user_id : Z;
  upi_post_id : Z;
  upi_liked : bool;
  upi_disliked : bool;
  upi_favorited : bool;
  upi_interacted_at : Z
}.

Record UserCommentInteraction : Type := {
  uci_user_id : Z;
  uci_comment_id : Z;
  uci_liked : bool;
  uci_disliked : bool;
  uci_interacted_at : Z
}.

Record UserPostFaction : Type := {
  upf_user_id : Z;
  upf_post_id : Z;
  upf_faction : string;      (* 'pro' or 'anti' *)
  upf_created_at : Z
}.

Record db (F : Type) : Type := {
  users : gmap Z (UserModel F);
  posts : gmap Z PostModel;
  comments : gmap Z CommentModel;
  post_interactions : list UserPostInteraction;
  comment_interactions : list UserCommentInteraction;
  post_factions : list UserPostFaction
}.
Arguments users {F} _.
Arguments posts {F} _.
Arguments comments {F} _.
Arguments post_interactions {F} _.
Arguments comment_interactions {F} _.
Arguments post_factions {F} _.

Definition empty_db (F : Type) : db F :=
  {| users := ∅; posts := ∅; comments := ∅;
     post_interactions := []; comment_interactions := []; post_factions := [] |}.

Section Setters.
Context {F : Type}.

Definition set_users (d : db F) (us : gmap Z (UserModel F)) : db F :=
  {| users := us; posts := posts d; comments := comments d;
     post_interactions := post_interactions d;
     comment_interactions := comment_interactions d;
     post_factions := post_factions d |}.

Definition set_posts (d : db F) (ps : gmap Z PostModel) : db F :=
  {| users := users d; posts := ps; comments := comments d;
     post_interactions := post_interactions d;
     comment_interactions := comment_interactions d;
     post_factions := post_factions d |}.

Definition set_comments (d : db F) (cs : gmap Z CommentModel) : db F :=
  {| users := users d; posts := posts d; comments := cs;
     post_interactions := post_interactions d;
     comment_interactions := comment_interactions d;
     post_factions := post_factions d |}.

Definition set_post_interactions (d : db F) (l : list UserPostInteraction) : db F :=
  {| users := users d; posts := posts d; comments := comments d;
     post_interactions := l;
     comment_interactions := comment_interactions d;
     post_factions := post_factions d |}.

Definition set_comment_interactions (d : db F) (l : list UserCommentInteraction) : db F :=
  {| users := users d; posts := posts d; comments := comments d;
     post_interactions := post_interactions d;
     comment_interactions := l;
     post_factions := post_factions d |}.

Definition set_post_factions (d : db F) (l : list UserPostFaction) : db F :=
  {| users := users d; posts := posts d; comments := comments d;
     post_interactions := post_interactions d;
     comment_interactions := comment_interactions d;
     post_factions := l |}.

Definition set_score (u : UserModel F) (s : option F) : UserModel F :=
  {| score := s; post_count := post_count u |}.
End Setters.

(** A row fetched with [.first()] and written back at commit: an existing row
    is updated in place, a row added to the session is appended. *)
Definition save_row {A : Type} (slot : option nat) (row : A) (table : list A) : list A :=
  match slot with
  | Some i => <[i := row]> table
  | None => table ++ [row]
  end.

(** ** Score engine: UserModel.update_score *)

Section Score.
Context {F : Type} {PN : PyNum F}.
Local Open Scope py_scope.

(** The two inner joins and the filter of the query below, for one row. *)
Definition join_post_interaction (self_id : Z) (d : db F) (i : UserPostInteraction)
  : option (UserPostInteraction * UserModel F) :=
  user ← users d !! upi_user_id i;
  post ← posts d !! upi_post_id i;
  if bool_decide (p_author_id post = self_id) then Some (i, user) else None.

(** query(UserPostInteraction, UserModel).join(UserModel).join(PostModel)
    .filter(PostModel.author_id == self.id).all() *)
Definition post_interactions_of (self_id : Z) (d : db F)
  : list (UserPostInteraction * UserModel F) :=
  omap (join_post_interaction self_id d) (post_interactions d).

Definition join_comment_interaction (self_id : Z) (d : db F)
    (i : UserCommentInteraction) : option (UserCommentInteraction * UserModel F) :=
  user ← users d !! uci_user_id i;
  comment ← comments d !! uci_comment_id i;
  if bool_decide (c_author_id comment = self_id) then Some (i, user) else None.

(** query(UserCommentInteraction, UserModel).join(UserModel).join(CommentModel)
    .filter(CommentModel.author_id == self.id).all() *)
Definition comment_interactions_of (self_id : Z) (d : db F)
  : list (UserCommentInteraction * UserModel F) :=
  omap (join_comment_interaction self_id d) (comment_interactions d).

(** The loop over post interactions; [self_score] is [self.score], which
    the method assigns only after both loops. *)
Fixpoint score_post_interactions (self_score : option F)
    (rows : list (UserPostInteraction * UserModel F)) (new_score : F) : result F :=
  match rows with
  | [] => Ok new_score
  | (interaction, user) :: rest =>
      if upi_liked interaction then
        let user_score := py_max (py_or (score user) (of_Z 1)) (of_Z 1) in
        weight ← py_div user_score
                   (of_Z 500 * (of_Z 1 + py_or self_score (of_Z 1) / of_Z 10));
        score_post_interactions self_score rest (new_score + weight)
      else if upi_disliked interaction then
        let user_score := py_max (py_or (score user) (of_Z 1)) (of_Z 1) in
        weight ← py_div user_score
                   (of_Z 500 * (of_Z 1 + py_or self_score (of_Z 1) / of_Z 20));
        score_post_interactions self_score rest (new_score - weight)
      else score_post_interactions self_score rest new_score
  end.

(** The loop over comment interactions. *)
Fixpoint score_comment_interactions (self_score : option F)
    (rows : list (UserCommentInteraction * UserModel F)) (new_score : F) : result F :=
  match rows with
  | [] => Ok new_score
  | (interaction, user) :: rest =>
      if uci_liked interaction then
        let user_score := py_max (py_or (score user) (of_Z 1)) (of_Z 1) in
        weight ← py_div user_score
                   (of_Z 100 * (of_Z 1 + py_or self_score (of_Z 1) / of_Z 5));
        score_comment_interactions self_score rest (new_score + weight)
      else if uci_disliked interaction then
        let user_score := py_max (py_or (score user) (of_Z 1)) (of_Z 1) in
        weight ← py_div user_score
                   (of_Z 100 * (of_Z 1 + py_or self_score (of_Z 1) / of_Z 10));
        score_comment_interactions self_score rest (new_score - weight)
      else score_comment_interactions self_score rest new_score
  end.

(** [self.update_score()] for the user row [self] stored under [self_id]:
    the returned value and the session's database with [self.score]
    assigned. *)
Definition update_score (self_id : Z) (self : UserModel F) (d : db F)
  : result (F * db F) :=
  let new_score := of_Z 1 in
  let post_interactions := post_interactions_of self_id d in
  let comment_interactions := comment_interactions_of self_id d in
  new_score ← score_post_interactions (score self) post_interactions new_score;
  new_score ← score_comment_interactions (score self) comment_interactions new_score;
  let self' := set_score self (Some (py_max new_score (of_Z 1))) in
  Ok (py_max new_score (of_Z 1), set_users d (<[self_id := self']> (users d))).
End Score.

(** ** Requests and responses *)

(** The messages passed to [flash] before a redirect. *)
Inductive flash : Type :=
  | InvalidFaction            (* choose_faction: faction not in ['pro', 'anti'] *)
  | AlreadyChosen             (* choose_faction: a faction row exists, not changeable *)
  | Joined (faction : string) (* choose_faction: row created *)
  | EmptyContent              (* post: comment content must not be empty *)
  | NotInFaction              (* post: join the faction before a faction comment *)
  | CommentPosted.            (* post: comment created *)

Inductive response : Type :=
  | ResponseData (action : string) (active : bool) (count : Z)
      (* response_data: returned as JSON to an XMLHttpRequest, else shown by
         flash and redirect *)
  | BadRequest (error : string)   (* {'error': error}, 400 *)
  | Redirect (message : flash)    (* flash(message); redirect(url_for('post')) *)
  | Rendered.                     (* render_template('post/detail.html') *)

(** Field updates of the rows the handlers mutate. *)
Definition set_like_count (p : PostModel) (n : Z) : PostModel :=
  {| p_author_id := p_author_id p; p_view_count := p_view_count p; p_like_count := n;
     p_dislike_count := p_dislike_count p; p_favorite_count := p_favorite_count p |}.
Definition set_dislike_count (p : PostModel) (n : Z) : PostModel :=
  {| p_author_id := p_author_id p; p_view_count := p_view_count p;
     p_like_count := p_like_count p; p_dislike_count := n;
     p_favorite_count := p_favorite_count p |}.
Definition set_favorite_count (p : PostModel) (n : Z) : PostModel :=
  {| p_author_id := p_author_id p; p_view_count := p_view_count p;
     p_like_count := p_like_count p; p_dislike_count := p_dislike_count p;
     p_favorite_count := n |}.
Definition set_view_count (p : PostModel) (n : Z) : PostModel :=
  {| p_author_id := p_author_id p; p_view_count := n; p_like_count := p_like_count p;
     p_dislike_count := p_dislike_count p; p_favorite_count := p_favorite_count p |}.

Definition set_liked (i : UserPostInteraction) (b : bool) : UserPostInteraction :=
  {| upi_user_id := upi_user_id i; upi_post_id := upi_post_id i; upi_liked := b;
     upi_disliked := upi_disliked i; upi_favorited := upi_favorited i;
     upi_interacted_at := upi_interacted_at i |}.
Definition set_disliked (i : UserPostInteraction) (b : bool) : UserPostInteraction :=
  {| upi_user_id := upi_user_id i; upi_post_id := upi_post_id i; upi_liked := upi_liked i;
     upi_disliked := b; upi_favorited := upi_favorited i;
     upi_interacted_at := upi_interacted_at i |}.
Definition set_favorited (i : UserPostInteraction) (b : bool) : UserPostInteraction :=
  {| upi_user_id := upi_user_id i; upi_post_id := upi_post_id i; upi_liked := upi_liked i;
     upi_disliked := upi_disliked i; upi_favorited := b;
     upi_interacted_at := upi_interacted_at i |}.
Definition set_interacted_at (i : UserPostInteraction) (t : Z) : UserPostInteraction :=
  {| upi_user_id := upi_user_id i; upi_post_id := upi_post_id i; upi_liked := upi_liked i;
     upi_disliked := upi_disliked i; upi_favorited := upi_favorited i;
     upi_interacted_at := t |}.

Definition set_c_like_count (c : CommentModel) (n : Z) : CommentModel :=
  {| c_content := c_content c; c_author_id := c_author_id c; c_post_id := c_post_id c;
     c_like_count := n; c_dislike_count := c_dislike_count c; c_faction := c_faction c |}.
Definition set_c_dislike_count (c : CommentModel) (n : Z) : CommentModel :=
  {| c_content := c_content c; c_author_id := c_author_id c; c_post_id := c_post_id c;
     c_like_count := c_like_count c; c_dislike_count := n; c_faction := c_faction c |}.

Definition set_c_liked (i : UserCommentInteraction) (b : bool) : UserCommentInteraction :=
  {| uci_user_id := uci_user_id i; uci_comment_id := uci_comment_id i; uci_liked := b;
     uci_disliked := uci_disliked i; uci_interacted_at := uci_interacted_at i |}.
Definition set_c_disliked (i : UserCommentInteraction) (b : bool) : UserCommentInteraction :=
  {| uci_user_id := uci_user_id i; uci_comment_id := uci_comment_id i;
     uci_liked := uci_liked i; uci_disliked := b;
     uci_interacted_at := uci_interacted_at i |}.
Definition set_c_interacted_at (i : UserCommentInteraction) (t : Z) : UserCommentInteraction :=
  {| uci_user_id := uci_user_id i; uci_comment_id := uci_comment_id i;
     uci_liked := uci_liked i; uci_disliked := uci_disliked i; uci_interacted_at := t |}.

Definition set_faction (r : UserPostFaction) (f : string) : UserPostFaction :=
  {| upf_user_id := upf_user_id r; upf_post_id := upf_post_id r; upf_faction := f;
     upf_created_at := upf_created_at r |}.

(** [getattr(post, f'{action}_count', 0)] *)
Definition post_count_attr (action : string) (post : PostModel) : Z :=
  if bool_decide (action = "like") then p_like_count post
  else if bool_decide (action = "dislike") then p_dislike_count post
  else if bool_decide (action = "favorite") then p_favorite_count post
  else if bool_decide (action = "view") then p_view_count post
  else 0.

(** [getattr(comment, f'{action}_count')]: no default. *)
Definition comment_count_attr (action : string) (comment : CommentModel) : option Z :=
  if bool_decide (action = "like") then Some (c_like_count comment)
  else if bool_decide (action = "dislike") then Some (c_dislike_count comment)
  else None.

(** The next value of an autoincrement primary key. *)
Definition next_id {A : Type} (table : gmap Z A) : Z :=
  Z.succ (foldr Z.max 0 (fst <$> map_to_list table)).

(** [UserPostInteraction.query.filter_by(user_id=..., post_id=...).first()] *)
Definition find_post_interaction (user_id post_id : Z) (l : list UserPostInteraction)
  : option (nat * UserPostInteraction) :=
  list_find (fun i => upi_user_id i = user_id ∧ upi_post_id i = post_id) l.

(** [UserCommentInteraction.query.filter_by(user_id=..., comment_id=...).first()] *)
Definition find_comment_interaction (user_id comment_id : Z)
    (l : list UserCommentInteraction) : option (nat * UserCommentInteraction) :=
  list_find (fun i => uci_user_id i = user_id ∧ uci_comment_id i = comment_id) l.

(** [UserPostFaction.query.filter_by(user_id=..., post_id=...).first()] *)
Definition find_post_faction (user_id post_id : Z) (l : list UserPostFaction)
  : option (nat * UserPostFaction) :=
  list_find (fun r => upf_user_id r = user_id ∧ upf_post_id r = post_id) l.

(** [UserPostFaction.query.filter_by(user_id=..., post_id=..., faction=...).first()] *)
Definition find_post_faction_in (user_id post_id : Z) (faction : string)
    (l : list UserPostFaction) : option (nat * UserPostFaction) :=
  list_find (fun r => upf_user_id r = user_id ∧ upf_post_id r = post_id
                      ∧ upf_faction r = faction) l.

(** What the action branches of [post_interaction] leave behind: an early
    [return], or the mutated objects and [active]. *)
Inductive post_branch : Type :=
  | Return (r : response)
  | Continue (post : PostModel) (interaction : UserPostInteraction)
             (factions : list UserPostFaction) (active : bool).

(** ** Request handlers *)

Section Handlers.
Context {F : Type} {PN : PyNum F}.
Local Open Scope py_scope.

(** The action branches of [post_interaction] (the if/elif chain).
    [json_faction] is [request.json.get('faction')]. *)
Definition post_action (current_user post_id : Z) (action : string)
    (json_faction : option string) (now : Z) (post : PostModel)
    (interaction : UserPostInteraction) (factions : list UserPostFaction)
  : post_branch :=
  if bool_decide (action = "like") then
    if upi_liked interaction then
      let post := set_like_count post (p_like_count post - 1) in
      let interaction := set_liked interaction false in
      Continue post interaction factions false
    else
      let post := set_like_count post (p_like_count post + 1) in
      let interaction := set_liked interaction true in
      if upi_disliked interaction then
        let post := set_dislike_count post (p_dislike_count post - 1) in
        let interaction := set_disliked interaction false in
        Continue post interaction factions true
      else Continue post interaction factions true
  else if bool_decide (action = "dislike") then
    if upi_disliked interaction then
      let post := set_dislike_count post (p_dislike_count post - 1) in
      let interaction := set_disliked interaction false in
      Continue post interaction factions false
    else
      let post := set_dislike_count post (p_dislike_count post + 1) in
      let interaction := set_disliked interaction true in
      if upi_liked interaction then
        let post := set_like_count post (p_like_count post - 1) in
        let interaction := set_liked interaction false in
        Continue post interaction factions true
      else Continue post interaction factions true
  else if bool_decide (action = "favorite") then
    if upi_favorited interaction then
      let post := set_favorite_count post (p_favorite_count post - 1) in
      let interaction := set_favorited interaction false in
      Continue post interaction factions false
    else
      let post := set_favorite_count post (p_favorite_count post + 1) in
      let interaction := set_favorited interaction true in
      Continue post interaction factions true
  else if bool_decide (action = "join_faction") then
    match json_faction with
    | Some faction =>
        if bool_decide (faction ∈ ["pro"; "anti"]) then
          match find_post_faction current_user post_id factions with
          | Some (k, faction_interaction) =>
              if bool_decide (upf_faction faction_interaction = faction) then
                Continue post interaction (delete k factions) false
              else
                let faction_interaction := set_faction faction_interaction faction in
                Continue post interaction (<[k := faction_interaction]> factions) true
          | None =>
              let faction_interaction :=
                {| upf_user_id := current_user; upf_post_id := post_id;
                   upf_faction := faction; upf_created_at := now |} in
              Continue post interaction (factions ++ [faction_interaction]) true
          end
        else Return (BadRequest "Invalid faction")
    | None => Return (BadRequest "Invalid faction")
    end
  else Return (BadRequest "Invalid action").

(** POST /post/<post_id>/<action>, for the logged-in [current_user] at time
    [now].  A row created by the handler carries the column defaults. *)
Definition post_interaction (current_user : Z) (json_faction : option string) (now : Z)
    (post_id : Z) (action : string) (d : db F) : result response * db F :=
  match posts d !! post_id with
  | None => (Raise NotFound, d)
  | Some post =>
      let found := find_post_interaction current_user post_id (post_interactions d) in
      let slot := fst <$> found in
      let interaction :=
        default {| upi_user_id := current_user; upi_post_id := post_id;
                   upi_liked := false; upi_disliked := false; upi_favorited := false;
                   upi_interacted_at := now |} (snd <$> found) in
      let was_liked := upi_liked interaction in
      let was_disliked := upi_disliked interaction in
      match post_action current_user post_id action json_faction now post interaction
                        (post_factions d) with
      | Return r => (Ok r, d)
      | Continue post interaction factions active =>
          let interaction := set_interacted_at interaction now in
          (* db.session.commit() *)
          let d1 :=
            set_post_factions
              (set_post_interactions
                 (set_posts d (<[post_id := post]> (posts d)))
                 (save_row slot interaction (post_interactions d)))
              factions in
          let response_data :=
            ResponseData action active (post_count_attr action post) in
          if bool_decide (action ∈ ["like"; "dislike"])
             && (bool_decide (was_liked ≠ upi_liked interaction)
                 || bool_decide (was_disliked ≠ upi_disliked interaction))
          then
            match users d1 !! p_author_id post with
            | Some post_author =>
                match update_score (p_author_id post) post_author d1 with
                | Ok (_, d2) => (Ok response_data, d2)   (* second commit *)
                | Raise e => (Raise e, d1)
                end
            | None => (Ok response_data, d1)
            end
          else (Ok response_data, d1)
      end
  end.

(** The action branches of [comment_interaction]: there is no final [else],
    so [active] stays unbound ([None]) for any other action. *)
Definition comment_action (action : string) (comment : CommentModel)
    (interaction : UserCommentInteraction)
  : CommentModel * UserCommentInteraction * option bool :=
  if bool_decide (action = "like") then
    if uci_liked interaction then
      let comment := set_c_like_count comment (c_like_count comment - 1) in
      let interaction := set_c_liked interaction false in
      (comment, interaction, Some false)
    else
      let comment := set_c_like_count comment (c_like_count comment + 1) in
      let interaction := set_c_liked interaction true in
      if uci_disliked interaction then
        let comment := set_c_dislike_count comment (c_dislike_count comment - 1) in
        let interaction := set_c_disliked interaction false in
        (comment, interaction, Some true)
      else (comment, interaction, Some true)
  else if bool_decide (action = "dislike") then
    if uci_disliked interaction then
      let comment := set_c_dislike_count comment (c_dislike_count comment - 1) in
      let interaction := set_c_disliked interaction false in
      (comment, interaction, Some false)
    else
      let comment := set_c_dislike_count comment (c_dislike_count comment + 1) in
      let interaction := set_c_disliked interaction true in
      if uci_liked interaction then
        let comment := set_c_like_count comment (c_like_count comment - 1) in
        let interaction := set_c_liked interaction false in
        (comment, interaction, Some true)
      else (comment, interaction, Some true)
  else (comment, interaction, None).

(** The tail of [comment_interaction]: building [response_data] reads
    [active] first, then [getattr(comment, f'{action}_count')]. *)
Definition comment_response (action : string) (active : option bool)
    (comment : CommentModel) : result response :=
  match active with
  | None => Raise UnboundLocalError
  | Some active =>
      match comment_count_attr action comment with
      | Some count => Ok (ResponseData action active count)
      | None => Raise AttributeError
      end
  end.

(** POST /comment/<comment_id>/<action> *)
Definition comment_interaction (current_user : Z) (now : Z)
    (comment_id : Z) (action : string) (d : db F) : result response * db F :=
  match comments d !! comment_id with
  | None => (Raise NotFound, d)
  | Some comment =>
      let found :=
        find_comment_interaction current_user comment_id (comment_interactions d) in
      let slot := fst <$> found in
      let interaction :=
        default {| uci_user_id := current_user; uci_comment_id := comment_id;
                   uci_liked := false; uci_disliked := false;
                   uci_interacted_at := now |} (snd <$> found) in
      let was_liked := uci_liked interaction in
      let was_disliked := uci_disliked interaction in
      let '(comment, interaction, active) := comment_action action comment interaction in
      let interaction := set_c_interacted_at interaction now in
      (* db.session.commit() *)
      let d1 :=
        set_comment_interactions
          (set_comments d (<[comment_id := comment]> (comments d)))
          (save_row slot interaction (comment_interactions d)) in
      if bool_decide (action ∈ ["like"; "dislike"])
         && (bool_decide (was_liked ≠ uci_liked interaction)
             || bool_decide (was_disliked ≠ uci_disliked interaction))
      then
        match users d1 !! c_author_id comment with
        | Some comment_author =>
            match update_score (c_author_id comment) comment_author d1 with
            | Ok (_, d2) => (comment_response action active comment, d2)
            | Raise e => (Raise e, d1)
            end
        | None => (comment_response action active comment, d1)
        end
      else (comment_response action active comment, d1)
  end.

(** POST /post/<post_id>/choose_faction/<faction> *)
Definition choose_faction (current_user : Z) (now : Z) (post_id : Z) (faction : string)
    (d : db F) : result response * db F :=
  if bool_decide (faction ∈ ["pro"; "anti"]) then
    match find_post_faction current_user post_id (post_factions d) with
    | Some existing_faction => (Ok (Redirect AlreadyChosen), d)
    | None =>
        let new_faction :=
          {| upf_user_id := current_user; upf_post_id := post_id;
             upf_faction := faction; upf_created_at := now |} in
        (Ok (Redirect (Joined faction)),
         set_post_factions d (post_factions d ++ [new_faction]))
    end
  else (Ok (Redirect InvalidFaction), d).
End Handlers.

(** The comment form of POST /post/<post_id>.  [form_content] is [content] as
    tested by [if not content] (after the claim/argument formatting),
    [form_faction] is the submitted 'faction' field, if any. *)
Record comment_form : Type := {
  form_content : option string;
  form_faction : option string
}.

Section Pages.
Context {F : Type} {PN : PyNum F}.
Local Open Scope py_scope.

(** /post/<post_id>: count the view, then handle a submitted comment.
    [current_user] is [None] for an anonymous visitor, [form] is [None] for
    a GET request. *)
Definition post (current_user : option Z) (form : option comment_form) (now : Z)
    (post_id : Z) (d : db F) : result response * db F :=
  match posts d !! post_id with
  | None => (Raise NotFound, d)
  | Some post =>
      let post := set_view_count post (p_view_count post + 1) in
      (* db.session.commit() *)
      let d1 := set_posts d (<[post_id := post]> (posts d)) in
      match form, current_user with
      | Some form, Some current_user =>
          let faction := default "neutral" (form_faction form) in
          match form_content form with
          | None | Some "" => (Ok (Redirect EmptyContent), d1)
          | Some content =>
              let comment :=
                {| c_content := content; c_author_id := current_user;
                   c_post_id := post_id; c_like_count := 0; c_dislike_count := 0;
                   c_faction := faction |} in
              let created :=
                (Ok (Redirect CommentPosted),
                 set_comments d1 (<[next_id (comments d1) := comment]> (comments d1))) in
              if bool_decide (faction ∈ ["pro"; "anti"]) then
                match find_post_faction_in current_user post_id faction
                                           (post_factions d1) with
                | None => (Ok (Redirect NotInFaction), d1)
                | Some user_faction => created
                end
              else created
          end
      | _, _ => (Ok Rendered, d1)
      end
  end.

(** The commit of /register: a new user row with the column defaults. *)
Definition register (d : db F) : db F :=
  let user := {| score := Some (of_Z 1); post_count := 0 |} in
  set_users d (<[next_id (users d) := user]> (users d)).

(** The commit of /post/new: a new post row by [current_user]. *)
Definition new_post (current_user : Z) (d : db F) : db F :=
  let post :=
    {| p_author_id := current_user; p_view_count := 0; p_like_count := 0;
       p_dislike_count := 0; p_favorite_count := 0 |} in
  let d1 := set_posts d (<[next_id (posts d) := post]> (posts d)) in
  match users d !! current_user with
  | Some u =>
      set_users d1 (<[current_user := {| score := score u;
                                         post_count := post_count u + 1 |}]> (users d1))
  | None => d1
  end.

(** [for user in users: user.update_score()] *)
Fixpoint update_scores (ids : list Z) (d : db F) : result (db F) :=
  match ids with
  | [] => Ok d
  | user_id :: rest =>
      match users d !! user_id with
      | Some user =>
          match update_score user_id user d with
          | Ok (_, d') => update_scores rest d'
          | Raise e => Raise e
          end
      | None => update_scores rest d
      end
  end.

(** [init_user_scores()]: recompute every user, commit at the end. *)
Definition init_user_scores (d : db F) : result unit * db F :=
  match update_scores (fst <$> map_to_list (users d)) d with
  | Ok d' => (Ok (), d')
  | Raise e => (Raise e, d)
  end.

(** ** Reachable databases *)

(** One committed request of a logged-in (hence stored) user, a
    registration, or a restart of the application. *)
Inductive step : db F -> db F -> Prop :=
  | step_register d :
      step d (register d)
  | step_new_post d current_user :
      is_Some (users d !! current_user) ->
      step d (new_post current_user d)
  | step_post d current_user form now post_id :
      (forall u, current_user = Some u -> is_Some (users d !! u)) ->
      step d (post current_user form now post_id d).2
  | step_post_interaction d current_user json_faction now post_id action :
      is_Some (users d !! current_user) ->
      step d (post_interaction current_user json_faction now post_id action d).2
  | step_comment_interaction d current_user now comment_id action :
      is_Some (users d !! current_user) ->
      step d (comment_interaction current_user now comment_id action d).2
  | step_choose_faction d current_user now post_id faction :
      is_Some (users d !! current_user) ->
      step d (choose_faction current_user now post_id faction d).2
  | step_init_user_scores d :
      step d (init_user_scores d).2.

Inductive reachable : db F -> Prop :=
  | reachable_empty : reachable (empty_db F)
  | reachable_step d d' : reachable d -> step d d' -> reachable d'.
End Pages.

(** ** The specification's reference definitions *)

Local Open Scope Q_scope.

(** A vote received by a user: the two flags of the interaction record and
    the voter's stored score. *)
Record vote : Type := {
  liked : bool;
  disliked : bool;
  voter_score : Q
}.

(** The stored score of a user; a missing value reads as the default 1.0. *)
Definition stored_score (d : db Q) (user_id : Z) : Q :=
  match users d !! user_id with
  | Some u => default 1 (score u)
  | None => 1
  end.

(** The vote of a PostInteraction, if its post is authored by [user_id]. *)
Definition post_vote (d : db Q) (user_id : Z) (i : UserPostInteraction) : option vote :=
  match posts d !! upi_post_id i with
  | Some p =>
      if bool_decide (p_author_id p = user_id)
      then Some {| liked := upi_liked i; disliked := upi_disliked i;
                   voter_score := stored_score d (upi_user_id i) |}
      else None
  | None => None
  end.

(** Every PostInteraction on a post authored by [user_id]. *)
Definition post_votes (d : db Q) (user_id : Z) : list vote :=
  omap (post_vote d user_id) (post_interactions d).

(** The vote of a CommentInteraction, if its comment is authored by
    [user_id]. *)
Definition comment_vote (d : db Q) (user_id : Z) (i : UserCommentInteraction)
  : option vote :=
  match comments d !! uci_comment_id i with
  | Some c =>
      if bool_decide (c_author_id c = user_id)
      then Some {| liked := uci_liked i; disliked := uci_disliked i;
                   voter_score := stored_score d (uci_user_id i) |}
      else None
  | None => None
  end.

(** Every CommentInteraction on a comment authored by [user_id]. *)
Definition comment_votes (d : db Q) (user_id : Z) : list vote :=
  omap (comment_vote d user_id) (comment_interactions d).

(** Steps 2 and 3 of the algorithm for one vote: add the like weight if
    liked, subtract the dislike weight if disliked. *)
Definition apply_vote (base like_damp dislike_damp user_score : Q) (s : Q) (v : vote) : Q :=
  let s :=
    if liked v
    then s + Qmax (voter_score v) 1 / (base * (1 + Qmax user_score 1 / like_damp))
    else s in
  if disliked v
  then s - Qmax (voter_score v) 1 / (base * (1 + Qmax user_score 1 / dislike_damp))
  else s.

(** recompute(user): the reference algorithm, with [user.score] the score
    stored at entry. *)
Definition recompute (d : db Q) (user_id : Z) : Q :=
  let user_score := stored_score d user_id in
  let s := 1 in
  let s := fold_left (apply_vote 500 10 20 user_score) (post_votes d user_id) s in
  let s := fold_left (apply_vote 100 5 10 user_score) (comment_votes d user_id) s in
  Qmax s 1.

Local Close Scope Q_scope.

(** The like/dislike state of one (actor, target) pair with the target's
    denormalized counts. *)
Record vote_state : Type := {
  vs_liked : bool;
  vs_disliked : bool;
  vs_like_count : Z;
  vs_dislike_count : Z
}.

(** [like]: un-like if currently liked; else set liked and, if currently
    disliked, clear it.  The boolean is the returned [active]. *)
Definition apply_like (s : vote_state) : vote_state * bool :=
  if vs_liked s then
    ({| vs_liked := false; vs_disliked := vs_disliked s;
        vs_like_count := vs_like_count s - 1;
        vs_dislike_count := vs_dislike_count s |}, false)
  else
    ({| vs_liked := true; vs_disliked := false;
        vs_like_count := vs_like_count s + 1;
        vs_dislike_count :=
          if vs_disliked s then vs_dislike_count s - 1 else vs_dislike_count s |}, true).

(** [dislike]: symmetric. *)
Definition apply_dislike (s : vote_state) : vote_state * bool :=
  if vs_disliked s then
    ({| vs_liked := vs_liked s; vs_disliked := false;
        vs_like_count := vs_like_count s;
        vs_dislike_count := vs_dislike_count s - 1 |}, false)
  else
    ({| vs_liked := false; vs_disliked := true;
        vs_like_count :=
          if vs_liked s then vs_like_count s - 1 else vs_like_count s;
        vs_dislike_count := vs_dislike_count s + 1 |}, true).

(** The state of (actor, post) in a database: the flags of the interaction
    row (all false when there is none) and the counts of the post. *)
Definition post_vote_state {F : Type} (d : db F) (user_id post_id : Z) : option vote_state :=
  post ← posts d !! post_id;
  let flags :=
    match find_post_interaction user_id post_id (post_interactions d) with
    | Some (_, i) => (upi_liked i, upi_disliked i)
    | None => (false, false)
    end in
  Some {| vs_liked := flags.1; vs_disliked := flags.2;
          vs_like_count := p_like_count post;
          vs_dislike_count := p_dislike_count post |}.

Definition comment_vote_state {F : Type} (d : db F) (user_id comment_id : Z)
  : option vote_state :=
  comment ← comments d !! comment_id;
  let flags :=
    match find_comment_interaction user_id comment_id (comment_interactions d) with
    | Some (_, i) => (uci_liked i, uci_disliked i)
    | None => (false, false)
    end in
  Some {| vs_liked := flags.1; vs_disliked := flags.2;
          vs_like_count := c_like_count comment;
          vs_dislike_count := c_dislike_count comment |}.

(** The transition and the count reported for a like or dislike action. *)
Definition apply_action (action : string) : vote_state -> vote_state * bool :=
  if bool_decide (action = "like") then apply_like else apply_dislike.

Definition reported_count (action : string) (s : vote_state) : Z :=
  if bool_decide (action = "like") then vs_like_count s else vs_dislike_count s.

(** ** Invariants of reachable databases *)

(** Every stored score is present and at least 1. *)
Definition scores_ok (d : db Q) : Prop :=
  map_Forall (fun _ u => exists s, score u = Some s /\ (1 <= s)%Q) (users d).

(** No interaction record is liked and disliked at once. *)
Definition exclusive {F : Type} (d : db F) : Prop :=
  Forall (fun i => upi_liked i && upi_disliked i = false) (post_interactions d)
  /\ Forall (fun i => uci_liked i && uci_disliked i = false) (comment_interactions d).

(** Every interaction record belongs to a stored user. *)
Definition voters_stored {F : Type} (d : db F) : Prop :=
  Forall (fun i => is_Some (users d !! upi_user_id i)) (post_interactions d)
  /\ Forall (fun i => is_Some (users d !! uci_user_id i)) (comment_interactions d).

(** At most one faction row per (user, post): the table's unique
    constraint. *)
Definition faction_key (r : UserPostFaction) : Z * Z := (upf_user_id r, upf_post_id r).

Definition factions_unique {F : Type} (d : db F) : Prop :=
  NoDup (faction_key <$> post_factions d).

(** The faction the user holds on the post, if any. *)
Definition faction_of {F : Type} (d : db F) (user_id post_id : Z) : option string :=
  (fun found => upf_faction found.2) <$> find_post_faction user_id post_id (post_factions d).

(** A faction row of the user on the post with exactly this faction. *)
Definition in_faction {F : Type} (d : db F) (user_id post_id : Z) (faction : string) : Prop :=
  exists r, r ∈ post_factions d
            /\ upf_user_id r = user_id /\ upf_post_id r = post_id
            /\ upf_faction r = faction.

(** No user is deleted between [d] and [d']. *)
Definition users_kept {F : Type} (d d' : db F) : Prop :=
  forall k, is_Some (users d !! k) -> is_Some (users d' !! k).

(** ** Keys, references and counters *)

(** The pair that [filter_by(user_id=..., post_id=...)] selects on. *)
Definition interaction_key (i : UserPostInteraction) : Z * Z :=
  (upi_user_id i, upi_post_id i).

Definition comment_interaction_key (i : UserCommentInteraction) : Z * Z :=
  (uci_user_id i, uci_comment_id i).

(** At most one interaction row per (user, post) and per (user, comment). *)
Definition interactions_unique {F : Type} (d : db F) : Prop :=
  NoDup (interaction_key <$> post_interactions d)
  /\ NoDup (comment_interaction_key <$> comment_interactions d).

(** Every interaction row points to a stored post or comment. *)
Definition targets_stored {F : Type} (d : db F) : Prop :=
  Forall (fun i => is_Some (posts d !! upi_post_id i)) (post_interactions d)
  /\ Forall (fun i => is_Some (comments d !! uci_comment_id i)) (comment_interactions d).

(** The number of rows of a table with a property. *)
Fixpoint count_if {A : Type} (f : A -> bool) (l : list A) : Z :=
  match l with
  | [] => 0
  | x :: l => (if f x then 1 else 0) + count_if f l
  end.

(** A flag as a number. *)
Definition b2z (b : bool) : Z := if b then 1 else 0.

(** The rows of a post, or of a comment, with a flag set. *)
Definition post_rows (flag : UserPostInteraction -> bool) (post_id : Z)
    (l : list UserPostInteraction) : Z :=
  count_if (fun i => bool_decide (upi_post_id i = post_id) && flag i) l.

Definition comment_rows (flag : UserCommentInteraction -> bool) (comment_id : Z)
    (l : list UserCommentInteraction) : Z :=
  count_if (fun i => bool_decide (uci_comment_id i = comment_id) && flag i) l.

(** The denormalized counters agree with the interaction rows. *)
Definition counters_ok {F : Type} (d : db F) : Prop :=
  (forall post_id p, posts d !! post_id = Some p ->
     p_like_count p = post_rows upi_liked post_id (post_interactions d)
     /\ p_dislike_count p = post_rows upi_disliked post_id (post_interactions d)
     /\ p_favorite_count p = post_rows upi_favorited post_id (post_interactions d))
  /\ (forall comment_id c, comments d !! comment_id = Some c ->
        c_like_count c = comment_rows uci_liked comment_id (comment_interactions d)
        /\ c_dislike_count c
           = comment_rows uci_disliked comment_id (comment_interactions d)).

(** Every faction row holds 'pro' or 'anti'. *)
Definition factions_valid {F : Type} (d : db F) : Prop :=
  Forall (fun r => upf_faction r ∈ ["pro"; "anti"]) (post_factions d).

(** ** The profile page, kept rows *)

Section ProfileDefs.
Context {F : Type}.

(** [PostModel.query.filter_by(author_id=user.id)] of the profile page
    /user/<username>, as a table. *)
Definition posts_by (user_id : Z) (d : db F) : gmap Z PostModel :=
  filter (fun kp => p_author_id kp.2 = user_id) (posts d).

(** Every post has a stored author; every comment has a stored author and a
    stored post. *)
Definition authors_stored (d : db F) : Prop :=
  map_Forall (fun _ p => is_Some (users d !! p_author_id p)) (posts d)
  /\ map_Forall (fun _ c => is_Some (users d !! c_author_id c)
                           /\ is_Some (posts d !! c_post_id c)) (comments d).

(** [user.post_count] is the number of the user's posts. *)
Definition post_counts_ok (d : db F) : Prop :=
  forall k u, users d !! k = Some u -> post_count u = Z.of_nat (size (posts_by k d)).

(** What may happen to a stored row between two databases. *)
Definition user_kept (u u' : UserModel F) : Prop := post_count u <= post_count u'.
Definition post_kept (p p' : PostModel) : Prop :=
  p_author_id p' = p_author_id p /\ p_view_count p <= p_view_count p'.
Definition comment_kept (c c' : CommentModel) : Prop :=
  c_content c' = c_content c /\ c_author_id c' = c_author_id c
  /\ c_post_id c' = c_post_id c /\ c_faction c' = c_faction c.

Definition rows_kept {A : Type} (R : A -> A -> Prop) (m m' : gmap Z A) : Prop :=
  forall k x, m !! k = Some x -> exists x', m' !! k = Some x' /\ R x x'.

Definition content_kept (d d' : db F) : Prop :=
  rows_kept user_kept (users d) (users d')
  /\ rows_kept post_kept (posts d) (posts d')
  /\ rows_kept comment_kept (comments d) (comments d').
(** The same keys, each row related to its successor. *)
Definition same_rows {A : Type} (R : A -> A -> Prop) (m m' : gmap Z A) : Prop :=
  forall k, option_Forall2 R (m !! k) (m' !! k).

(** A user row with another score. *)
Definition rescored (u u' : UserModel F) : Prop := post_count u' = post_count u.
End ProfileDefs.

(** ** Relative times: format_time *)

(** [datetime.timedelta] as Python normalises it: any number of days,
    0 <= seconds < 86400 and 0 <= microseconds < 1000000. *)
Record timedelta : Type := {
  days : Z;
  seconds : Z;
  microseconds : Z
}.

(** [now - dt] for two aware datetimes, each given in microseconds since the
    epoch ([//] and [%] round towards minus infinity, as Z's do). *)
Definition datetime_sub (now dt : Z) : timedelta :=
  let us := now - dt in
  {| days := us / 86400000000;
     seconds := (us mod 86400000000) / 1000000;
     microseconds := us mod 1000000 |}.

(** The strings [format_time] builds: a count followed by the words for
    years, months, days, hours or minutes ago, or the words for just now. *)
Inductive relative_time : Type :=
  | YearsAgo (n : Z)
  | MonthsAgo (n : Z)
  | DaysAgo (n : Z)
  | HoursAgo (n : Z)
  | MinutesAgo (n : Z)
  | JustNow.

(** [format_time(dt)] when [utc_time()] returns [now]; a naive [dt] is read
    as UTC. *)
Definition format_time (now dt : Z) : relative_time :=
  let diff := datetime_sub now dt in
  if bool_decide (days diff > 365) then YearsAgo (days diff / 365)
  else if bool_decide (days diff > 30) then MonthsAgo (days diff / 30)
  else if bool_decide (days diff > 0) then DaysAgo (days diff)
  else if bool_decide (seconds diff > 3600) then HoursAgo (seconds diff / 3600)
  else if bool_decide (seconds diff > 60) then MinutesAgo (seconds diff / 60)
  else JustNow.

(** ** The likes of a post: /post/<post_id>/likes *)

Inductive likes_response (F : Type) : Type :=
  | LikesDenied      (* flash: no right to see this; redirect to the post *)
  | LikesPage (likes : list (UserPostInteraction * UserModel F)).
Arguments LikesDenied {F}.
Arguments LikesPage {F} _.

Section Likes.
Context {F : Type}.

(** The join and the filter of the query of [post_likes], for one row. *)
Definition join_like (post_id : Z) (d : db F) (i : UserPostInteraction)
  : option (UserPostInteraction * UserModel F) :=
  user ← users d !! upi_user_id i;
  if bool_decide (upi_post_id i = post_id) && upi_liked i then Some (i, user) else None.

(** [order_by(UserPostInteraction.interacted_at.desc())] *)
Definition newest_first (a b : UserPostInteraction * UserModel F) : Prop :=
  upi_interacted_at b.1 <= upi_interacted_at a.1.

#[export] Instance newest_first_dec a b : Decision (newest_first a b).
Proof. unfold newest_first. apply _. Defined.

(** [current_user] is [None] for an anonymous visitor.  [UserModel] has no
    attribute [is_admin], which the test reads for a logged-in visitor who
    is not the author. *)
Definition post_likes (current_user : option Z) (post_id : Z) (d : db F)
  : result (likes_response F) :=
  match posts d !! post_id with
  | None => Raise NotFound
  | Some post =>
      match current_user with
      | None => Ok LikesDenied
      | Some user_id =>
          if bool_decide (user_id <> p_author_id post) then Raise AttributeError
          else
            let likes := omap (join_like post_id d) (post_interactions d) in
            Ok (LikesPage (merge_sort newest_first likes))
      end
  end.
End Likes.

(** ** Favorite categories: /api/category/<category_id>/favorite *)

Record UserCategoryFavorite : Type := {
  ucf_user_id : Z;
  ucf_category_id : Z;
  ucf_created_at : Z
}.

Definition category_favorite_key (f : UserCategoryFavorite) : Z * Z :=
  (ucf_user_id f, ucf_category_id f).

(** [UserCategoryFavorite.query.filter_by(user_id=..., category_id=...).first()] *)
Definition find_category_favorite (user_id category_id : Z)
    (l : list UserCategoryFavorite) : option (nat * UserCategoryFavorite) :=
  list_find (fun f => ucf_user_id f = user_id ∧ ucf_category_id f = category_id) l.

(** The handler on the ids of the stored categories and the table of
    favorites; the answer is the 'action' of the returned JSON. *)
Definition toggle_category_favorite (current_user now category_id : Z)
    (categories : gset Z) (favorites : list UserCategoryFavorite)
  : result string * list UserCategoryFavorite :=
  if bool_decide (category_id ∈ categories) then
    match find_category_favorite current_user category_id favorites with
    | Some (k, favorite) => (Ok "removed", delete k favorites)
    | None =>
        let new_favorite :=
          {| ucf_user_id := current_user; ucf_category_id := category_id;
             ucf_created_at := now |} in
        (Ok "added", (favorites ++ [new_favorite])%list)
    end
  else (Raise NotFound, favorites).

(** ** A small run of the application *)

Section Run.
Context {F : Type} {PN : PyNum F}.

(** Users 1 and 2 register and user 2 publishes post 1. *)
Definition db_posted : db F := new_post 2 (register (register (empty_db F))).

(** Then user 1 likes post 1 (at time 100). *)
Definition db_liked : db F := (post_interaction 1 None 100 1 "like" db_posted).2.

(** Or user 1 chooses the pro faction on post 1 (at time 50). *)
Definition db_pro : db F := (choose_faction 1 50 1 "pro" db_posted).2.

(** Or user 1 comments on post 1 (comment 1, at time 60). *)
Definition db_commented : db F :=
  (post (Some 1) (Some {| form_content := Some "first"; form_faction := None |})
        60 1 db_posted).2.

(** Or user 1 dislikes post 1 (at time 100). *)
Definition db_disliked : db F := (post_interaction 1 None 100 1 "dislike" db_posted).2.

(** User 2 liked comment 1 of user 1 when both scores were 1 (at time 70),
    which stored 1 + 1/120 for user 1; since then the score of user 2 has
    risen to 50.  No handler recomputes user 1 when the score of a voter
    changes. *)
Definition db_stale : db F :=
  let d := (comment_interaction 2 70 1 "like" db_commented).2 in
  set_users d (<[2 := {| score := Some (of_Z 50); post_count := 1 |}]> (users d)).

(** [user.update_score()] for the stored user [user_id]; nothing happens
    when there is no such user. *)
Definition update_score_of (user_id : Z) (d : db F) : result (option F * db F) :=
  match users d !! user_id with
  | Some user => '(r, d') ← update_score user_id user d; Ok (Some r, d')
  | None => Ok (None, d)
  end.
End Run.

(** * Properties *)

(** ** Frame of the score engine: only the user's own score is written *)

Section Frame.
Context {F : Type} {PN : PyNum F}.

Lemma update_score_writes self_id self (d d' : db F) r :
  update_score self_id self d = Ok (r, d') ->
  d' = set_users d (<[self_id := set_score self (Some r)]> (users d)).
Proof.
  unfold update_score. intros H.
  destruct (score_post_interactions _ _ _) as [s1|]; simpl in H; [|discriminate].
  destruct (score_comment_interactions _ _ _) as [s2|]; simpl in H; [|discriminate].
  by inversion H.
Qed.

Lemma update_scores_tables ids (d d' : db F) :
  update_scores ids d = Ok d' ->
  posts d' = posts d /\ comments d' = comments d
  /\ post_interactions d' = post_interactions d
  /\ comment_interactions d' = comment_interactions d
  /\ post_factions d' = post_factions d
  /\ (forall k, is_Some (users d !! k) -> is_Some (users d' !! k)).
Proof.
  revert d. induction ids as [|i ids IH]; intros d H; simpl in H.
  - inversion H; subst. by repeat split.
  - destruct (users d !! i) as [u|] eqn:Hu; [|by apply IH].
    destruct (update_score i u d) as [[r d1]|] eqn:Hs; [|discriminate].
    apply update_score_writes in Hs. subst d1.
    apply IH in H as (-> & -> & -> & -> & -> & Hk). repeat split; try done.
    intros k Hin. apply Hk. simpl.
    destruct (decide (i = k)) as [->|]; [rewrite lookup_insert_eq|rewrite lookup_insert_ne]; eauto.
Qed.

(** The database committed by [post_interaction]: the one at entry, or the
    first commit, possibly followed by the commit of the author's score. *)
Lemma post_interaction_commits current_user json_faction now post_id action (d : db F) :
  let found := find_post_interaction current_user post_id (post_interactions d) in
  let interaction :=
    default {| upi_user_id := current_user; upi_post_id := post_id;
               upi_liked := false; upi_disliked := false; upi_favorited := false;
               upi_interacted_at := now |} (snd <$> found) in
  let d' := (post_interaction current_user json_faction now post_id action d).2 in
  d' = d \/
  exists post post' interaction' factions active us,
    posts d !! post_id = Some post
    /\ post_action current_user post_id action json_faction now post interaction
                   (post_factions d) = Continue post' interaction' factions active
    /\ d' = {| users := us; posts := <[post_id := post']> (posts d);
               comments := comments d;
               post_interactions :=
                 save_row (fst <$> found) (set_interacted_at interaction' now)
                          (post_interactions d);
               comment_interactions := comment_interactions d;
               post_factions := factions |}
    /\ (us = users d \/
        exists author r d1,
          users d !! p_author_id post' = Some author
          /\ update_score (p_author_id post') author d1 = Ok (r, d')
          /\ us = <[p_author_id post' := set_score author (Some r)]> (users d)).
Proof.
  intros found interaction d'. subst d'. unfold post_interaction.
  destruct (posts d !! post_id) as [post|] eqn:Hp; [|by left].
  fold found. fold interaction.
  destruct (post_action _ _ _ _ _ _ _ _) as [r|post' i' fs active] eqn:Ha; [by left|].
  right. exists post, post', i', fs, active.
  destruct (_ && _); simpl.
  - destruct (users d !! p_author_id post') as [author|] eqn:Hu.
    + destruct (update_score _ _ _) as [[r d2]|] eqn:Hs.
      * pose proof (update_score_writes _ _ _ _ _ Hs) as Hw. simpl.
        eexists. split; [done|]. split; [done|]. split; [by rewrite Hw|].
        right. exists author, r. eexists. split; [done|]. split; [exact Hs|done].
      * simpl. eexists. repeat split; eauto.
    + simpl. eexists. repeat split; eauto.
  - eexists. repeat split; eauto.
Qed.

(** The same for [comment_interaction]. *)
Lemma comment_interaction_commits current_user now comment_id action (d : db F) :
  let found :=
    find_comment_interaction current_user comment_id (comment_interactions d) in
  let interaction :=
    default {| uci_user_id := current_user; uci_comment_id := comment_id;
               uci_liked := false; uci_disliked := false;
               uci_interacted_at := now |} (snd <$> found) in
  let d' := (comment_interaction current_user now comment_id action d).2 in
  d' = d \/
  exists comment comment' interaction' active us,
    comments d !! comment_id = Some comment
    /\ comment_action action comment interaction = (comment', interaction', active)
    /\ d' = {| users := us; posts := posts d;
               comments := <[comment_id := comment']> (comments d);
               post_interactions := post_interactions d;
               comment_interactions :=
                 save_row (fst <$> found) (set_c_interacted_at interaction' now)
                          (comment_interactions d);
               post_factions := post_factions d |}
    /\ (us = users d \/
        exists author r d1,
          users d !! c_author_id comment' = Some author
          /\ update_score (c_author_id comment') author d1 = Ok (r, d')
          /\ us = <[c_author_id comment' := set_score author (Some r)]> (users d)).
Proof.
  intros found interaction d'. subst d'. unfold comment_interaction.
  destruct (comments d !! comment_id) as [comment|] eqn:Hc; [|by left].
  fold found. fold interaction.
  destruct (comment_action _ _ _) as [[comment' i'] active] eqn:Ha.
  right. exists comment, comment', i', active.
  destruct (_ && _); simpl.
  - destruct (users d !! c_author_id comment') as [author|] eqn:Hu.
    + destruct (update_score _ _ _) as [[r d2]|] eqn:Hs.
      * pose proof (update_score_writes _ _ _ _ _ Hs) as Hw. simpl.
        eexists. split; [done|]. split; [done|]. split; [by rewrite Hw|].
        right. exists author, r. eexists. split; [done|]. split; [exact Hs|done].
      * simpl. eexists. repeat split; eauto.
    + simpl. eexists. repeat split; eauto.
  - eexists. repeat split; eauto.
Qed.
End Frame.

(** ** Invariants that do not depend on the arithmetic *)

Section Invariants.
Context {F : Type} {PN : PyNum F}.

Lemma Forall_save_row {A : Type} (P : A -> Prop) slot row (table : list A) :
  Forall P table -> P row -> Forall P (save_row slot row table).
Proof.
  intros Ht Hr. destruct slot as [i|]; simpl.
  - by apply Forall_insert.
  - apply Forall_app. auto.
Qed.

(** What the action branches do to the interaction row and the post. *)
Lemma post_action_row current_user post_id action json_faction now post i fs
    post' i' fs' active :
  post_action current_user post_id action json_faction now post i fs
    = Continue post' i' fs' active ->
  upi_user_id i' = upi_user_id i /\ upi_post_id i' = upi_post_id i
  /\ p_author_id post' = p_author_id post
  /\ (upi_liked i && upi_disliked i = false -> upi_liked i' && upi_disliked i' = false).
Proof.
  unfold post_action. destruct i as [u p [] [] f t]; simpl; intros H.
  all: repeat (case_bool_decide || case_match); simplify_eq; simpl; repeat split; auto.
Qed.

Lemma comment_action_row action comment i comment' i' active :
  comment_action action comment i = (comment', i', active) ->
  uci_user_id i' = uci_user_id i /\ uci_comment_id i' = uci_comment_id i
  /\ c_author_id comment' = c_author_id comment
  /\ (uci_liked i && uci_disliked i = false -> uci_liked i' && uci_disliked i' = false).
Proof.
  unfold comment_action. destruct i as [u c [] [] t]; simpl; intros H.
  all: repeat (case_bool_decide || case_match); simplify_eq; simpl; repeat split; auto.
Qed.

(** The row a handler works on: found by [.first()], or fresh. *)
Lemma found_post_interaction P user_id post_id (l : list UserPostInteraction) fresh :
  Forall P l -> P fresh ->
  P (default fresh (snd <$> find_post_interaction user_id post_id l)).
Proof.
  intros Hl Hf. unfold find_post_interaction.
  destruct (list_find _ l) as [[k i]|] eqn:Hfind; simpl; [|done].
  apply list_find_Some in Hfind as (Hk & _).
  by eapply Forall_lookup_1.
Qed.

Lemma found_comment_interaction P user_id comment_id
    (l : list UserCommentInteraction) fresh :
  Forall P l -> P fresh ->
  P (default fresh (snd <$> find_comment_interaction user_id comment_id l)).
Proof.
  intros Hl Hf. unfold find_comment_interaction.
  destruct (list_find _ l) as [[k i]|] eqn:Hfind; simpl; [|done].
  apply list_find_Some in Hfind as (Hk & _).
  by eapply Forall_lookup_1.
Qed.

Lemma insert_kept {A : Type} (m : gmap Z A) k v j :
  is_Some (m !! j) -> is_Some (<[k := v]> m !! j).
Proof.
  intros H. destruct (decide (k = j)) as [->|].
  - rewrite lookup_insert_eq. eauto.
  - by rewrite lookup_insert_ne.
Qed.

Lemma post_tables current_user form now post_id (d : db F) :
  let d' := (post current_user form now post_id d).2 in
  users d' = users d /\ post_interactions d' = post_interactions d
  /\ comment_interactions d' = comment_interactions d
  /\ post_factions d' = post_factions d.
Proof.
  unfold post. repeat case_match; simpl; auto.
Qed.

Lemma step_users_kept (d d' : db F) : step d d' -> users_kept d d'.
Proof.
  intros Hs k Hk. destruct Hs.
  - by apply insert_kept.
  - unfold new_post. destruct (users d !! current_user); simpl; [by apply insert_kept|done].
  - by destruct (post_tables current_user form now post_id d) as (-> & _).
  - destruct (post_interaction_commits current_user json_faction now post_id action d)
      as [->|(p & p' & i' & fs & a & us & _ & _ & -> & [->|(au & r & d1 & _ & _ & ->)])];
      simpl; auto using insert_kept.
  - destruct (comment_interaction_commits current_user now comment_id action d)
      as [->|(c & c' & i' & a & us & _ & _ & -> & [->|(au & r & d1 & _ & _ & ->)])];
      simpl; auto using insert_kept.
  - unfold choose_faction. repeat case_match; simpl; auto.
  - unfold init_user_scores.
    destruct (update_scores _ d) as [d1|] eqn:Hu; simpl; [|done].
    apply update_scores_tables in Hu as (_ & _ & _ & _ & _ & Hkept). auto.
Qed.

Lemma step_exclusive (d d' : db F) : step d d' -> exclusive d -> exclusive d'.
Proof.
  intros Hs [Hp Hc]. destruct Hs.
  - done.
  - unfold new_post. by destruct (users d !! current_user).
  - destruct (post_tables current_user form now post_id d) as (_ & Hpi & Hci & _).
    unfold exclusive. by rewrite Hpi, Hci.
  - destruct (post_interaction_commits current_user json_faction now post_id action d)
      as [->|(p & p' & i' & fs & a & us & _ & Ha & -> & _)]; [done|].
    split; simpl; [|done].
    apply post_action_row in Ha as (_ & _ & _ & Hx).
    apply Forall_save_row; [done|]. simpl. apply Hx.
    by apply (found_post_interaction (fun i => upi_liked i && upi_disliked i = false)).
  - destruct (comment_interaction_commits current_user now comment_id action d)
      as [->|(c & c' & i' & a & us & _ & Ha & -> & _)]; [done|].
    split; simpl; [done|].
    apply comment_action_row in Ha as (_ & _ & _ & Hx).
    apply Forall_save_row; [done|]. simpl. apply Hx.
    by apply (found_comment_interaction (fun i => uci_liked i && uci_disliked i = false)).
  - unfold choose_faction. repeat case_match; simpl; done.
  - unfold init_user_scores.
    destruct (update_scores _ d) as [d1|] eqn:Hu; simpl; [|done].
    apply update_scores_tables in Hu as (_ & _ & Hpi & Hci & _).
    unfold exclusive. by rewrite Hpi, Hci.
Qed.

Lemma reachable_exclusive (d : db F) : reachable d -> exclusive d.
Proof.
  induction 1 as [|d d' _ IH Hs]; [by split; constructor|].
  by eapply step_exclusive.
Qed.

Lemma voters_stored_kept (d d' : db F) :
  users_kept d d' ->
  post_interactions d' = post_interactions d ->
  comment_interactions d' = comment_interactions d ->
  voters_stored d -> voters_stored d'.
Proof.
  intros Hk Hpi Hci [Hp Hc]. unfold voters_stored. rewrite Hpi, Hci.
  split; eapply Forall_impl; eauto; simpl; auto.
Qed.

Lemma step_voters_stored (d d' : db F) : step d d' -> voters_stored d -> voters_stored d'.
Proof.
  intros Hs Hv. pose proof (step_users_kept _ _ Hs) as Hk.
  destruct Hv as [Hp Hc]. destruct Hs.
  - by apply (voters_stored_kept d).
  - apply (voters_stored_kept d); try done.
    all: unfold new_post; by destruct (users d !! current_user).
  - destruct (post_tables current_user form now post_id d) as (_ & Hpi & Hci & _).
    by apply (voters_stored_kept d).
  - destruct (post_interaction_commits current_user json_faction now post_id action d)
      as [Heq|(p & p' & i' & fs & a & us & _ & Ha & Heq & _)].
    { rewrite Heq. by split. }
    rewrite Heq in Hk |- *. split; simpl.
    + apply post_action_row in Ha as (Hu & _).
      apply Forall_save_row.
      * eapply Forall_impl; [exact Hp|]. simpl. intros i Hi. by apply (Hk _ Hi).
      * simpl. rewrite Hu. apply (Hk (upi_user_id _)).
        by apply (found_post_interaction (fun i => is_Some (users d !! upi_user_id i))).
    + eapply Forall_impl; [exact Hc|]. simpl. intros i Hi. by apply (Hk _ Hi).
  - destruct (comment_interaction_commits current_user now comment_id action d)
      as [Heq|(c & c' & i' & a & us & _ & Ha & Heq & _)].
    { rewrite Heq. by split. }
    rewrite Heq in Hk |- *. split; simpl.
    + eapply Forall_impl; [exact Hp|]. simpl. intros i Hi. by apply (Hk _ Hi).
    + apply comment_action_row in Ha as (Hu & _).
      apply Forall_save_row.
      * eapply Forall_impl; [exact Hc|]. simpl. intros i Hi. by apply (Hk _ Hi).
      * simpl. rewrite Hu. apply (Hk (uci_user_id _)).
        by apply (found_comment_interaction (fun i => is_Some (users d !! uci_user_id i))).
  - apply (voters_stored_kept d); try done.
    all: unfold choose_faction; repeat case_match; done.
  - apply (voters_stored_kept d); try done.
    all: unfold init_user_scores;
      destruct (update_scores _ d) as [d1|] eqn:Hu; simpl; [|done];
      by apply update_scores_tables in Hu as (_ & _ & Hpi & Hci & _).
Qed.

Lemma reachable_voters_stored (d : db F) : reachable d -> voters_stored d.
Proof.
  induction 1 as [|d d' _ IH Hs]; [by split; constructor|].
  by eapply step_voters_stored.
Qed.
End Invariants.

(** ** The score engine on exact rationals *)

Section Exact.
Local Open Scope Q_scope.

Lemma py_max_floor (x : Q) : 1 <= py_max x (of_Z 1).
Proof.
  unfold py_max. simpl. change (inject_Z 1) with 1.
  destruct (Qle_bool 1 x) eqn:H; simpl.
  - by apply Qle_bool_iff in H.
  - apply Qle_refl.
Qed.

Lemma py_max_above (s : Q) : 1 <= s -> py_max s (of_Z 1) = s.
Proof.
  intros H. unfold py_max. simpl.
  apply Qle_bool_iff in H. change (inject_Z 1) with 1. by rewrite H.
Qed.

Lemma py_or_above (s : Q) : 1 <= s -> py_or (Some s) (of_Z 1) = s.
Proof.
  intros H. unfold py_or. simpl.
  destruct (Qeq_bool s (inject_Z 0)) eqn:E; [|done].
  apply Qeq_bool_iff in E. change (inject_Z 0) with 0 in E. lra.
Qed.

Lemma Qmax_above (s : Q) : 1 <= s -> Qmax s 1 = s.
Proof.
  intros H. unfold Qmax, GenericMinMax.gmax.
  destruct (s ?= 1) eqn:E; try done.
  apply Qlt_alt in E. lra.
Qed.

Lemma py_max_Qmax (x : Q) : py_max x (of_Z 1) = Qmax x 1.
Proof.
  unfold py_max, Qmax, GenericMinMax.gmax. simpl. change (inject_Z 1) with 1.
  destruct (Qle_bool 1 x) eqn:H; simpl; destruct (x ?= 1) eqn:E; try done.
  - apply Qle_bool_iff in H. apply Qlt_alt in E. lra.
  - apply Qeq_alt in E. assert (1 <= x) as H' by lra.
    apply Qle_bool_iff in H'. congruence.
  - apply Qgt_alt in E. assert (1 <= x) as H' by lra.
    apply Qle_bool_iff in H'. congruence.
Qed.

(** With a stored score of at least 1 no weight divides by zero. *)
Lemma weight_defined (a s : Q) (k c : Z) :
  (0 < k)%Z -> (0 < c)%Z -> 1 <= s ->
  py_div a (mul (of_Z k) (add (of_Z 1) (quot (py_or (Some s) (of_Z 1)) (of_Z c))))
  = Ok (a / (inject_Z k * (1 + s / inject_Z c))).
Proof.
  intros Hk Hc Hs. rewrite py_or_above by done. unfold py_div. simpl.
  destruct (Qeq_bool _ _) eqn:E; [|done]. exfalso.
  apply Qeq_bool_iff in E. change (inject_Z 0) with 0 in E. change (inject_Z 1) with 1 in E.
  assert (0 < inject_Z k) as Hk' by (change 0 with (inject_Z 0); by rewrite <- Zlt_Qlt).
  assert (0 < inject_Z c) as Hc' by (change 0 with (inject_Z 0); by rewrite <- Zlt_Qlt).
  assert (0 < s / inject_Z c) as Hd by (apply Qlt_shift_div_l; lra).
  assert (0 < inject_Z k * (1 + s / inject_Z c)) as Hpos
    by (apply Qmult_lt_0_compat; lra).
  lra.
Qed.

Lemma stored_score_above (d : db Q) user_id u :
  scores_ok d -> users d !! user_id = Some u ->
  exists s, score u = Some s /\ 1 <= s /\ stored_score d user_id = s.
Proof.
  intros Hok Hu. destruct (Hok _ _ Hu) as (s & Hs & Hle).
  exists s. unfold stored_score. rewrite Hu, Hs. auto.
Qed.

(** The loop over post interactions computes the specification's fold. *)
Lemma score_post_interactions_reference (d : db Q) self_id s l acc :
  scores_ok d -> 1 <= s ->
  Forall (fun i => upi_liked i && upi_disliked i = false) l ->
  Forall (fun i => is_Some (users d !! upi_user_id i)) l ->
  score_post_interactions (Some s) (omap (join_post_interaction self_id d) l) acc
  = Ok (fold_left (apply_vote 500 10 20 s) (omap (post_vote d self_id) l) acc).
Proof.
  intros Hok Hs Hx Hv. revert acc.
  induction l as [|i l IH]; intros acc; [done|].
  apply Forall_cons in Hx as [Hxi Hx]. apply Forall_cons in Hv as [[voter Hvi] Hv].
  specialize (IH Hx Hv).
  destruct (stored_score_above d _ _ Hok Hvi) as (vs & Hvs & Hle & Hst).
  cbn [omap list_omap]. unfold join_post_interaction at 1, post_vote at 1.
  rewrite Hvi, Hst. cbn [mbind option_bind].
  destruct (posts d !! upi_post_id i) as [p|]; cbn [mbind option_bind]; [|apply IH].
  case_bool_decide; [|apply IH].
  cbn [score_post_interactions fold_left]. unfold apply_vote at 2. cbn [liked disliked voter_score].
  rewrite Hvs.
  destruct (upi_liked i), (upi_disliked i); try discriminate.
  - rewrite (py_or_above vs), py_max_above, weight_defined by (done || lia).
    cbn [mbind result_bind]. rewrite IH. by rewrite !Qmax_above by done.
  - rewrite (py_or_above vs), py_max_above, weight_defined by (done || lia).
    cbn [mbind result_bind]. rewrite IH. by rewrite !Qmax_above by done.
  - apply IH.
Qed.

Lemma score_comment_interactions_reference (d : db Q) self_id s l acc :
  scores_ok d -> 1 <= s ->
  Forall (fun i => uci_liked i && uci_disliked i = false) l ->
  Forall (fun i => is_Some (users d !! uci_user_id i)) l ->
  score_comment_interactions (Some s) (omap (join_comment_interaction self_id d) l) acc
  = Ok (fold_left (apply_vote 100 5 10 s) (omap (comment_vote d self_id) l) acc).
Proof.
  intros Hok Hs Hx Hv. revert acc.
  induction l as [|i l IH]; intros acc; [done|].
  apply Forall_cons in Hx as [Hxi Hx]. apply Forall_cons in Hv as [[voter Hvi] Hv].
  specialize (IH Hx Hv).
  destruct (stored_score_above d _ _ Hok Hvi) as (vs & Hvs & Hle & Hst).
  cbn [omap list_omap]. unfold join_comment_interaction at 1, comment_vote at 1.
  rewrite Hvi, Hst. cbn [mbind option_bind].
  destruct (comments d !! uci_comment_id i) as [c|]; cbn [mbind option_bind]; [|apply IH].
  case_bool_decide; [|apply IH].
  cbn [score_comment_interactions fold_left]. unfold apply_vote at 2.
  cbn [liked disliked voter_score]. rewrite Hvs.
  destruct (uci_liked i), (uci_disliked i); try discriminate.
  - rewrite (py_or_above vs), py_max_above, weight_defined by (done || lia).
    cbn [mbind result_bind]. rewrite IH. by rewrite !Qmax_above by done.
  - rewrite (py_or_above vs), py_max_above, weight_defined by (done || lia).
    cbn [mbind result_bind]. rewrite IH. by rewrite !Qmax_above by done.
  - apply IH.
Qed.

(** On a database that satisfies the invariants, [update_score] succeeds
    and stores and returns the value of the reference algorithm. *)
Lemma update_score_reference (d : db Q) self_id self :
  scores_ok d -> exclusive d -> voters_stored d ->
  users d !! self_id = Some self ->
  update_score self_id self d
  = Ok (recompute d self_id,
        set_users d (<[self_id := set_score self (Some (recompute d self_id))]> (users d))).
Proof.
  intros Hok [Hxp Hxc] [Hvp Hvc] Hu.
  destruct (stored_score_above d _ _ Hok Hu) as (s & Hs & Hle & Hst).
  unfold update_score, recompute, post_interactions_of, comment_interactions_of,
    post_votes, comment_votes.
  rewrite Hs, Hst.
  rewrite score_post_interactions_reference by done. cbn [mbind result_bind].
  rewrite score_comment_interactions_reference by done. cbn [mbind result_bind].
  by rewrite py_max_Qmax.
Qed.

(** Whatever the database, a value returned by [update_score] is at least 1. *)
Lemma update_score_floor (d d' : db Q) self_id self r :
  update_score self_id self d = Ok (r, d') -> 1 <= r.
Proof.
  unfold update_score. intros H.
  destruct (score_post_interactions _ _ _) as [s1|];
    cbn [mbind result_bind] in H; [|discriminate].
  destruct (score_comment_interactions _ _ _) as [s2|];
    cbn [mbind result_bind] in H; [|discriminate].
  inversion H; subst. apply py_max_floor.
Qed.

Lemma scores_ok_insert (d : db Q) k u us :
  scores_ok d -> us = <[k := u]> (users d) ->
  (exists s, score u = Some s /\ 1 <= s) ->
  map_Forall (fun _ u => exists s, score u = Some s /\ 1 <= s) us.
Proof. intros Hok -> Hu. by apply map_Forall_insert_2. Qed.

Lemma update_scores_ok ids (d d' : db Q) :
  update_scores ids d = Ok d' -> scores_ok d -> scores_ok d'.
Proof.
  revert d. induction ids as [|i ids IH]; intros d H Hok; cbn [update_scores] in H.
  - by inversion H; subst.
  - destruct (users d !! i) as [u|] eqn:Hu; [|by eapply IH].
    destruct (update_score i u d) as [[r d1]|] eqn:Hs; [|discriminate].
    eapply IH; [exact H|].
    pose proof (update_score_floor _ _ _ _ _ Hs) as Hr.
    apply update_score_writes in Hs. subst d1.
    eapply scores_ok_insert; eauto; simpl; eauto.
Qed.

Lemma step_scores_ok (d d' : db Q) : step d d' -> scores_ok d -> scores_ok d'.
Proof.
  intros Hs Hok. destruct Hs.
  - eapply scores_ok_insert; eauto; exists 1; split; [done|apply Qle_refl].
  - unfold new_post. destruct (users d !! current_user) as [u|] eqn:Hu; [|done].
    eapply scores_ok_insert; eauto; simpl; by apply (Hok _ _ Hu).
  - unfold scores_ok. by destruct (post_tables current_user form now post_id d) as (-> & _).
  - destruct (post_interaction_commits current_user json_faction now post_id action d)
      as [->|(p & p' & i' & fs & a & us & _ & _ & -> & [->|(au & r & d1 & _ & Hu & ->)])];
      [done..|].
    apply update_score_floor in Hu. eapply scores_ok_insert; eauto; simpl; eauto.
  - destruct (comment_interaction_commits current_user now comment_id action d)
      as [->|(c & c' & i' & a & us & _ & _ & -> & [->|(au & r & d1 & _ & Hu & ->)])];
      [done..|].
    apply update_score_floor in Hu. eapply scores_ok_insert; eauto; simpl; eauto.
  - unfold choose_faction. repeat case_match; done.
  - unfold init_user_scores.
    destruct (update_scores _ d) as [d1|] eqn:Hu; simpl; [|done].
    by eapply update_scores_ok.
Qed.

Lemma reachable_scores_ok (d : db Q) : reachable d -> scores_ok d.
Proof.
  induction 1 as [|d d' _ IH Hs]; [apply map_Forall_empty|].
  by eapply step_scores_ok.
Qed.
End Exact.

(** ** The run is reachable *)

Section RunReachable.
Context {F : Type} {PN : PyNum F}.

Lemma reachable_db_posted : reachable (db_posted (F := F)).
Proof.
  unfold db_posted.
  eapply reachable_step; [eapply reachable_step; [eapply reachable_step|] |];
    [apply reachable_empty | apply step_register | apply step_register |].
  apply step_new_post. eexists. vm_compute. reflexivity.
Qed.

Lemma reachable_db_liked : reachable (db_liked (F := F)).
Proof.
  eapply reachable_step; [apply reachable_db_posted|].
  apply step_post_interaction. eexists. vm_compute. reflexivity.
Qed.

Lemma reachable_db_disliked : reachable (db_disliked (F := F)).
Proof.
  eapply reachable_step; [apply reachable_db_posted|].
  apply step_post_interaction. eexists. vm_compute. reflexivity.
Qed.
End RunReachable.

(** ** Claims on the score engine *)


(** C1. In every reachable database and for every stored user,
    [update_score] succeeds, returns exactly the value of the reference
    algorithm [recompute] (computed with the user's score stored at entry in
    the denominators) and stores that value as the user's score. *)
Theorem update_score_is_recompute (d : db Q) (user_id : Z) (user : UserModel Q) :
  reachable d ->
  users d !! user_id = Some user ->
  update_score user_id user d
  = Ok (recompute d user_id,
        set_users d (<[user_id := set_score user (Some (recompute d user_id))]> (users d))).
Proof.
  intros Hr Hu. apply update_score_reference; try done.
  - by apply reachable_scores_ok.
  - by apply reachable_exclusive.
  - by apply reachable_voters_stored.
Qed.

Lemma update_score_is_recompute_witness :
  update_score 2 {| score := Some (5510 # 5500)%Q; post_count := 1 |} db_liked
  = Ok (recompute db_liked 2,
        set_users db_liked
          (<[2 := set_score {| score := Some (5510 # 5500)%Q; post_count := 1 |}
                            (Some (recompute db_liked 2))]> (users db_liked))).
Proof.
  apply update_score_is_recompute; [apply reachable_db_liked | reflexivity].
Defined.

(** The first scenario of the specification: A (score 1) likes a post of B
    (score 1), and B's score becomes 1 + 1/(500 * 1.1) = 551/550. *)
Example like_scenario :
  (score <$> users db_posted !! 2 = Some (Some 1%Q))
  /\ (score <$> users db_liked !! 2 = Some (Some (5510 # 5500)%Q))
  /\ (5510 # 5500 == 1 + 1 / (500 * (1 + 1 / 10)))%Q.
Proof. repeat split. Qed.

(** C2. In every reachable database the stored score of every user is at
    least 1: a new user is stored with score 1, and [update_score] succeeds,
    returns and stores the maximum of 1 and the sum that its two loops
    compute from 1 (the sum of the reference algorithm), a value of at
    least 1. *)
Theorem score_floor (d : db Q) (user_id : Z) (user : UserModel Q) :
  reachable d ->
  users d !! user_id = Some user ->
  (exists s, score user = Some s /\ (1 <= s)%Q)
  /\ (exists sum1 sum r d',
        score_post_interactions (score user) (post_interactions_of user_id d) (of_Z 1)
        = Ok sum1
        /\ score_comment_interactions (score user) (comment_interactions_of user_id d) sum1
           = Ok sum
        /\ sum = fold_left (apply_vote 100 5 10 (stored_score d user_id))
                   (comment_votes d user_id)
                   (fold_left (apply_vote 500 10 20 (stored_score d user_id))
                      (post_votes d user_id) 1%Q)
        /\ r = Qmax sum 1
        /\ update_score user_id user d = Ok (r, d')
        /\ (1 <= r)%Q
        /\ score <$> users d' !! user_id = Some (Some r))
  /\ score <$> users (register d) !! next_id (users d) = Some (Some 1%Q).
Proof.
  intros Hr Hu. split; [|split].
  - by apply (reachable_scores_ok d Hr user_id).
  - pose proof (reachable_scores_ok d Hr) as Hok.
    destruct (reachable_exclusive d Hr) as [Hxp Hxc].
    destruct (reachable_voters_stored d Hr) as [Hvp Hvc].
    destruct (stored_score_above d _ _ Hok Hu) as (s & Hs & Hle & Hst).
    rewrite Hs, Hst.
    eexists _, _, _, _. split.
    { unfold post_interactions_of. by apply score_post_interactions_reference. }
    split.
    { unfold comment_interactions_of. by apply score_comment_interactions_reference. }
    split; [reflexivity|]. split; [reflexivity|].
    pose proof (update_score_reference d user_id user Hok (conj Hxp Hxc) (conj Hvp Hvc) Hu)
      as Hup.
    unfold recompute in Hup. rewrite Hst in Hup.
    split; [exact Hup|]. split.
    + by eapply update_score_floor.
    + simpl. by rewrite lookup_insert_eq.
  - unfold register. simpl. by rewrite lookup_insert_eq.
Qed.

Lemma score_floor_witness :
  (exists s, Some (5510 # 5500)%Q = Some s /\ (1 <= s)%Q)
  /\ (exists sum1 sum r d',
        score_post_interactions (Some (5510 # 5500)%Q)
          (post_interactions_of 2 (db_liked (F := Q))) (of_Z 1) = Ok sum1
        /\ score_comment_interactions (Some (5510 # 5500)%Q)
             (comment_interactions_of 2 (db_liked (F := Q))) sum1 = Ok sum
        /\ r = Qmax sum 1
        /\ update_score 2 {| score := Some (5510 # 5500)%Q; post_count := 1 |} db_liked
           = Ok (r, d')
        /\ (1 < sum)%Q /\ (1 < r)%Q
        /\ score <$> users d' !! 2 = Some (Some r))
  /\ score <$> users (register db_liked) !! next_id (users (db_liked (F := Q)))
     = Some (Some 1%Q).
Proof.
  destruct (score_floor db_liked 2 {| score := Some (5510 # 5500)%Q; post_count := 1 |}
              reachable_db_liked eq_refl)
    as (H1 & (sum1 & sum & r & d' & Hp & Hc & _ & Hmax & Hup & Hle & Hst) & H3).
  split; [exact H1|]. split; [|exact H3].
  exists sum1, sum, r, d'. simpl in Hp, Hc.
  assert (1 < sum)%Q as Hsum.
  { vm_compute in Hp. injection Hp as <-. vm_compute in Hc. injection Hc as <-.
    reflexivity. }
  split_and!; try assumption.
  rewrite Hmax, Qmax_above; [exact Hsum|]. by apply Qlt_le_weak.
Defined.

(** The second scenario of the specification: A (score 10) dislikes a
    comment of B (score 1); the sum 1 - 10/(100 * 1.1) is below the floor and
    B's score stays 1. *)
Example dislike_scenario :
  let d := set_users db_commented
             (<[2 := {| score := Some 10%Q; post_count := 1 |}]> (users db_commented)) in
  let d' := (comment_interaction 2 70 1 "dislike" d).2 in
  comments d !! 1
  = Some {| c_content := "first"; c_author_id := 1; c_post_id := 1;
            c_like_count := 0; c_dislike_count := 0; c_faction := "neutral" |}
  /\ score <$> users d !! 1 = Some (Some 1%Q)
  /\ comment_interactions d'
     = [{| uci_user_id := 2; uci_comment_id := 1; uci_liked := false;
           uci_disliked := true; uci_interacted_at := 70 |}]
  /\ score <$> users d' !! 1 = Some (Some 1%Q).
Proof. repeat split. Qed.


(** The same two calls on IEEE doubles: 1.001817881341927, then
    1.0018178813915761. *)
Example update_score_twice_differs_float :
  (r1 ← update_score_of 2 (db_liked (F := float));
   r2 ← update_score_of 2 r1.2;
   Ok (r1.1, r2.1))
  = Ok (Some 0x1.007722fce95dap+0%float, Some 0x1.007722fd1ff4ap+0%float).
Proof. vm_compute. reflexivity. Qed.

(** The two calls in [db_stale] on IEEE doubles: 1.4160887656033287, then
    1.3896454820579334. *)
Example update_score_twice_stale_float :
  (r1 ← update_score_of 1 (db_stale (F := float));
   r2 ← update_score_of 1 r1.2;
   Ok (r1.1, r2.1))
  = Ok (Some 0x1.6a84cb187fd29p+0%float, Some 0x1.63bfce6a79152p+0%float).
Proof. vm_compute. reflexivity. Qed.



(** ** Claims on the like/dislike state machine *)

(** C4. In every reachable database no PostInteraction and no
    CommentInteraction record is liked and disliked at once. *)
Theorem liked_disliked_exclusive {F : Type} {PN : PyNum F} (d : db F) :
  reachable d ->
  (forall i, i ∈ post_interactions d -> ~ (upi_liked i = true /\ upi_disliked i = true))
  /\ (forall i, i ∈ comment_interactions d ->
        ~ (uci_liked i = true /\ uci_disliked i = true)).
Proof.
  intros Hr. destruct (reachable_exclusive d Hr) as [Hp Hc].
  rewrite Forall_forall in Hp. rewrite Forall_forall in Hc.
  split; intros i Hi [Hl Hd].
  - specialize (Hp i Hi). rewrite Hl, Hd in Hp. discriminate.
  - specialize (Hc i Hi). rewrite Hl, Hd in Hc. discriminate.
Qed.

Lemma liked_disliked_exclusive_witness :
  (forall i, i ∈ post_interactions (db_liked (F := Q)) ->
     ~ (upi_liked i = true /\ upi_disliked i = true))
  /\ (forall i, i ∈ comment_interactions (db_liked (F := Q)) ->
        ~ (uci_liked i = true /\ uci_disliked i = true)).
Proof. apply liked_disliked_exclusive, reachable_db_liked. Defined.

(** The row written back by a handler is the one [.first()] finds next. *)
Lemma list_find_save_row {A : Type} (P : A -> Prop) `{!forall x, Decision (P x)}
    (l : list A) (row : A) :
  P row ->
  exists k, list_find P (save_row (fst <$> list_find P l) row l) = Some (k, row).
Proof.
  intros Hrow. destruct (list_find P l) as [[k x]|] eqn:Hfind; simpl.
  - exists k. apply list_find_insert_Some. right; left.
    apply list_find_Some in Hfind as (Hk & _ & Hmin).
    repeat split; eauto using lookup_lt_Some.
  - exists (length l). rewrite list_find_app_r by done. simpl.
    by rewrite decide_True.
Qed.

(** With a stored score of at least 1 both loops of [update_score] run to
    the end, whatever the rows. *)
Lemma score_post_interactions_defined (s : Q) rows acc :
  (1 <= s)%Q -> exists r, score_post_interactions (Some s) rows acc = Ok r.
Proof.
  intros Hs. revert acc. induction rows as [|[i u] rows IH]; intros acc; [by eexists|].
  cbn [score_post_interactions].
  destruct (upi_liked i); [|destruct (upi_disliked i)];
    rewrite ?weight_defined by (done || lia); cbn [mbind result_bind]; apply IH.
Qed.

Lemma score_comment_interactions_defined (s : Q) rows acc :
  (1 <= s)%Q -> exists r, score_comment_interactions (Some s) rows acc = Ok r.
Proof.
  intros Hs. revert acc. induction rows as [|[i u] rows IH]; intros acc; [by eexists|].
  cbn [score_comment_interactions].
  destruct (uci_liked i); [|destruct (uci_disliked i)];
    rewrite ?weight_defined by (done || lia); cbn [mbind result_bind]; apply IH.
Qed.

Lemma update_score_defined (d : db Q) self_id self s :
  score self = Some s -> (1 <= s)%Q ->
  exists r, update_score self_id self d
            = Ok (r, set_users d (<[self_id := set_score self (Some r)]> (users d))).
Proof.
  intros Hsc Hs. unfold update_score. rewrite Hsc.
  destruct (score_post_interactions_defined s (post_interactions_of self_id d)
              (of_Z 1) Hs) as [r1 ->].
  cbn [mbind result_bind].
  destruct (score_comment_interactions_defined s (comment_interactions_of self_id d)
              r1 Hs) as [r2 ->].
  cbn [mbind result_bind]. by eexists.
Qed.

(** When stored scores are at least 1, a request of [post_interaction] that
    gets past the action branches answers with [response_data] and commits
    the mutated post, interaction row and faction table. *)
Lemma post_interaction_continue (d : db Q) current_user json_faction now post_id action
    post post' interaction' factions active :
  let found := find_post_interaction current_user post_id (post_interactions d) in
  let interaction :=
    default {| upi_user_id := current_user; upi_post_id := post_id;
               upi_liked := false; upi_disliked := false; upi_favorited := false;
               upi_interacted_at := now |} (snd <$> found) in
  scores_ok d ->
  posts d !! post_id = Some post ->
  post_action current_user post_id action json_faction now post interaction
              (post_factions d) = Continue post' interaction' factions active ->
  exists us,
    post_interaction current_user json_faction now post_id action d
    = (Ok (ResponseData action active (post_count_attr action post')),
       {| users := us; posts := <[post_id := post']> (posts d);
          comments := comments d;
          post_interactions :=
            save_row (fst <$> found) (set_interacted_at interaction' now)
                     (post_interactions d);
          comment_interactions := comment_interactions d;
          post_factions := factions |}).
Proof.
  intros found interaction Hok Hp Ha. unfold post_interaction. rewrite Hp.
  fold found. fold interaction. rewrite Ha.
  destruct (_ && _); [|by eexists].
  cbn [users set_post_factions set_post_interactions set_posts].
  destruct (users d !! p_author_id post') as [author|] eqn:Hau; [|by eexists].
  destruct (Hok _ _ Hau) as (s & Hsc & Hs).
  edestruct (update_score_defined) as [r ->]; [exact Hsc|exact Hs|].
  by eexists.
Qed.

Lemma comment_interaction_continue (d : db Q) current_user now comment_id action
    comment comment' interaction' active :
  let found :=
    find_comment_interaction current_user comment_id (comment_interactions d) in
  let interaction :=
    default {| uci_user_id := current_user; uci_comment_id := comment_id;
               uci_liked := false; uci_disliked := false;
               uci_interacted_at := now |} (snd <$> found) in
  scores_ok d ->
  comments d !! comment_id = Some comment ->
  comment_action action comment interaction = (comment', interaction', active) ->
  exists us,
    comment_interaction current_user now comment_id action d
    = (comment_response action active comment',
       {| users := us; posts := posts d;
          comments := <[comment_id := comment']> (comments d);
          post_interactions := post_interactions d;
          comment_interactions :=
            save_row (fst <$> found) (set_c_interacted_at interaction' now)
                     (comment_interactions d);
          post_factions := post_factions d |}).
Proof.
  intros found interaction Hok Hp Ha. unfold comment_interaction. rewrite Hp.
  fold found. fold interaction. rewrite Ha.
  destruct (_ && _); [|by eexists].
  cbn [users set_comment_interactions set_comments].
  destruct (users d !! c_author_id comment') as [author|] eqn:Hau; [|by eexists].
  destruct (Hok _ _ Hau) as (s & Hsc & Hs).
  edestruct (update_score_defined) as [r ->]; [exact Hsc|exact Hs|].
  by eexists.
Qed.

(** The action branches of the two handlers follow the specified
    transition. *)
Lemma post_action_vote current_user post_id action json_faction now post i fs :
  action = "like" \/ action = "dislike" ->
  let s := {| vs_liked := upi_liked i; vs_disliked := upi_disliked i;
              vs_like_count := p_like_count post;
              vs_dislike_count := p_dislike_count post |} in
  exists post' i',
    post_action current_user post_id action json_faction now post i fs
    = Continue post' i' fs (apply_action action s).2
    /\ {| vs_liked := upi_liked i'; vs_disliked := upi_disliked i';
          vs_like_count := p_like_count post';
          vs_dislike_count := p_dislike_count post' |} = (apply_action action s).1
    /\ post_count_attr action post' = reported_count action (apply_action action s).1.
Proof.
  intros [-> | ->]; destruct i as [u p [] [] f t]; simpl;
    eexists _, _; (split; [reflexivity|]); split; reflexivity.
Qed.

Lemma comment_action_vote action comment i :
  action = "like" \/ action = "dislike" ->
  let s := {| vs_liked := uci_liked i; vs_disliked := uci_disliked i;
              vs_like_count := c_like_count comment;
              vs_dislike_count := c_dislike_count comment |} in
  exists comment' i',
    comment_action action comment i = (comment', i', Some (apply_action action s).2)
    /\ {| vs_liked := uci_liked i'; vs_disliked := uci_disliked i';
          vs_like_count := c_like_count comment';
          vs_dislike_count := c_dislike_count comment' |} = (apply_action action s).1
    /\ comment_count_attr action comment'
       = Some (reported_count action (apply_action action s).1).
Proof.
  intros [-> | ->]; destruct i as [u c [] [] t]; simpl;
    eexists _, _; (split; [reflexivity|]); split; reflexivity.
Qed.

(** C5. In a reachable database, a like or dislike request on an existing
    post or comment answers with the [active] flag and the count of the
    specified transition ([apply_like], [apply_dislike]) and leaves the
    actor's record and the target's counts in the state that transition
    gives.  In particular a dislike applied while liked is set leaves
    liked cleared, disliked set, like_count decremented and dislike_count
    incremented. *)
Theorem vote_transition (d : db Q) (actor : Z) (json_faction : option string)
    (now target : Z) (action : string) (s : vote_state) :
  reachable d ->
  action = "like" \/ action = "dislike" ->
  (post_vote_state d actor target = Some s ->
   let out := post_interaction actor json_faction now target action d in
   out.1 = Ok (ResponseData action (apply_action action s).2
                 (reported_count action (apply_action action s).1))
   /\ post_vote_state out.2 actor target = Some (apply_action action s).1
   /\ (action = "dislike" -> vs_liked s = true ->
       (apply_action action s).1
       = {| vs_liked := false; vs_disliked := true;
            vs_like_count := vs_like_count s - 1;
            vs_dislike_count := vs_dislike_count s + 1 |}))
  /\ (comment_vote_state d actor target = Some s ->
      let out := comment_interaction actor now target action d in
      out.1 = Ok (ResponseData action (apply_action action s).2
                    (reported_count action (apply_action action s).1))
      /\ comment_vote_state out.2 actor target = Some (apply_action action s).1
      /\ (action = "dislike" -> vs_liked s = true ->
          (apply_action action s).1
          = {| vs_liked := false; vs_disliked := true;
               vs_like_count := vs_like_count s - 1;
               vs_dislike_count := vs_dislike_count s + 1 |})).
Proof.
  intros Hr Hact. pose proof (reachable_scores_ok d Hr) as Hok.
  destruct (reachable_exclusive d Hr) as [Hxp Hxc]. split.
  - intros Hs out. unfold post_vote_state in Hs.
    destruct (posts d !! target) as [post|] eqn:Hp; [|discriminate].
    cbn [mbind option_bind] in Hs.
    set (found := find_post_interaction actor target (post_interactions d)) in *.
    set (interaction :=
           default {| upi_user_id := actor; upi_post_id := target;
                      upi_liked := false; upi_disliked := false; upi_favorited := false;
                      upi_interacted_at := now |} (snd <$> found)).
    assert (s = {| vs_liked := upi_liked interaction;
                   vs_disliked := upi_disliked interaction;
                   vs_like_count := p_like_count post;
                   vs_dislike_count := p_dislike_count post |}) as Hs'.
    { subst interaction. destruct found as [[k i]|]; simpl in *; congruence. }
    assert (upi_user_id interaction = actor /\ upi_post_id interaction = target) as Hkey.
    { subst interaction found. unfold find_post_interaction.
      destruct (list_find _ _) as [[k i]|] eqn:Hf; simpl; [|done].
      by apply list_find_Some in Hf as (_ & Hk & _). }
    assert (upi_liked interaction && upi_disliked interaction = false) as Hx
      by (by apply (found_post_interaction
                      (fun i => upi_liked i && upi_disliked i = false))).
    destruct (post_action_vote actor target action json_faction now post interaction
                (post_factions d) Hact) as (post' & i' & Ha & Hst & Hcount).
    rewrite <- Hs' in Ha, Hst, Hcount.
    destruct (post_interaction_continue d actor json_faction now target action
                post post' i' _ _ Hok Hp Ha) as [us Hout].
    subst out. rewrite Hout. cbn [fst snd]. split; [by rewrite Hcount|]. split.
    + unfold post_vote_state. cbn [posts post_interactions].
      rewrite lookup_insert_eq. cbn [mbind option_bind].
      apply post_action_row in Ha as (Hu & Hpid & _).
      destruct (list_find_save_row
                  (fun i => upi_user_id i = actor /\ upi_post_id i = target)
                  (post_interactions d) (set_interacted_at i' now)) as [k Hk].
      { simpl. rewrite Hu, Hpid. exact Hkey. }
      change (find_post_interaction actor target
                (save_row
                   (fst <$> find_post_interaction actor target (post_interactions d))
                   (set_interacted_at i' now) (post_interactions d))
              = Some (k, set_interacted_at i' now)) in Hk.
      rewrite Hk. simpl. by rewrite <- Hst.
    + intros -> Hl. rewrite Hs' in Hl |- *. simpl in Hl. rewrite Hl in Hx.
      simpl in Hx. unfold apply_action, apply_dislike. simpl. by rewrite Hx, Hl.
  - intros Hs out. unfold comment_vote_state in Hs.
    destruct (comments d !! target) as [comment|] eqn:Hp; [|discriminate].
    cbn [mbind option_bind] in Hs.
    set (found := find_comment_interaction actor target (comment_interactions d)) in *.
    set (interaction :=
           default {| uci_user_id := actor; uci_comment_id := target;
                      uci_liked := false; uci_disliked := false;
                      uci_interacted_at := now |} (snd <$> found)).
    assert (s = {| vs_liked := uci_liked interaction;
                   vs_disliked := uci_disliked interaction;
                   vs_like_count := c_like_count comment;
                   vs_dislike_count := c_dislike_count comment |}) as Hs'.
    { subst interaction. destruct found as [[k i]|]; simpl in *; congruence. }
    assert (uci_user_id interaction = actor /\ uci_comment_id interaction = target)
      as Hkey.
    { subst interaction found. unfold find_comment_interaction.
      destruct (list_find _ _) as [[k i]|] eqn:Hf; simpl; [|done].
      by apply list_find_Some in Hf as (_ & Hk & _). }
    assert (uci_liked interaction && uci_disliked interaction = false) as Hx
      by (by apply (found_comment_interaction
                      (fun i => uci_liked i && uci_disliked i = false))).
    destruct (comment_action_vote action comment interaction Hact)
      as (comment' & i' & Ha & Hst & Hcount).
    rewrite <- Hs' in Ha, Hst, Hcount.
    destruct (comment_interaction_continue d actor now target action
                comment comment' i' _ Hok Hp Ha) as [us Hout].
    subst out. rewrite Hout. cbn [fst snd]. split.
    { unfold comment_response. by rewrite Hcount. }
    split.
    + unfold comment_vote_state. cbn [comments comment_interactions].
      rewrite lookup_insert_eq. cbn [mbind option_bind].
      apply comment_action_row in Ha as (Hu & Hpid & _).
      destruct (list_find_save_row
                  (fun i => uci_user_id i = actor /\ uci_comment_id i = target)
                  (comment_interactions d) (set_c_interacted_at i' now)) as [k Hk].
      { simpl. rewrite Hu, Hpid. exact Hkey. }
      change (find_comment_interaction actor target
                (save_row
                   (fst <$> find_comment_interaction actor target
                              (comment_interactions d))
                   (set_c_interacted_at i' now) (comment_interactions d))
              = Some (k, set_c_interacted_at i' now)) in Hk.
      rewrite Hk. simpl. by rewrite <- Hst.
    + intros -> Hl. rewrite Hs' in Hl |- *. simpl in Hl. rewrite Hl in Hx.
      simpl in Hx. unfold apply_action, apply_dislike. simpl. by rewrite Hx, Hl.
Qed.

Lemma reachable_db_commented {F : Type} {PN : PyNum F} : reachable (db_commented (F := F)).
Proof.
  eapply reachable_step; [apply reachable_db_posted|].
  apply step_post. intros u [= <-]. eexists. vm_compute. reflexivity.
Qed.

Lemma reachable_db_pro {F : Type} {PN : PyNum F} : reachable (db_pro (F := F)).
Proof.
  eapply reachable_step; [apply reachable_db_posted|].
  apply step_choose_faction. eexists. vm_compute. reflexivity.
Qed.

Lemma vote_transition_witness :
  (let out := post_interaction 1 None 200 1 "dislike" (db_liked (F := Q)) in
   out.1 = Ok (ResponseData "dislike" true 1)
   /\ post_vote_state out.2 1 1
      = Some {| vs_liked := false; vs_disliked := true;
                vs_like_count := 0; vs_dislike_count := 1 |})
  /\ (let out := comment_interaction 2 200 1 "like" (db_commented (F := Q)) in
      out.1 = Ok (ResponseData "like" true 1)
      /\ comment_vote_state out.2 2 1
         = Some {| vs_liked := true; vs_disliked := false;
                   vs_like_count := 1; vs_dislike_count := 0 |}).
Proof.
  split.
  - destruct (vote_transition db_liked 1 None 200 1 "dislike"
                {| vs_liked := true; vs_disliked := false;
                   vs_like_count := 1; vs_dislike_count := 0 |}
                reachable_db_liked (or_intror eq_refl)) as [Hpost _].
    destruct (Hpost eq_refl) as (Hresp & Hstate & _). split; [exact Hresp|exact Hstate].
  - destruct (vote_transition db_commented 2 None 200 1 "like"
                {| vs_liked := false; vs_disliked := false;
                   vs_like_count := 0; vs_dislike_count := 0 |}
                reachable_db_commented (or_introl eq_refl)) as [_ Hcomment].
    destruct (Hcomment eq_refl) as (Hresp & Hstate & _). split; [exact Hresp|exact Hstate].
Defined.

(** Liking twice returns to the inactive state and the original count. *)
Example like_twice :
  let out1 := post_interaction 1 None 100 1 "like" (db_posted (F := Q)) in
  let out2 := post_interaction 1 None 101 1 "like" out1.2 in
  out1.1 = Ok (ResponseData "like" true 1)
  /\ out2.1 = Ok (ResponseData "like" false 0)
  /\ post_vote_state out2.2 1 1 = post_vote_state (db_posted (F := Q)) 1 1.
Proof. repeat split. Qed.

(** ** Claims on the faction rules *)

(** C6 as stated fails: with a faction row in place, a request for a faction
    outside pro/anti is turned down as an invalid faction, not as already
    chosen. *)
Lemma choose_faction_checks_faction_first :
  faction_of (db_pro (F := Q)) 1 1 = Some "pro"
  /\ choose_faction 1 80 1 "neutral" (db_pro (F := Q))
     = (Ok (Redirect InvalidFaction), db_pro)
  /\ (choose_faction 1 80 1 "neutral" (db_pro (F := Q))).1 <> Ok (Redirect AlreadyChosen).
Proof. repeat split. discriminate. Qed.

(** C6, amended.  A request for a faction outside pro/anti is turned down as
    invalid.  For pro or anti: if the user has a faction row on the post,
    whatever its faction, the request is turned down as already chosen; if
    there is none, a row with the requested faction is appended.  A request
    that is turned down leaves the database unchanged. *)
Theorem choose_faction_once {F : Type} (d : db F) (actor now post_id : Z)
    (faction : string) :
  let out := choose_faction actor now post_id faction d in
  let row := {| upf_user_id := actor; upf_post_id := post_id;
                upf_faction := faction; upf_created_at := now |} in
  (faction ∉ ["pro"; "anti"] -> out = (Ok (Redirect InvalidFaction), d))
  /\ (faction ∈ ["pro"; "anti"] -> is_Some (faction_of d actor post_id) ->
      out = (Ok (Redirect AlreadyChosen), d))
  /\ (faction ∈ ["pro"; "anti"] -> faction_of d actor post_id = None ->
      out = (Ok (Redirect (Joined faction)),
             set_post_factions d (post_factions d ++ [row]))
      /\ faction_of out.2 actor post_id = Some faction).
Proof.
  intros out row. subst out. unfold choose_faction, faction_of.
  split; [|split].
  - intros Hf. by rewrite bool_decide_eq_false_2.
  - intros Hf [f Hrow]. rewrite bool_decide_eq_true_2 by done.
    by destruct (find_post_faction _ _ _).
  - intros Hf Hnone. rewrite bool_decide_eq_true_2 by done.
    destruct (find_post_faction actor post_id (post_factions d)) eqn:Hfind;
      [discriminate|].
    split; [done|]. cbn [snd post_factions set_post_factions].
    unfold find_post_faction in *. rewrite list_find_app_r by done.
    simpl. by rewrite decide_True.
Qed.

Lemma choose_faction_once_witness :
  choose_faction 1 51 1 "anti" (db_pro (F := Q)) = (Ok (Redirect AlreadyChosen), db_pro).
Proof.
  destruct (choose_faction_once (db_pro (F := Q)) 1 51 1 "anti") as (_ & Hchosen & _).
  apply Hchosen.
  - apply elem_of_cons. right. apply elem_of_cons. by left.
  - by exists "pro".
Defined.

Example choose_faction_twice :
  let out1 := choose_faction 1 50 1 "pro" (db_posted (F := Q)) in
  let out2 := choose_faction 1 51 1 "anti" out1.2 in
  out1.1 = Ok (Redirect (Joined "pro"))
  /\ out2 = (Ok (Redirect AlreadyChosen), out1.2)
  /\ faction_of out2.2 1 1 = Some "pro".
Proof. repeat split. Qed.

(** The faction table keeps at most one row per (user, post). *)
Section FactionsUnique.
Context {F : Type} {PN : PyNum F}.

Lemma find_post_faction_key user_id post_id fs k row :
  find_post_faction user_id post_id fs = Some (k, row) ->
  fs !! k = Some row /\ faction_key row = (user_id, post_id).
Proof.
  intros (Hk & [Hu Hp] & _)%list_find_Some. split; [done|].
  unfold faction_key. by rewrite Hu, Hp.
Qed.

Lemma find_post_faction_fresh user_id post_id fs :
  find_post_faction user_id post_id fs = None ->
  (user_id, post_id) ∉ faction_key <$> fs.
Proof.
  intros Hnone%list_find_None (r & Hkey & Hin)%list_elem_of_fmap.
  rewrite Forall_forall in Hnone. apply (Hnone r Hin).
  unfold faction_key in Hkey. by inversion Hkey.
Qed.

Lemma NoDup_snoc_key (fs : list UserPostFaction) row :
  NoDup (faction_key <$> fs) -> faction_key row ∉ faction_key <$> fs ->
  NoDup (faction_key <$> (fs ++ [row])%list).
Proof.
  intros Hn Hfresh. rewrite fmap_app. apply NoDup_app. split; [done|]. split.
  - intros x Hx Hin. apply list_elem_of_singleton in Hin. by subst x.
  - apply NoDup_singleton.
Qed.

Lemma post_action_factions current_user post_id action json_faction now post i fs
    post' i' fs' active :
  post_action current_user post_id action json_faction now post i fs
    = Continue post' i' fs' active ->
  NoDup (faction_key <$> fs) -> NoDup (faction_key <$> fs').
Proof.
  unfold post_action. intros H Hn.
  repeat (case_bool_decide || case_match); simplify_eq; try done.
  - rewrite list_fmap_delete. exact (sublist_NoDup _ _ Hn (sublist_delete _ _)).
  - match goal with H : find_post_faction _ _ _ = Some _ |- _ =>
      apply find_post_faction_key in H as [Hk Hkey] end.
    rewrite list_fmap_insert, list_insert_id; [done|].
    rewrite list_lookup_fmap, Hk. done.
  - apply NoDup_snoc_key; [done|]. by apply find_post_faction_fresh.
Qed.

Lemma step_factions_unique (d d' : db F) :
  step d d' -> factions_unique d -> factions_unique d'.
Proof.
  intros Hs Hn. unfold factions_unique in *. destruct Hs.
  - done.
  - unfold new_post. by destruct (users d !! current_user).
  - by destruct (post_tables current_user form now post_id d) as (_ & _ & _ & ->).
  - destruct (post_interaction_commits current_user json_faction now post_id action d)
      as [->|(p & p' & i' & fs & a & us & _ & Ha & -> & _)]; [done|].
    simpl. by eapply post_action_factions.
  - by destruct (comment_interaction_commits current_user now comment_id action d)
      as [->|(c & c' & i' & a & us & _ & _ & -> & _)].
  - unfold choose_faction. repeat case_match; simpl; try done.
    apply NoDup_snoc_key; [done|]. by apply find_post_faction_fresh.
  - unfold init_user_scores.
    destruct (update_scores _ d) as [d1|] eqn:Hu; simpl; [|done].
    by apply update_scores_tables in Hu as (_ & _ & _ & _ & -> & _).
Qed.

Lemma reachable_factions_unique (d : db F) : reachable d -> factions_unique d.
Proof.
  induction 1 as [|d d' _ IH Hs]; [apply NoDup_nil_2|].
  by eapply step_factions_unique.
Qed.

Lemma find_post_faction_deleted user_id post_id fs k row :
  NoDup (faction_key <$> fs) ->
  find_post_faction user_id post_id fs = Some (k, row) ->
  find_post_faction user_id post_id (delete k fs) = None.
Proof.
  intros Hn Hfind. pose proof (find_post_faction_key _ _ _ _ _ Hfind) as [Hk Hkey].
  apply list_find_None, Forall_lookup. intros j r Hj [Hu Hp].
  assert (faction_key r = faction_key row) as Hsame
    by (rewrite Hkey; unfold faction_key; by rewrite Hu, Hp).
  assert (forall j', fs !! j' = Some r -> j' = k) as Honly.
  { intros j' Hj'. eapply (NoDup_lookup _ j' k (faction_key row) Hn).
    - by rewrite list_lookup_fmap, Hj', <- Hsame.
    - by rewrite list_lookup_fmap, Hk. }
  destruct (decide (j < k)%nat) as [Hlt|Hge].
  - rewrite list_lookup_delete_lt in Hj by done. apply Honly in Hj. lia.
  - rewrite list_lookup_delete_ge in Hj by lia. apply Honly in Hj. lia.
Qed.

(** A request whose action is neither like nor dislike commits once and does
    not recompute a score. *)
Lemma post_interaction_plain (d : db F) current_user json_faction now post_id action
    post post' interaction' factions active :
  let found := find_post_interaction current_user post_id (post_interactions d) in
  let interaction :=
    default {| upi_user_id := current_user; upi_post_id := post_id;
               upi_liked := false; upi_disliked := false; upi_favorited := false;
               upi_interacted_at := now |} (snd <$> found) in
  action ∉ ["like"; "dislike"] ->
  posts d !! post_id = Some post ->
  post_action current_user post_id action json_faction now post interaction
              (post_factions d) = Continue post' interaction' factions active ->
  post_interaction current_user json_faction now post_id action d
  = (Ok (ResponseData action active (post_count_attr action post')),
     {| users := users d; posts := <[post_id := post']> (posts d);
        comments := comments d;
        post_interactions :=
          save_row (fst <$> found) (set_interacted_at interaction' now)
                   (post_interactions d);
        comment_interactions := comment_interactions d;
        post_factions := factions |}).
Proof.
  intros found interaction Hact Hp Ha. unfold post_interaction. rewrite Hp.
  fold found. fold interaction. rewrite Ha.
  by rewrite (bool_decide_eq_false_2 _ Hact).
Qed.
End FactionsUnique.

(** C7. The toggle path ([join_faction]) on an existing post, in a reachable
    database.  For a requested faction pro or anti: a row with the same
    faction is deleted and the answer is inactive; a row with another faction
    is overwritten in place and the answer is active; with no row, one is
    appended and the answer is active.  Any other requested faction (or none)
    is answered with "Invalid faction" and the database stays as it was. *)
Theorem join_faction_toggle {F : Type} {PN : PyNum F} (d : db F)
    (actor now post_id : Z) (post : PostModel) (json_faction : option string) :
  reachable d ->
  posts d !! post_id = Some post ->
  let out := post_interaction actor json_faction now post_id "join_faction" d in
  (forall faction,
     json_faction = Some faction -> faction ∈ ["pro"; "anti"] ->
     (faction_of d actor post_id = Some faction ->
      out.1 = Ok (ResponseData "join_faction" false 0)
      /\ faction_of out.2 actor post_id = None
      /\ exists k row,
           find_post_faction actor post_id (post_factions d) = Some (k, row)
           /\ post_factions out.2 = delete k (post_factions d))
     /\ (forall other,
           faction_of d actor post_id = Some other -> other <> faction ->
           out.1 = Ok (ResponseData "join_faction" true 0)
           /\ faction_of out.2 actor post_id = Some faction
           /\ exists k row,
                find_post_faction actor post_id (post_factions d) = Some (k, row)
                /\ post_factions out.2
                   = <[k := set_faction row faction]> (post_factions d))
     /\ (faction_of d actor post_id = None ->
         out.1 = Ok (ResponseData "join_faction" true 0)
         /\ faction_of out.2 actor post_id = Some faction
         /\ post_factions out.2
            = (post_factions d
               ++ [{| upf_user_id := actor; upf_post_id := post_id;
                      upf_faction := faction; upf_created_at := now |}])%list))
  /\ ((json_faction = None
       \/ exists faction, json_faction = Some faction /\ faction ∉ ["pro"; "anti"]) ->
      out = (Ok (BadRequest "Invalid faction"), d)).
Proof.
  intros Hr Hp out. pose proof (reachable_factions_unique d Hr) as Hn.
  assert ("join_faction" ∉ ["like"; "dislike"]) as Hplain
    by (intros H; repeat (apply elem_of_cons in H as [H|H]; [discriminate|]);
        by apply elem_of_nil in H).
  split.
  - intros faction -> Hf. unfold faction_of.
    destruct (find_post_faction actor post_id (post_factions d)) as [[k row]|] eqn:Hfind;
      cbn [fmap option_fmap option_map snd].
    + pose proof Hfind as (Hk & Hkey & Hmin)%list_find_Some.
      split; [|split; [|intros [=]]].
      * intros [= Hsame]. subst out.
        erewrite post_interaction_plain; [|done|done|].
        2:{ unfold post_action. simpl. rewrite (bool_decide_eq_true_2 _ Hf), Hfind.
            by rewrite bool_decide_eq_true_2. }
        cbn [fst snd post_factions]. split; [done|]. split; [|by eauto].
        by rewrite (find_post_faction_deleted _ _ _ _ _ Hn Hfind).
      * intros other [= Hother] Hne. subst out other.
        erewrite post_interaction_plain; [|done|done|].
        2:{ unfold post_action. simpl. rewrite (bool_decide_eq_true_2 _ Hf), Hfind.
            by rewrite bool_decide_eq_false_2. }
        cbn [fst snd post_factions]. split; [done|]. split; [|by eauto].
        assert (find_post_faction actor post_id
                  (<[k := set_faction row faction]> (post_factions d))
                = Some (k, set_faction row faction)) as ->; [|done].
        apply list_find_insert_Some. right; left.
        repeat split; eauto using lookup_lt_Some; apply Hkey.
    + split; [intros [=]|]. split; [intros other [=]|]. intros _. subst out.
      erewrite post_interaction_plain; [|done|done|].
      2:{ unfold post_action. simpl. by rewrite (bool_decide_eq_true_2 _ Hf), Hfind. }
      cbn [fst snd post_factions]. split; [done|]. split; [|done].
      unfold find_post_faction in *. rewrite list_find_app_r by done. simpl.
      by rewrite decide_True.
  - intros Hbad. subst out. unfold post_interaction. rewrite Hp.
    unfold post_action. simpl.
    destruct Hbad as [->|(faction & -> & Hf)]; [done|].
    by rewrite (bool_decide_eq_false_2 _ Hf).
Qed.

Lemma join_faction_toggle_witness :
  let out := post_interaction 1 (Some "anti") 90 1 "join_faction" (db_pro (F := Q)) in
  out.1 = Ok (ResponseData "join_faction" true 0)
  /\ faction_of out.2 1 1 = Some "anti"
  /\ exists k row,
       find_post_faction 1 1 (post_factions (db_pro (F := Q))) = Some (k, row)
       /\ post_factions out.2 = <[k := set_faction row "anti"]> (post_factions db_pro).
Proof.
  destruct (join_faction_toggle (db_pro (F := Q)) 1 90 1
              {| p_author_id := 2; p_view_count := 0; p_like_count := 0;
                 p_dislike_count := 0; p_favorite_count := 0 |}
              (Some "anti") reachable_db_pro eq_refl) as [Hvalid _].
  destruct (Hvalid "anti" eq_refl) as (_ & Hother & _).
  { apply elem_of_cons. right. apply elem_of_cons. by left. }
  apply (Hother "pro"); [reflexivity|discriminate].
Defined.

(** The three answers of the toggle path in a row: join, switch, leave. *)
Example join_switch_leave :
  let out1 := post_interaction 1 (Some "pro") 90 1 "join_faction" (db_posted (F := Q)) in
  let out2 := post_interaction 1 (Some "anti") 91 1 "join_faction" out1.2 in
  let out3 := post_interaction 1 (Some "anti") 92 1 "join_faction" out2.2 in
  (out1.1 = Ok (ResponseData "join_faction" true 0) /\ faction_of out1.2 1 1 = Some "pro")
  /\ (out2.1 = Ok (ResponseData "join_faction" true 0)
      /\ faction_of out2.2 1 1 = Some "anti")
  /\ (out3.1 = Ok (ResponseData "join_faction" false 0) /\ post_factions out3.2 = []).
Proof. repeat split. Qed.

(** The next autoincrement key is not in use. *)
Lemma next_id_fresh {A : Type} (table : gmap Z A) : table !! next_id table = None.
Proof.
  destruct (table !! next_id table) as [v|] eqn:Hv; [exfalso|done].
  assert (forall (l : list Z) k, k ∈ l -> k <= foldr Z.max 0 l) as Hmax.
  { induction l as [|x l IH]; intros k Hk; [by apply elem_of_nil in Hk|].
    apply elem_of_cons in Hk as [->|Hk]; simpl; [lia|]. specialize (IH k Hk). lia. }
  assert (next_id table ∈ (map_to_list table).*1) as Hin.
  { apply list_elem_of_fmap. exists (next_id table, v). split; [done|].
    by apply elem_of_map_to_list. }
  apply Hmax in Hin. unfold next_id in Hin at 1. lia.
Qed.

Section Membership.
Context {F : Type} {PN : PyNum F}.


End Membership.


(** The check on the run: user 1 is in the pro faction of post 1 and may
    comment as pro but not as anti; user 2 is in no faction and may comment
    as neutral only. *)
Example comment_requires_faction_run :
  let submit user faction :=
    (post (Some user)
       (Some {| form_content := Some "why"; form_faction := Some faction |})
       95 1 (db_pro (F := Q))).1 in
  submit 1 "pro" = Ok (Redirect CommentPosted)
  /\ submit 1 "anti" = Ok (Redirect NotInFaction)
  /\ submit 2 "pro" = Ok (Redirect NotInFaction)
  /\ submit 2 "neutral" = Ok (Redirect CommentPosted).
Proof. repeat split. Qed.

(** ** Claims on the request boundary *)

Section Boundary.
Context {F : Type} {PN : PyNum F}.

(** C9 fails on the code.  For an existing comment and any action other
    than like and dislike, [comment_interaction] commits the actor's
    interaction row with a new timestamp and then raises UnboundLocalError
    while building the response: no branch assigned [active].  The sibling
    handler [post_interaction] answers an unknown action with
    "Invalid action" and commits nothing. *)
Theorem comment_interaction_unknown_action (d : db F)
    (actor now comment_id : Z) (comment : CommentModel) (action : string) :
  comments d !! comment_id = Some comment ->
  action <> "like" -> action <> "dislike" ->
  let found := find_comment_interaction actor comment_id (comment_interactions d) in
  let interaction :=
    default {| uci_user_id := actor; uci_comment_id := comment_id;
               uci_liked := false; uci_disliked := false;
               uci_interacted_at := now |} (snd <$> found) in
  comment_interaction actor now comment_id action d
  = (Raise UnboundLocalError,
     set_comment_interactions
       (set_comments d (<[comment_id := comment]> (comments d)))
       (save_row (fst <$> found) (set_c_interacted_at interaction now)
                 (comment_interactions d))).
Proof.
  intros Hc Hl Hd found interaction. unfold comment_interaction. rewrite Hc.
  fold found. fold interaction. unfold comment_action.
  rewrite (bool_decide_eq_false_2 _ Hl), (bool_decide_eq_false_2 _ Hd).
  rewrite bool_decide_eq_false_2; [done|].
  intros H. apply elem_of_cons in H as [H|H]; [done|].
  apply elem_of_cons in H as [H|H]; [done|]. by apply elem_of_nil in H.
Qed.

Lemma post_interaction_unknown_action (d : db F) (actor now post_id : Z)
    (json_faction : option string) (p : PostModel) (action : string) :
  posts d !! post_id = Some p ->
  action ∉ ["like"; "dislike"; "favorite"; "join_faction"] ->
  post_interaction actor json_faction now post_id action d
  = (Ok (BadRequest "Invalid action"), d).
Proof.
  intros Hp Ha. unfold post_interaction. rewrite Hp. unfold post_action.
  rewrite !bool_decide_eq_false_2; [done|..]; intros ->; apply Ha;
    repeat ((by apply list_elem_of_here) || apply list_elem_of_further).
Qed.
End Boundary.

Lemma comment_interaction_unknown_action_witness :
  let d := db_commented (F := Q) in
  let found := find_comment_interaction 2 1 (comment_interactions d) in
  let interaction :=
    default {| uci_user_id := 2; uci_comment_id := 1;
               uci_liked := false; uci_disliked := false;
               uci_interacted_at := 200 |} (snd <$> found) in
  comment_interaction 2 200 1 "favorite" d
  = (Raise UnboundLocalError,
     set_comment_interactions
       (set_comments d
          (<[1 := {| c_content := "first"; c_author_id := 1; c_post_id := 1;
                     c_like_count := 0; c_dislike_count := 0;
                     c_faction := "neutral" |}]> (comments d)))
       (save_row (fst <$> found) (set_c_interacted_at interaction 200)
                 (comment_interactions d))).
Proof.
  apply (comment_interaction_unknown_action (db_commented (F := Q)) 2 200 1
           {| c_content := "first"; c_author_id := 1; c_post_id := 1;
              c_like_count := 0; c_dislike_count := 0; c_faction := "neutral" |}
           "favorite"); [reflexivity | discriminate | discriminate].
Defined.

(** The failing request evaluated: the exception, and the row it leaves
    behind. *)
Example comment_interaction_favorite :
  let out := comment_interaction 2 200 1 "favorite" (db_commented (F := Q)) in
  out.1 = Raise UnboundLocalError
  /\ comment_interactions out.2
     = [{| uci_user_id := 2; uci_comment_id := 1; uci_liked := false;
           uci_disliked := false; uci_interacted_at := 200 |}]
  /\ (post_interaction 2 None 200 1 "share" (db_commented (F := Q))).1
     = Ok (BadRequest "Invalid action").
Proof. vm_compute. repeat split. Qed.

Section Touch.
Context {F : Type} {PN : PyNum F}.

(** A valid action gets past the action branches; [join_faction] leaves the
    post and the interaction row as they are. *)
Lemma post_action_valid current_user post_id action json_faction now p i fs :
  action ∈ ["like"; "dislike"; "favorite"]
  \/ (action = "join_faction"
      /\ exists faction, json_faction = Some faction /\ faction ∈ ["pro"; "anti"]) ->
  exists p' i' fs' active,
    post_action current_user post_id action json_faction now p i fs
    = Continue p' i' fs' active
    /\ (action = "join_faction" -> p' = p /\ i' = i).
Proof.
  intros [Ha|(-> & faction & -> & Hf)].
  - repeat (apply elem_of_cons in Ha as [->|Ha]); [| | |by apply elem_of_nil in Ha];
      unfold post_action; simpl; repeat case_match;
      eexists _, _, _, _; (split; [reflexivity|discriminate]).
  - unfold post_action. simpl. rewrite (bool_decide_eq_true_2 _ Hf).
    repeat case_match; eexists _, _, _, _; (split; [reflexivity|done]).
Qed.

(** The database committed by a request that got past the action branches,
    whether or not the recomputation of the author's score succeeds. *)
Lemma post_interaction_committed (d : db F) current_user json_faction now post_id action
    p p' interaction' factions active :
  let found := find_post_interaction current_user post_id (post_interactions d) in
  let interaction :=
    default {| upi_user_id := current_user; upi_post_id := post_id;
               upi_liked := false; upi_disliked := false; upi_favorited := false;
               upi_interacted_at := now |} (snd <$> found) in
  posts d !! post_id = Some p ->
  post_action current_user post_id action json_faction now p interaction
              (post_factions d) = Continue p' interaction' factions active ->
  post_interactions (post_interaction current_user json_faction now post_id action d).2
  = save_row (fst <$> found) (set_interacted_at interaction' now) (post_interactions d).
Proof.
  intros found interaction Hp Ha. unfold post_interaction. rewrite Hp.
  fold found. fold interaction. rewrite Ha.
  destruct (_ && _); [|done].
  cbn [users set_post_factions set_post_interactions set_posts].
  destruct (users d !! p_author_id p') as [author|]; [|done].
  destruct (update_score _ _ _) as [[r d2]|] eqn:Hs; [|done].
  apply update_score_writes in Hs. by subst d2.
Qed.

(** C10, amended.  A request of [post_interaction] on an existing post with
    a valid action (like, dislike, favorite, or join_faction with faction pro
    or anti) commits an interaction row of (actor, post) whose timestamp is
    the time of the request; the row is appended when the actor had none, and
    for join_faction it is otherwise the row as it was (all flags false when
    new).  A request with an unknown action, or join_faction without a valid
    faction, is answered with an error and commits nothing. *)
Theorem post_interaction_touches_row (d : db F) (actor now post_id : Z) (p : PostModel)
    (action : string) (json_faction : option string) :
  posts d !! post_id = Some p ->
  let found := find_post_interaction actor post_id (post_interactions d) in
  let interaction :=
    default {| upi_user_id := actor; upi_post_id := post_id;
               upi_liked := false; upi_disliked := false; upi_favorited := false;
               upi_interacted_at := now |} (snd <$> found) in
  let out := post_interaction actor json_faction now post_id action d in
  (action ∈ ["like"; "dislike"; "favorite"]
   \/ (action = "join_faction"
       /\ exists faction, json_faction = Some faction /\ faction ∈ ["pro"; "anti"]) ->
   exists k row,
     find_post_interaction actor post_id (post_interactions out.2) = Some (k, row)
     /\ upi_interacted_at row = now
     /\ (found = None -> post_interactions out.2 = (post_interactions d ++ [row])%list)
     /\ (action = "join_faction" -> row = set_interacted_at interaction now))
  /\ (action ∉ ["like"; "dislike"; "favorite"; "join_faction"]
      \/ (action = "join_faction"
          /\ (json_faction = None
              \/ exists faction, json_faction = Some faction
                                 /\ faction ∉ ["pro"; "anti"])) ->
      out.2 = d /\ exists error, out.1 = Ok (BadRequest error)).
Proof.
  intros Hp found interaction out. split.
  - intros Hvalid.
    destruct (post_action_valid actor post_id action json_faction now p interaction
                (post_factions d) Hvalid) as (p' & i' & fs' & active & Ha & Hjoin).
    pose proof (post_interaction_committed d actor json_faction now post_id action
                  p p' i' fs' active Hp Ha) as Hout.
    fold found in Hout. fold out in Hout.
    assert (upi_user_id interaction = actor /\ upi_post_id interaction = post_id) as Hkey.
    { subst interaction found. unfold find_post_interaction.
      destruct (list_find _ _) as [[k i]|] eqn:Hf; simpl; [|done].
      by apply list_find_Some in Hf as (_ & Hk & _). }
    pose proof (post_action_row _ _ _ _ _ _ _ _ _ _ _ _ Ha) as (Hu & Hpid & _).
    destruct (list_find_save_row
                (fun i => upi_user_id i = actor /\ upi_post_id i = post_id)
                (post_interactions d) (set_interacted_at i' now)) as [k Hk].
    { simpl. rewrite Hu, Hpid. exact Hkey. }
    exists k, (set_interacted_at i' now). rewrite Hout.
    split; [exact Hk|]. split; [done|]. split.
    + intros Hnone. by rewrite Hnone.
    + intros Hj. by destruct (Hjoin Hj) as [_ ->].
  - intros Hbad. subst out. unfold post_interaction. rewrite Hp.
    unfold post_action. destruct Hbad as [Ha|(-> & Hf)].
    + rewrite !bool_decide_eq_false_2; [by eauto|..]; intros ->; apply Ha;
        repeat ((by apply list_elem_of_here) || apply list_elem_of_further).
    + simpl. destruct Hf as [->|(faction & -> & Hf)]; [by eauto|].
      rewrite (bool_decide_eq_false_2 _ Hf). by eauto.
Qed.
End Touch.

(** C10 as stated fails: a request with an unknown action, or join_faction
    with an invalid faction, returns before the timestamp is written and
    before the commit.  On [db_posted] no row is persisted for the actor; on
    [db_liked] the actor's row keeps the timestamp 100 of the like. *)
Lemma post_interaction_early_return :
  post_interaction 1 None 200 1 "share" (db_posted (F := Q))
  = (Ok (BadRequest "Invalid action"), db_posted)
  /\ post_interactions (db_posted (F := Q)) = []
  /\ post_interaction 1 (Some "neutral") 200 1 "join_faction" (db_posted (F := Q))
     = (Ok (BadRequest "Invalid faction"), db_posted)
  /\ (post_interaction 1 None 200 1 "share" (db_liked (F := Q))).2 = db_liked
  /\ upi_interacted_at <$> post_interactions (db_liked (F := Q)) = [100].
Proof. repeat split. Qed.

Lemma post_interaction_touches_row_witness :
  let out := post_interaction 1 (Some "pro") 200 1 "join_faction" (db_posted (F := Q)) in
  exists k row,
    find_post_interaction 1 1 (post_interactions out.2) = Some (k, row)
    /\ upi_interacted_at row = 200
    /\ (find_post_interaction 1 1 (post_interactions (db_posted (F := Q))) = None ->
        post_interactions out.2 = (post_interactions (db_posted (F := Q)) ++ [row])%list)
    /\ ("join_faction" = "join_faction" ->
        row = {| upi_user_id := 1; upi_post_id := 1; upi_liked := false;
                 upi_disliked := false; upi_favorited := false;
                 upi_interacted_at := 200 |}).
Proof.
  destruct (post_interaction_touches_row (db_posted (F := Q)) 1 200 1
              {| p_author_id := 2; p_view_count := 0; p_like_count := 0;
                 p_dislike_count := 0; p_favorite_count := 0 |}
              "join_faction" (Some "pro") eq_refl) as [Hvalid _].
  apply Hvalid. right. split; [reflexivity|]. exists "pro". split; [reflexivity|].
  apply elem_of_cons. by left.
Defined.

(** The side effect on the run: joining a faction persists an all-false
    interaction record of the actor. *)
Example join_faction_persists_row :
  post_interactions
    (post_interaction 1 (Some "pro") 200 1 "join_faction" (db_posted (F := Q))).2
  = [{| upi_user_id := 1; upi_post_id := 1; upi_liked := false; upi_disliked := false;
        upi_favorited := false; upi_interacted_at := 200 |}].
Proof. reflexivity. Qed.

(** * Further properties of the handlers *)

(** ** Counting rows *)

Lemma count_if_app {A : Type} (f : A -> bool) (l k : list A) :
  count_if f (l ++ k)%list = count_if f l + count_if f k.
Proof. induction l as [|x l IH]; simpl; [done|]. rewrite IH. lia. Qed.

Lemma count_if_insert {A : Type} (f : A -> bool) (l : list A) k x y :
  l !! k = Some x ->
  count_if f (<[k := y]> l)
  = count_if f l - (if f x then 1 else 0) + (if f y then 1 else 0).
Proof.
  revert k. induction l as [|z l IH]; intros [|k] Hk; simplify_eq/=; [lia|].
  rewrite (IH k Hk). lia.
Qed.

Lemma count_if_nonneg {A : Type} (f : A -> bool) (l : list A) : 0 <= count_if f l.
Proof. induction l as [|x l IH]; simpl; [done|]. destruct (f x); lia. Qed.

Lemma count_if_none {A : Type} (f : A -> bool) (l : list A) :
  Forall (fun x => f x = false) l -> count_if f l = 0.
Proof. induction 1 as [|x l Hx _ IH]; simpl; [done|]. rewrite Hx, IH. done. Qed.

Lemma count_if_ext {A : Type} (f g : A -> bool) (l : list A) :
  Forall (fun x => f x = g x) l -> count_if f l = count_if g l.
Proof. induction 1 as [|x l Hx _ IH]; simpl; [done|]. by rewrite Hx, IH. Qed.

(** Writing a row back changes a count by the difference between the row
    read and the row written. *)
Lemma count_if_save_row {A : Type} (f : A -> bool) (P : A -> Prop)
    `{!forall x, Decision (P x)} (l : list A) (fresh row : A) :
  f fresh = false ->
  count_if f (save_row (fst <$> list_find P l) row l)
  = count_if f l
    - (if f (default fresh (snd <$> list_find P l)) then 1 else 0)
    + (if f row then 1 else 0).
Proof.
  intros Hfresh. destruct (list_find P l) as [[k x]|] eqn:Hfind; simpl.
  - apply list_find_Some in Hfind as (Hk & _). by apply count_if_insert.
  - rewrite count_if_app, Hfresh. simpl. lia.
Qed.

(** Writing a row back keeps the keys of a table distinct. *)
Lemma NoDup_save_row {A K : Type} (key : A -> K) (k0 : K) (P : A -> Prop)
    `{!forall x, Decision (P x)} (l : list A) (row : A) :
  (forall x, P x <-> key x = k0) ->
  key row = k0 ->
  NoDup (key <$> l) ->
  NoDup (key <$> save_row (fst <$> list_find P l) row l).
Proof.
  intros HP Hrow Hn. destruct (list_find P l) as [[k x]|] eqn:Hfind; simpl.
  - apply list_find_Some in Hfind as (Hk & Hx & _). apply HP in Hx.
    rewrite list_fmap_insert, list_insert_id; [done|].
    rewrite list_lookup_fmap, Hk. simpl. congruence.
  - apply list_find_None in Hfind. rewrite fmap_app. apply NoDup_app.
    split; [done|]. split; [|apply NoDup_singleton].
    intros y (x & -> & Hin)%list_elem_of_fmap Hy.
    apply list_elem_of_singleton in Hy. rewrite Forall_forall in Hfind.
    apply (Hfind x Hin), HP. congruence.
Qed.

Section Tables.
Context {F : Type} {PN : PyNum F}.

Lemma interaction_key_spec user_id post_id i :
  upi_user_id i = user_id /\ upi_post_id i = post_id
  <-> interaction_key i = (user_id, post_id).
Proof. unfold interaction_key. split; [by intros [-> ->]|by intros [= -> ->]]. Qed.

Lemma comment_interaction_key_spec user_id comment_id i :
  uci_user_id i = user_id /\ uci_comment_id i = comment_id
  <-> comment_interaction_key i = (user_id, comment_id).
Proof. unfold comment_interaction_key. split; [by intros [-> ->]|by intros [= -> ->]]. Qed.

(** The key of the row a handler works on. *)
Lemma found_post_interaction_key user_id post_id l now :
  let i := default {| upi_user_id := user_id; upi_post_id := post_id;
                      upi_liked := false; upi_disliked := false;
                      upi_favorited := false; upi_interacted_at := now |}
                   (snd <$> find_post_interaction user_id post_id l) in
  upi_user_id i = user_id /\ upi_post_id i = post_id.
Proof.
  unfold find_post_interaction.
  destruct (list_find _ l) as [[k i]|] eqn:Hf; simpl; [|done].
  by apply list_find_Some in Hf as (_ & Hk & _).
Qed.

Lemma found_comment_interaction_key user_id comment_id l now :
  let i := default {| uci_user_id := user_id; uci_comment_id := comment_id;
                      uci_liked := false; uci_disliked := false;
                      uci_interacted_at := now |}
                   (snd <$> find_comment_interaction user_id comment_id l) in
  uci_user_id i = user_id /\ uci_comment_id i = comment_id.
Proof.
  unfold find_comment_interaction.
  destruct (list_find _ l) as [[k i]|] eqn:Hf; simpl; [|done].
  by apply list_find_Some in Hf as (_ & Hk & _).
Qed.

(** What [post] commits: the view, and possibly a new comment with zero
    counts under the next key. *)
Lemma post_commits current_user form now post_id (d : db F) :
  let d' := (post current_user form now post_id d).2 in
  d' = d \/
  exists p,
    posts d !! post_id = Some p
    /\ users d' = users d
    /\ posts d' = <[post_id := set_view_count p (p_view_count p + 1)]> (posts d)
    /\ post_interactions d' = post_interactions d
    /\ comment_interactions d' = comment_interactions d
    /\ post_factions d' = post_factions d
    /\ (comments d' = comments d
        \/ exists c, comments d' = <[next_id (comments d) := c]> (comments d)
                     /\ c_like_count c = 0 /\ c_dislike_count c = 0).
Proof.
  unfold post. destruct (posts d !! post_id) as [p|] eqn:Hp; [|by left].
  right. exists p. repeat case_match; simpl; repeat split; eauto.
Qed.

(** What [new_post] commits. *)
Lemma new_post_tables current_user (d : db F) :
  let d' := new_post current_user d in
  (exists p, posts d' = <[next_id (posts d) := p]> (posts d)
             /\ p_like_count p = 0 /\ p_dislike_count p = 0 /\ p_favorite_count p = 0)
  /\ comments d' = comments d
  /\ post_interactions d' = post_interactions d
  /\ comment_interactions d' = comment_interactions d
  /\ post_factions d' = post_factions d.
Proof.
  unfold new_post. destruct (users d !! current_user); simpl; repeat split; eauto.
Qed.

Lemma choose_faction_tables current_user now post_id faction (d : db F) :
  let d' := (choose_faction current_user now post_id faction d).2 in
  users d' = users d /\ posts d' = posts d /\ comments d' = comments d
  /\ post_interactions d' = post_interactions d
  /\ comment_interactions d' = comment_interactions d.
Proof. unfold choose_faction. repeat case_match; simpl; done. Qed.

Lemma init_user_scores_tables (d : db F) :
  let d' := (init_user_scores d).2 in
  posts d' = posts d /\ comments d' = comments d
  /\ post_interactions d' = post_interactions d
  /\ comment_interactions d' = comment_interactions d
  /\ post_factions d' = post_factions d.
Proof.
  unfold init_user_scores. destruct (update_scores _ d) as [d1|] eqn:Hu; simpl; [|done].
  apply update_scores_tables in Hu as (? & ? & ? & ? & ? & _). done.
Qed.
End Tables.

(** ** One row per (user, target) *)

Section Unique.
Context {F : Type} {PN : PyNum F}.

Lemma step_interactions_unique (d d' : db F) :
  step d d' -> interactions_unique d -> interactions_unique d'.
Proof.
  intros Hs [Hp Hc]. unfold interactions_unique. destruct Hs.
  - done.
  - by destruct (new_post_tables current_user d) as (_ & _ & -> & -> & _).
  - destruct (post_commits current_user form now post_id d)
      as [->|(p & _ & _ & _ & -> & -> & _)]; done.
  - destruct (post_interaction_commits current_user json_faction now post_id action d)
      as [->|(p & p' & i' & fs & a & us & _ & Ha & -> & _)]; [done|].
    split; simpl; [|done].
    apply post_action_row in Ha as (Hu & Hpid & _).
    apply (NoDup_save_row interaction_key (current_user, post_id)); [|..|done].
    + intros x. apply interaction_key_spec.
    + apply interaction_key_spec. simpl. rewrite Hu, Hpid.
      apply found_post_interaction_key.
  - destruct (comment_interaction_commits current_user now comment_id action d)
      as [->|(c & c' & i' & a & us & _ & Ha & -> & _)]; [done|].
    split; simpl; [done|].
    apply comment_action_row in Ha as (Hu & Hcid & _).
    apply (NoDup_save_row comment_interaction_key (current_user, comment_id)); [|..|done].
    + intros x. apply comment_interaction_key_spec.
    + apply comment_interaction_key_spec. simpl. rewrite Hu, Hcid.
      apply found_comment_interaction_key.
  - by destruct (choose_faction_tables current_user now post_id faction d)
      as (_ & _ & _ & -> & ->).
  - by destruct (init_user_scores_tables d) as (_ & _ & -> & -> & _).
Qed.

Lemma reachable_interactions_unique (d : db F) : reachable d -> interactions_unique d.
Proof.
  induction 1 as [|d d' _ IH Hs]; [split; apply NoDup_nil_2|].
  by eapply step_interactions_unique.
Qed.

(** ** Rows point to stored targets *)

Lemma targets_stored_kept (d d' : db F) :
  (forall k, is_Some (posts d !! k) -> is_Some (posts d' !! k)) ->
  (forall k, is_Some (comments d !! k) -> is_Some (comments d' !! k)) ->
  post_interactions d' = post_interactions d ->
  comment_interactions d' = comment_interactions d ->
  targets_stored d -> targets_stored d'.
Proof.
  intros Hp Hc Hpi Hci [Htp Htc]. unfold targets_stored. rewrite Hpi, Hci.
  split; eapply Forall_impl; eauto; simpl; auto.
Qed.

Lemma step_targets_stored (d d' : db F) :
  step d d' -> targets_stored d -> targets_stored d'.
Proof.
  intros Hs Ht. pose proof Ht as [Htp Htc]. destruct Hs.
  - by apply (targets_stored_kept d).
  - destruct (new_post_tables current_user d) as ((p & Hp & _) & Hc & Hpi & Hci & _).
    apply (targets_stored_kept d); try done.
    + intros k Hk. rewrite Hp. by apply insert_kept.
    + intros k. by rewrite Hc.
  - destruct (post_commits current_user form now post_id d)
      as [->|(p & _ & _ & Hp & Hpi & Hci & _ & Hc)]; [done|].
    apply (targets_stored_kept d); try done.
    + intros k Hk. rewrite Hp. by apply insert_kept.
    + intros k Hk. destruct Hc as [->|(c & -> & _)]; [done|]. by apply insert_kept.
  - destruct (post_interaction_commits current_user json_faction now post_id action d)
      as [->|(p & p' & i' & fs & a & us & Hp & Ha & -> & _)]; [done|].
    split; simpl; [|done].
    apply post_action_row in Ha as (_ & Hpid & _).
    apply Forall_save_row.
    + eapply Forall_impl; [exact Htp|]. simpl. intros i Hi. by apply insert_kept.
    + simpl. rewrite Hpid.
      destruct (found_post_interaction_key current_user post_id (post_interactions d) now)
        as [_ ->].
      rewrite lookup_insert_eq. eauto.
  - destruct (comment_interaction_commits current_user now comment_id action d)
      as [->|(c & c' & i' & a & us & Hc & Ha & -> & _)]; [done|].
    split; simpl; [done|].
    apply comment_action_row in Ha as (_ & Hcid & _).
    apply Forall_save_row.
    + eapply Forall_impl; [exact Htc|]. simpl. intros i Hi. by apply insert_kept.
    + simpl. rewrite Hcid.
      destruct (found_comment_interaction_key current_user comment_id
                  (comment_interactions d) now) as [_ ->].
      rewrite lookup_insert_eq. eauto.
  - destruct (choose_faction_tables current_user now post_id faction d)
      as (_ & Hp & Hc & Hpi & Hci).
    apply (targets_stored_kept d); try done; intros k; by rewrite ?Hp, ?Hc.
  - destruct (init_user_scores_tables d) as (Hp & Hc & Hpi & Hci & _).
    apply (targets_stored_kept d); try done; intros k; by rewrite ?Hp, ?Hc.
Qed.

Lemma reachable_targets_stored (d : db F) : reachable d -> targets_stored d.
Proof.
  induction 1 as [|d d' _ IH Hs]; [by split; constructor|].
  by eapply step_targets_stored.
Qed.
End Unique.

(** ** The counters follow the rows *)

Section Counters.
Context {F : Type} {PN : PyNum F}.

(** Each action branch moves a counter by as much as it moves the flag. *)
Lemma post_action_counts current_user post_id action json_faction now p i fs
    p' i' fs' active :
  post_action current_user post_id action json_faction now p i fs
    = Continue p' i' fs' active ->
  p_like_count p' = p_like_count p - b2z (upi_liked i) + b2z (upi_liked i')
  /\ p_dislike_count p' = p_dislike_count p - b2z (upi_disliked i) + b2z (upi_disliked i')
  /\ p_favorite_count p'
     = p_favorite_count p - b2z (upi_favorited i) + b2z (upi_favorited i').
Proof.
  unfold post_action. destruct i as [u q [] [] [] t]; simpl; intros H.
  all: repeat (case_bool_decide || case_match); simplify_eq; simpl; lia.
Qed.

Lemma comment_action_counts action c i c' i' active :
  comment_action action c i = (c', i', active) ->
  c_like_count c' = c_like_count c - b2z (uci_liked i) + b2z (uci_liked i')
  /\ c_dislike_count c'
     = c_dislike_count c - b2z (uci_disliked i) + b2z (uci_disliked i').
Proof.
  unfold comment_action. destruct i as [u q [] [] t]; simpl; intros H.
  all: repeat (case_bool_decide || case_match); simplify_eq; simpl; lia.
Qed.

Lemma post_rows_save (flag : UserPostInteraction -> bool) user_id post_id now l i' pid0 :
  let fresh := {| upi_user_id := user_id; upi_post_id := post_id;
                  upi_liked := false; upi_disliked := false;
                  upi_favorited := false; upi_interacted_at := now |} in
  let found := find_post_interaction user_id post_id l in
  let i := default fresh (snd <$> found) in
  flag fresh = false ->
  flag (set_interacted_at i' now) = flag i' ->
  upi_post_id i' = post_id ->
  post_rows flag pid0 (save_row (fst <$> found) (set_interacted_at i' now) l)
  = post_rows flag pid0 l
    + (if bool_decide (post_id = pid0) then b2z (flag i') - b2z (flag i) else 0).
Proof.
  intros fresh found i Hfresh Hflag Hpid.
  destruct (found_post_interaction_key user_id post_id l now) as [_ Hkey].
  fold fresh found i in Hkey. unfold post_rows, found, find_post_interaction.
  rewrite (count_if_save_row _ _ l fresh) by (by rewrite Hfresh, andb_false_r).
  fold (find_post_interaction user_id post_id l). fold found. fold i.
  simpl. rewrite Hflag, Hpid, Hkey.
  case_bool_decide; simpl; unfold b2z; repeat case_match; lia.
Qed.

Lemma comment_rows_save (flag : UserCommentInteraction -> bool)
    user_id comment_id now l i' cid0 :
  let fresh := {| uci_user_id := user_id; uci_comment_id := comment_id;
                  uci_liked := false; uci_disliked := false;
                  uci_interacted_at := now |} in
  let found := find_comment_interaction user_id comment_id l in
  let i := default fresh (snd <$> found) in
  flag fresh = false ->
  flag (set_c_interacted_at i' now) = flag i' ->
  uci_comment_id i' = comment_id ->
  comment_rows flag cid0 (save_row (fst <$> found) (set_c_interacted_at i' now) l)
  = comment_rows flag cid0 l
    + (if bool_decide (comment_id = cid0) then b2z (flag i') - b2z (flag i) else 0).
Proof.
  intros fresh found i Hfresh Hflag Hcid.
  destruct (found_comment_interaction_key user_id comment_id l now) as [_ Hkey].
  fold fresh found i in Hkey. unfold comment_rows, found, find_comment_interaction.
  rewrite (count_if_save_row _ _ l fresh) by (by rewrite Hfresh, andb_false_r).
  fold (find_comment_interaction user_id comment_id l). fold found. fold i.
  simpl. rewrite Hflag, Hcid, Hkey.
  case_bool_decide; simpl; unfold b2z; repeat case_match; lia.
Qed.

(** No row points to a key that is not stored. *)
Lemma post_rows_unstored flag pid (posts : gmap Z PostModel) l :
  Forall (fun i => is_Some (posts !! upi_post_id i)) l ->
  posts !! pid = None ->
  post_rows flag pid l = 0.
Proof.
  intros Hl Hnone. apply count_if_none. eapply Forall_impl; [exact Hl|].
  simpl. intros i [q Hq]. rewrite bool_decide_eq_false_2; [done|]. congruence.
Qed.

Lemma comment_rows_unstored flag cid (comments : gmap Z CommentModel) l :
  Forall (fun i => is_Some (comments !! uci_comment_id i)) l ->
  comments !! cid = None ->
  comment_rows flag cid l = 0.
Proof.
  intros Hl Hnone. apply count_if_none. eapply Forall_impl; [exact Hl|].
  simpl. intros i [q Hq]. rewrite bool_decide_eq_false_2; [done|]. congruence.
Qed.
End Counters.

Section CountersStep.
Context {F : Type} {PN : PyNum F}.

Lemma counters_ok_same (d d' : db F) :
  posts d' = posts d -> comments d' = comments d ->
  post_interactions d' = post_interactions d ->
  comment_interactions d' = comment_interactions d ->
  counters_ok d -> counters_ok d'.
Proof. unfold counters_ok. by intros -> -> -> ->. Qed.

Lemma step_counters_ok (d d' : db F) :
  step d d' -> targets_stored d -> counters_ok d -> counters_ok d'.
Proof.
  intros Hs [Htp Htc] Hok. pose proof Hok as [Hposts Hcomments]. destruct Hs.
  - by apply (counters_ok_same d).
  - destruct (new_post_tables current_user d)
      as ((p0 & Hp & Hl & Hd & Hf) & Hc & Hpi & Hci & _).
    split; [|by rewrite Hc, Hci].
    intros pid p. rewrite Hp, Hpi.
    destruct (decide (next_id (posts d) = pid)) as [<-|Hne].
    + rewrite lookup_insert_eq. intros [= <-].
      rewrite !(post_rows_unstored _ _ (posts d)) by (done || apply next_id_fresh).
      done.
    + rewrite lookup_insert_ne by done. apply Hposts.
  - destruct (post_commits current_user form now post_id d)
      as [->|(p & Hp & _ & Hp' & Hpi & Hci & _ & Hc)]; [done|].
    split.
    + intros pid q. rewrite Hp', Hpi.
      destruct (decide (post_id = pid)) as [<-|Hne].
      * rewrite lookup_insert_eq. intros [= <-]. simpl. by apply Hposts.
      * rewrite lookup_insert_ne by done. apply Hposts.
    + intros cid c. rewrite Hci.
      destruct Hc as [->|(c0 & -> & Hl & Hd)]; [apply Hcomments|].
      destruct (decide (next_id (comments d) = cid)) as [<-|Hne].
      * rewrite lookup_insert_eq. intros [= <-].
        rewrite !(comment_rows_unstored _ _ (comments d))
          by (done || apply next_id_fresh).
        done.
      * rewrite lookup_insert_ne by done. apply Hcomments.
  - destruct (post_interaction_commits current_user json_faction now post_id action d)
      as [->|(p & p' & i' & fs & a & us & Hp & Ha & -> & _)]; [done|].
    split; simpl; [|done].
    pose proof (post_action_counts _ _ _ _ _ _ _ _ _ _ _ _ Ha) as (Hl & Hd & Hf).
    apply post_action_row in Ha as (_ & Hpid & _).
    destruct (found_post_interaction_key current_user post_id (post_interactions d) now)
      as [_ Hkey].
    rewrite Hkey in Hpid.
    destruct (Hposts _ _ Hp) as (Hpl & Hpd & Hpf).
    intros pid q. rewrite !post_rows_save by done.
    destruct (decide (post_id = pid)) as [<-|Hne].
    + rewrite lookup_insert_eq. intros [= <-].
      rewrite !bool_decide_eq_true_2 by done. lia.
    + rewrite lookup_insert_ne by done. intros Hq.
      rewrite !bool_decide_eq_false_2 by done. rewrite !Z.add_0_r. by apply Hposts.
  - destruct (comment_interaction_commits current_user now comment_id action d)
      as [->|(c & c' & i' & a & us & Hc & Ha & -> & _)]; [done|].
    split; simpl; [done|].
    pose proof (comment_action_counts _ _ _ _ _ _ Ha) as (Hl & Hd).
    apply comment_action_row in Ha as (_ & Hcid & _).
    destruct (found_comment_interaction_key current_user comment_id
                (comment_interactions d) now) as [_ Hkey].
    rewrite Hkey in Hcid.
    destruct (Hcomments _ _ Hc) as (Hcl & Hcd).
    intros cid q. rewrite !comment_rows_save by done.
    destruct (decide (comment_id = cid)) as [<-|Hne].
    + rewrite lookup_insert_eq. intros [= <-].
      rewrite !bool_decide_eq_true_2 by done. lia.
    + rewrite lookup_insert_ne by done. intros Hq.
      rewrite !bool_decide_eq_false_2 by done. rewrite !Z.add_0_r. by apply Hcomments.
  - destruct (choose_faction_tables current_user now post_id faction d)
      as (_ & ? & ? & ? & ?).
    by apply (counters_ok_same d).
  - destruct (init_user_scores_tables d) as (? & ? & ? & ? & _).
    by apply (counters_ok_same d).
Qed.

Lemma reachable_counters_ok (d : db F) : reachable d -> counters_ok d.
Proof.
  induction 1 as [|d d' Hr IH Hs]; [by split; intros k x Hk|].
  eapply step_counters_ok; eauto using reachable_targets_stored.
Qed.
End CountersStep.

(** ** Faction rows hold a faction *)

Section FactionsValid.
Context {F : Type} {PN : PyNum F}.

Lemma post_action_factions_valid current_user post_id action json_faction now p i fs
    p' i' fs' active :
  post_action current_user post_id action json_faction now p i fs
    = Continue p' i' fs' active ->
  Forall (fun r => upf_faction r ∈ ["pro"; "anti"]) fs ->
  Forall (fun r => upf_faction r ∈ ["pro"; "anti"]) fs'.
Proof.
  unfold post_action. intros H Hv.
  repeat (case_bool_decide || case_match); simplify_eq; try done.
  - rewrite delete_take_drop. apply Forall_app. split.
    + by apply Forall_take.
    + by apply Forall_drop.
  - by apply Forall_insert.
  - apply Forall_app. split; [done|]. by apply Forall_singleton.
Qed.

Lemma step_factions_valid (d d' : db F) :
  step d d' -> factions_valid d -> factions_valid d'.
Proof.
  intros Hs Hv. unfold factions_valid in *. destruct Hs.
  - done.
  - by destruct (new_post_tables current_user d) as (_ & _ & _ & _ & ->).
  - by destruct (post_tables current_user form now post_id d) as (_ & _ & _ & ->).
  - destruct (post_interaction_commits current_user json_faction now post_id action d)
      as [->|(p & p' & i' & fs & a & us & _ & Ha & -> & _)]; [done|].
    simpl. by eapply post_action_factions_valid.
  - by destruct (comment_interaction_commits current_user now comment_id action d)
      as [->|(c & c' & i' & a & us & _ & _ & -> & _)].
  - unfold choose_faction. repeat case_match; simpl; try done.
    case_bool_decide; [|done]. apply Forall_app. split; [done|].
    by apply Forall_singleton.
  - by destruct (init_user_scores_tables d) as (_ & _ & _ & _ & ->).
Qed.

Lemma reachable_factions_valid (d : db F) : reachable d -> factions_valid d.
Proof.
  induction 1 as [|d d' _ IH Hs]; [constructor|].
  by eapply step_factions_valid.
Qed.
End FactionsValid.

(** ** Invariants of the stored rows *)

(** X1. In every reachable database there is at most one interaction row per
    (user, post) and at most one per (user, comment): two rows with the same
    pair are the same row. *)
Theorem one_row_per_pair {F : Type} {PN : PyNum F} (d : db F) :
  reachable d ->
  (forall j k i1 i2,
     post_interactions d !! j = Some i1 -> post_interactions d !! k = Some i2 ->
     upi_user_id i1 = upi_user_id i2 -> upi_post_id i1 = upi_post_id i2 -> j = k)
  /\ (forall j k i1 i2,
        comment_interactions d !! j = Some i1 -> comment_interactions d !! k = Some i2 ->
        uci_user_id i1 = uci_user_id i2 -> uci_comment_id i1 = uci_comment_id i2 ->
        j = k).
Proof.
  intros Hr. destruct (reachable_interactions_unique d Hr) as [Hp Hc].
  split; intros j k i1 i2 Hj Hk Hu Ht.
  - apply (NoDup_lookup _ j k (interaction_key i1) Hp);
      rewrite list_lookup_fmap; [by rewrite Hj|rewrite Hk]; simpl.
    unfold interaction_key. by rewrite Hu, Ht.
  - apply (NoDup_lookup _ j k (comment_interaction_key i1) Hc);
      rewrite list_lookup_fmap; [by rewrite Hj|rewrite Hk]; simpl.
    unfold comment_interaction_key. by rewrite Hu, Ht.
Qed.

Lemma one_row_per_pair_witness :
  (forall j k i1 i2,
     post_interactions (db_liked (F := Q)) !! j = Some i1 ->
     post_interactions (db_liked (F := Q)) !! k = Some i2 ->
     upi_user_id i1 = upi_user_id i2 -> upi_post_id i1 = upi_post_id i2 -> j = k)
  /\ (forall j k i1 i2,
        comment_interactions (db_liked (F := Q)) !! j = Some i1 ->
        comment_interactions (db_liked (F := Q)) !! k = Some i2 ->
        uci_user_id i1 = uci_user_id i2 -> uci_comment_id i1 = uci_comment_id i2 ->
        j = k).
Proof. apply one_row_per_pair, reachable_db_liked. Defined.

(** X2. In every reachable database every interaction row belongs to a
    stored user and points to a stored post or comment. *)
Theorem interaction_rows_refer_to_stored {F : Type} {PN : PyNum F} (d : db F) :
  reachable d ->
  (forall i, i ∈ post_interactions d ->
     is_Some (users d !! upi_user_id i) /\ is_Some (posts d !! upi_post_id i))
  /\ (forall i, i ∈ comment_interactions d ->
        is_Some (users d !! uci_user_id i) /\ is_Some (comments d !! uci_comment_id i)).
Proof.
  intros Hr. destruct (reachable_voters_stored d Hr) as [Hvp Hvc].
  destruct (reachable_targets_stored d Hr) as [Htp Htc].
  rewrite Forall_forall in Hvp. rewrite Forall_forall in Hvc.
  rewrite Forall_forall in Htp. rewrite Forall_forall in Htc.
  split; intros i Hi; split; auto.
Qed.

Lemma interaction_rows_refer_to_stored_witness :
  (forall i, i ∈ post_interactions (db_liked (F := Q)) ->
     is_Some (users (db_liked (F := Q)) !! upi_user_id i)
     /\ is_Some (posts (db_liked (F := Q)) !! upi_post_id i))
  /\ (forall i, i ∈ comment_interactions (db_liked (F := Q)) ->
        is_Some (users (db_liked (F := Q)) !! uci_user_id i)
        /\ is_Some (comments (db_liked (F := Q)) !! uci_comment_id i)).
Proof. apply interaction_rows_refer_to_stored, reachable_db_liked. Defined.

(** X3. In every reachable database the three counters of every post equal
    the numbers of interaction rows of that post with the flag set; so none
    of them is negative. *)
Theorem post_counters_count_rows {F : Type} {PN : PyNum F} (d : db F)
    (post_id : Z) (p : PostModel) :
  reachable d ->
  posts d !! post_id = Some p ->
  p_like_count p = post_rows upi_liked post_id (post_interactions d)
  /\ p_dislike_count p = post_rows upi_disliked post_id (post_interactions d)
  /\ p_favorite_count p = post_rows upi_favorited post_id (post_interactions d)
  /\ 0 <= p_like_count p /\ 0 <= p_dislike_count p /\ 0 <= p_favorite_count p.
Proof.
  intros Hr Hp. destruct (reachable_counters_ok d Hr) as [Hposts _].
  destruct (Hposts _ _ Hp) as (Hl & Hd & Hf). rewrite Hl, Hd, Hf.
  repeat split; apply count_if_nonneg.
Qed.

Lemma post_counters_count_rows_witness :
  let p := {| p_author_id := 2; p_view_count := 0; p_like_count := 1;
              p_dislike_count := 0; p_favorite_count := 0 |} in
  p_like_count p = post_rows upi_liked 1 (post_interactions (db_liked (F := Q)))
  /\ p_dislike_count p = post_rows upi_disliked 1 (post_interactions (db_liked (F := Q)))
  /\ p_favorite_count p
     = post_rows upi_favorited 1 (post_interactions (db_liked (F := Q)))
  /\ 0 <= p_like_count p /\ 0 <= p_dislike_count p /\ 0 <= p_favorite_count p.
Proof.
  apply (post_counters_count_rows (db_liked (F := Q)) 1); [apply reachable_db_liked|].
  reflexivity.
Defined.

(** X4. In every reachable database the two counters of every comment equal
    the numbers of interaction rows of that comment with the flag set; so
    neither is negative. *)
Theorem comment_counters_count_rows {F : Type} {PN : PyNum F} (d : db F)
    (comment_id : Z) (c : CommentModel) :
  reachable d ->
  comments d !! comment_id = Some c ->
  c_like_count c = comment_rows uci_liked comment_id (comment_interactions d)
  /\ c_dislike_count c = comment_rows uci_disliked comment_id (comment_interactions d)
  /\ 0 <= c_like_count c /\ 0 <= c_dislike_count c.
Proof.
  intros Hr Hc. destruct (reachable_counters_ok d Hr) as [_ Hcomments].
  destruct (Hcomments _ _ Hc) as (Hl & Hd). rewrite Hl, Hd.
  repeat split; apply count_if_nonneg.
Qed.

Lemma comment_counters_count_rows_witness :
  let d := (comment_interaction 2 200 1 "like" (db_commented (F := Q))).2 in
  let c := {| c_content := "first"; c_author_id := 1; c_post_id := 1;
              c_like_count := 1; c_dislike_count := 0; c_faction := "neutral" |} in
  c_like_count c = comment_rows uci_liked 1 (comment_interactions d)
  /\ c_dislike_count c = comment_rows uci_disliked 1 (comment_interactions d)
  /\ 0 <= c_like_count c /\ 0 <= c_dislike_count c.
Proof.
  apply (comment_counters_count_rows
           (comment_interaction 2 200 1 "like" (db_commented (F := Q))).2 1).
  - eapply reachable_step; [apply reachable_db_commented|].
    apply step_comment_interaction. eexists. vm_compute. reflexivity.
  - reflexivity.
Defined.

(** X5. In every reachable database every faction row holds 'pro' or 'anti',
    and there is at most one faction row per (user, post). *)
Theorem faction_rows_valid_unique {F : Type} {PN : PyNum F} (d : db F) :
  reachable d ->
  (forall r, r ∈ post_factions d -> upf_faction r = "pro" \/ upf_faction r = "anti")
  /\ (forall j k r1 r2,
        post_factions d !! j = Some r1 -> post_factions d !! k = Some r2 ->
        upf_user_id r1 = upf_user_id r2 -> upf_post_id r1 = upf_post_id r2 -> j = k).
Proof.
  intros Hr. split.
  - intros r Hin. pose proof (reachable_factions_valid d Hr) as Hv.
    unfold factions_valid in Hv. rewrite Forall_forall in Hv. specialize (Hv r Hin).
    apply elem_of_cons in Hv as [Hv|Hv]; [by left|].
    apply elem_of_cons in Hv as [Hv|Hv]; [by right|]. by apply elem_of_nil in Hv.
  - intros j k r1 r2 Hj Hk Hu Hp. pose proof (reachable_factions_unique d Hr) as Hn.
    apply (NoDup_lookup _ j k (faction_key r1) Hn);
      rewrite list_lookup_fmap; [by rewrite Hj|rewrite Hk]; simpl.
    unfold faction_key. by rewrite Hu, Hp.
Qed.

Lemma faction_rows_valid_unique_witness :
  (forall r, r ∈ post_factions (db_pro (F := Q)) ->
     upf_faction r = "pro" \/ upf_faction r = "anti")
  /\ (forall j k r1 r2,
        post_factions (db_pro (F := Q)) !! j = Some r1 ->
        post_factions (db_pro (F := Q)) !! k = Some r2 ->
        upf_user_id r1 = upf_user_id r2 -> upf_post_id r1 = upf_post_id r2 -> j = k).
Proof. apply faction_rows_valid_unique, reachable_db_pro. Defined.

(** * Further properties: favorites, scores, pages *)

(** ** Favorites *)

Lemma post_action_favorite (current_user post_id now : Z)
    (json_faction : option string) (p : PostModel) (i : UserPostInteraction)
    (factions : list UserPostFaction) :
  post_action current_user post_id "favorite" json_faction now p i factions
  = Continue (set_favorite_count p
                (p_favorite_count p + (if upi_favorited i then -1 else 1)))
             (set_favorited i (negb (upi_favorited i))) factions
             (negb (upi_favorited i)).
Proof. unfold post_action. simpl. by destruct (upi_favorited i). Qed.

(** X6. The favorite action on an existing post toggles the actor's
    favorited flag and moves favorite_count by one; it leaves the liked and
    disliked flags, the like and dislike counts and every user (so every
    score) as they were.  A second favorite request restores the post and
    the flags: only the row's timestamp tells that anything happened. *)
Theorem favorite_toggles_alone {F : Type} {PN : PyNum F} (d : db F)
    (actor now1 now2 post_id : Z) (json1 json2 : option string) (p : PostModel) :
  posts d !! post_id = Some p ->
  let i := default {| upi_user_id := actor; upi_post_id := post_id;
                      upi_liked := false; upi_disliked := false;
                      upi_favorited := false; upi_interacted_at := now1 |}
                   (snd <$> find_post_interaction actor post_id (post_interactions d)) in
  let count1 := p_favorite_count p + (if upi_favorited i then -1 else 1) in
  let out1 := post_interaction actor json1 now1 post_id "favorite" d in
  let out2 := post_interaction actor json2 now2 post_id "favorite" out1.2 in
  (out1.1 = Ok (ResponseData "favorite" (negb (upi_favorited i)) count1)
   /\ users out1.2 = users d
   /\ posts out1.2 = <[post_id := set_favorite_count p count1]> (posts d)
   /\ exists k,
        find_post_interaction actor post_id (post_interactions out1.2)
        = Some (k, set_interacted_at (set_favorited i (negb (upi_favorited i))) now1))
  /\ (out2.1 = Ok (ResponseData "favorite" (upi_favorited i) (p_favorite_count p))
      /\ users out2.2 = users d
      /\ posts out2.2 = posts d
      /\ exists k,
           find_post_interaction actor post_id (post_interactions out2.2)
           = Some (k, set_interacted_at i now2)).
Proof.
  intros Hp i count1 out1 out2.
  assert ("favorite" ∉ ["like"; "dislike"]) as Hplain
    by (intros H; repeat (apply elem_of_cons in H as [H|H]; [discriminate|]);
        by apply elem_of_nil in H).
  destruct (found_post_interaction_key actor post_id (post_interactions d) now1)
    as [Hu Hpid]. fold i in Hu, Hpid.
  set (i1 := set_interacted_at (set_favorited i (negb (upi_favorited i))) now1).
  set (p1 := set_favorite_count p count1).
  assert (out1 = (Ok (ResponseData "favorite" (negb (upi_favorited i)) count1),
                  {| users := users d; posts := <[post_id := p1]> (posts d);
                     comments := comments d;
                     post_interactions :=
                       save_row (fst <$> find_post_interaction actor post_id
                                           (post_interactions d))
                                i1 (post_interactions d);
                     comment_interactions := comment_interactions d;
                     post_factions := post_factions d |})) as Hout1.
  { subst out1. erewrite post_interaction_plain; [|done|exact Hp|].
    2:{ apply post_action_favorite. }
    reflexivity. }
  destruct (list_find_save_row
              (fun x => upi_user_id x = actor /\ upi_post_id x = post_id)
              (post_interactions d) i1) as [k1 Hk1]; [done|].
  change (find_post_interaction actor post_id
            (save_row (fst <$> find_post_interaction actor post_id (post_interactions d))
                      i1 (post_interactions d)) = Some (k1, i1)) in Hk1.
  split.
  { rewrite Hout1. simpl. repeat split; eauto. }
  subst out2. rewrite Hout1. cbn [snd].
  erewrite post_interaction_plain; [|done|by apply lookup_insert_eq|].
  2:{ cbn [post_interactions post_factions]. rewrite Hk1.
      cbn [fmap option_fmap option_map snd default].
      apply post_action_favorite. }
  cbn [fst snd users posts post_interactions]. rewrite Hk1.
  cbn [fmap option_fmap option_map fst].
  unfold id. subst p1 i1 count1. clearbody i.
  split; [|split; [done|split]].
  - destruct i as [u q l dl [] t], p as [a v lc dc fc]; simpl; do 2 f_equal;
      unfold post_count_attr; simpl; lia.
  - rewrite insert_insert_eq. apply insert_id. rewrite Hp. f_equal.
    destruct i as [u q l dl [] t], p as [a v lc dc fc]; simpl; f_equal; lia.
  - match goal with
    | |- context [save_row (Some k1) ?r ?l] =>
        destruct (list_find_save_row
                    (fun x => upi_user_id x = actor /\ upi_post_id x = post_id)
                    l (set_interacted_at i now2)) as [k2 Hk2]; [done|];
        change (list_find (fun x => upi_user_id x = actor /\ upi_post_id x = post_id) l)
          with (find_post_interaction actor post_id l) in Hk2
    end.
    exists k2. rewrite Hk1 in Hk2. cbn [fmap option_fmap option_map fst] in Hk2.
    unfold find_post_interaction at 1.
    replace (set_interacted_at
               (set_favorited
                  (set_interacted_at (set_favorited i (negb (upi_favorited i))) now1)
                  (negb (upi_favorited
                           (set_interacted_at
                              (set_favorited i (negb (upi_favorited i))) now1))))
               now2)
      with (set_interacted_at i now2); [exact Hk2|].
    destruct i as [u q l dl [] t]; reflexivity.
Qed.

Lemma favorite_toggles_alone_witness :
  let p := {| p_author_id := 2; p_view_count := 0; p_like_count := 1;
              p_dislike_count := 0; p_favorite_count := 0 |} in
  let i := default {| upi_user_id := 1; upi_post_id := 1;
                      upi_liked := false; upi_disliked := false;
                      upi_favorited := false; upi_interacted_at := 200 |}
                   (snd <$> find_post_interaction 1 1
                              (post_interactions (db_liked (F := Q)))) in
  let count1 := p_favorite_count p + (if upi_favorited i then -1 else 1) in
  let out1 := post_interaction 1 None 200 1 "favorite" (db_liked (F := Q)) in
  let out2 := post_interaction 1 None 300 1 "favorite" out1.2 in
  (out1.1 = Ok (ResponseData "favorite" (negb (upi_favorited i)) count1)
   /\ users out1.2 = users (db_liked (F := Q))
   /\ posts out1.2 = <[1 := set_favorite_count p count1]> (posts (db_liked (F := Q)))
   /\ exists k,
        find_post_interaction 1 1 (post_interactions out1.2)
        = Some (k, set_interacted_at (set_favorited i (negb (upi_favorited i))) 200))
  /\ (out2.1 = Ok (ResponseData "favorite" (upi_favorited i) (p_favorite_count p))
      /\ users out2.2 = users (db_liked (F := Q))
      /\ posts out2.2 = posts (db_liked (F := Q))
      /\ exists k,
           find_post_interaction 1 1 (post_interactions out2.2)
           = Some (k, set_interacted_at i 300)).
Proof.
  apply (favorite_toggles_alone (db_liked (F := Q)) 1 200 300 1 None None
           {| p_author_id := 2; p_view_count := 0; p_like_count := 1;
              p_dislike_count := 0; p_favorite_count := 0 |}).
  reflexivity.
Defined.


(** ** Votes and the author's score *)

Lemma post_action_changes current_user post_id action json_faction now p i fs :
  action ∈ ["like"; "dislike"] ->
  exists p' i' active,
    post_action current_user post_id action json_faction now p i fs
    = Continue p' i' fs active
    /\ p_author_id p' = p_author_id p
    /\ (upi_liked i <> upi_liked i' \/ upi_disliked i <> upi_disliked i').
Proof.
  intros H. repeat (apply elem_of_cons in H as [->|H]);
    [| |by apply elem_of_nil in H];
    destruct i as [u q [] [] f t]; simpl; eexists _, _, _;
    (split; [reflexivity|]); split; try reflexivity; simpl; auto.
Qed.

Lemma comment_action_changes action c i :
  action ∈ ["like"; "dislike"] ->
  exists c' i' active,
    comment_action action c i = (c', i', Some active)
    /\ c_author_id c' = c_author_id c
    /\ is_Some (comment_count_attr action c')
    /\ (uci_liked i <> uci_liked i' \/ uci_disliked i <> uci_disliked i').
Proof.
  intros H. repeat (apply elem_of_cons in H as [->|H]);
    [| |by apply elem_of_nil in H];
    destruct i as [u q [] [] t]; simpl; eexists _, _, _;
    (split; [reflexivity|]); (split; [reflexivity|]); (split; [by eexists|]);
    simpl; auto.
Qed.

(** X7. A like or dislike request on an existing post always changes one
    of the two flags, so it always recomputes the score of the post's
    author: the request ends with the users table changed at the author's
    row only, whose score is the value [update_score] returns, at least 1,
    on the database of the first commit (the new flags and counts with the
    scores stored before the request). *)
Theorem post_vote_rescores_author (d : db Q) (actor now post_id : Z)
    (json_faction : option string) (action : string) (p : PostModel)
    (author : UserModel Q) :
  reachable d ->
  action ∈ ["like"; "dislike"] ->
  posts d !! post_id = Some p ->
  users d !! p_author_id p = Some author ->
  let out := post_interaction actor json_faction now post_id action d in
  exists r,
    (1 <= r)%Q
    /\ users out.2 = <[p_author_id p := set_score author (Some r)]> (users d)
    /\ update_score (p_author_id p) author (set_users out.2 (users d)) = Ok (r, out.2)
    /\ exists active count, out.1 = Ok (ResponseData action active count).
Proof.
  intros Hr Hact Hp Hau out.
  destruct (reachable_scores_ok d Hr _ _ Hau) as (s & Hsc & Hs).
  subst out. unfold post_interaction. rewrite Hp.
  set (i := default _ _).
  destruct (post_action_changes actor post_id action json_faction now p i
              (post_factions d) Hact) as (p' & i' & active & -> & Hpa & Hch).
  rewrite (bool_decide_eq_true_2 _ Hact).
  assert (bool_decide (upi_liked i <> upi_liked (set_interacted_at i' now))
          || bool_decide (upi_disliked i <> upi_disliked (set_interacted_at i' now))
          = true) as ->.
  { apply orb_true_iff. destruct Hch; [left|right]; by apply bool_decide_eq_true_2. }
  cbn [andb users set_post_factions set_post_interactions set_posts].
  rewrite Hpa, Hau.
  match goal with
  | |- context [update_score _ _ ?d1] =>
      destruct (update_score_defined d1 (p_author_id p) author s Hsc Hs) as [r Hup]
  end.
  rewrite Hup. exists r. cbn [fst snd users set_users].
  split; [by eapply update_score_floor|].
  split; [done|]. split; [|by eauto].
  destruct d. exact Hup.
Qed.

Lemma post_vote_rescores_author_witness :
  let p := {| p_author_id := 2; p_view_count := 0; p_like_count := 0;
              p_dislike_count := 0; p_favorite_count := 0 |} in
  let author : UserModel Q := {| score := Some (of_Z 1); post_count := 1 |} in
  let out := post_interaction 1 None 100 1 "dislike" (db_posted (F := Q)) in
  exists r,
    (1 <= r)%Q
    /\ users out.2 = <[p_author_id p := set_score author (Some r)]> (users db_posted)
    /\ update_score (p_author_id p) author (set_users out.2 (users db_posted))
       = Ok (r, out.2)
    /\ exists active count, out.1 = Ok (ResponseData "dislike" active count).
Proof.
  apply (post_vote_rescores_author (db_posted (F := Q)) 1 100 1 None "dislike"
           {| p_author_id := 2; p_view_count := 0; p_like_count := 0;
              p_dislike_count := 0; p_favorite_count := 0 |}
           {| score := Some (of_Z 1); post_count := 1 |});
    [apply reachable_db_posted| |reflexivity|reflexivity].
  apply elem_of_cons. right. apply elem_of_cons. by left.
Defined.


(** X8. The same for comments: a like or dislike request on an existing
    comment always recomputes the score of the comment's author, changes no
    other user, and answers with the new state and count. *)
Theorem comment_vote_rescores_author (d : db Q) (actor now comment_id : Z)
    (action : string) (c : CommentModel) (author : UserModel Q) :
  reachable d ->
  action ∈ ["like"; "dislike"] ->
  comments d !! comment_id = Some c ->
  users d !! c_author_id c = Some author ->
  let out := comment_interaction actor now comment_id action d in
  exists r,
    (1 <= r)%Q
    /\ users out.2 = <[c_author_id c := set_score author (Some r)]> (users d)
    /\ update_score (c_author_id c) author (set_users out.2 (users d)) = Ok (r, out.2)
    /\ exists active count, out.1 = Ok (ResponseData action active count).
Proof.
  intros Hr Hact Hc Hau out.
  destruct (reachable_scores_ok d Hr _ _ Hau) as (s & Hsc & Hs).
  subst out. unfold comment_interaction. rewrite Hc.
  set (i := default _ _).
  destruct (comment_action_changes action c i Hact)
    as (c' & i' & active & -> & Hca & [count Hcount] & Hch).
  rewrite (bool_decide_eq_true_2 _ Hact).
  assert (bool_decide (uci_liked i <> uci_liked (set_c_interacted_at i' now))
          || bool_decide (uci_disliked i <> uci_disliked (set_c_interacted_at i' now))
          = true) as ->.
  { apply orb_true_iff. destruct Hch; [left|right]; by apply bool_decide_eq_true_2. }
  cbn [andb users set_comment_interactions set_comments].
  rewrite Hca, Hau.
  match goal with
  | |- context [update_score _ _ ?d1] =>
      destruct (update_score_defined d1 (c_author_id c) author s Hsc Hs) as [r Hup]
  end.
  rewrite Hup. exists r. cbn [fst snd users set_users].
  split; [by eapply update_score_floor|].
  split; [done|]. split; [destruct d; exact Hup|].
  unfold comment_response. rewrite Hcount. eauto.
Qed.

Lemma comment_vote_rescores_author_witness :
  let c := {| c_content := "first"; c_author_id := 1; c_post_id := 1;
              c_like_count := 0; c_dislike_count := 0; c_faction := "neutral" |} in
  let author : UserModel Q := {| score := Some (of_Z 1); post_count := 0 |} in
  let out := comment_interaction 2 70 1 "like" (db_commented (F := Q)) in
  exists r,
    (1 <= r)%Q
    /\ users out.2 = <[c_author_id c := set_score author (Some r)]> (users db_commented)
    /\ update_score (c_author_id c) author (set_users out.2 (users db_commented))
       = Ok (r, out.2)
    /\ exists active count, out.1 = Ok (ResponseData "like" active count).
Proof.
  apply (comment_vote_rescores_author (db_commented (F := Q)) 2 70 1 "like"
           {| c_content := "first"; c_author_id := 1; c_post_id := 1;
              c_like_count := 0; c_dislike_count := 0; c_faction := "neutral" |}
           {| score := Some (of_Z 1); post_count := 0 |});
    [apply reachable_db_commented| |reflexivity|reflexivity].
  apply elem_of_cons. by left.
Defined.


Section Profile.
Context {F : Type} {PN : PyNum F}.

Lemma same_rows_refl {A : Type} (R : A -> A -> Prop) m :
  (forall x, R x x) -> same_rows R m m.
Proof. intros HR k. destruct (m !! k); by constructor. Qed.

Lemma same_rows_insert {A : Type} (R : A -> A -> Prop) m k x x' :
  (forall y, R y y) -> m !! k = Some x -> R x x' -> same_rows R m (<[k := x']> m).
Proof.
  intros HR Hk Hx j. destruct (decide (j = k)) as [->|Hne].
  - rewrite lookup_insert_eq, Hk. by constructor.
  - rewrite lookup_insert_ne by done. destruct (m !! j); by constructor.
Qed.

Lemma same_rows_trans {A : Type} (R : A -> A -> Prop) m1 m2 m3 :
  (forall x y z, R x y -> R y z -> R x z) ->
  same_rows R m1 m2 -> same_rows R m2 m3 -> same_rows R m1 m3.
Proof.
  intros HR H12 H23 k. specialize (H12 k). specialize (H23 k).
  destruct H12; inversion H23; subst; constructor; eauto.
Qed.

Lemma same_rows_kept {A : Type} (R R' : A -> A -> Prop) m m' :
  (forall x y, R x y -> R' x y) -> same_rows R m m' -> rows_kept R' m m'.
Proof.
  intros HR H k x Hk. specialize (H k). rewrite Hk in H.
  inversion H; subst. eauto.
Qed.

Lemma same_rows_is_Some {A : Type} (R : A -> A -> Prop) m m' k :
  same_rows R m m' -> is_Some (m !! k) <-> is_Some (m' !! k).
Proof.
  intros H. specialize (H k). destruct H; split; intros [? ?]; eauto; discriminate.
Qed.

Lemma post_kept_refl (p : PostModel) : post_kept p p.
Proof. split; [done|lia]. Qed.

Lemma comment_kept_refl (c : CommentModel) : comment_kept c c.
Proof. by repeat split. Qed.

Lemma post_action_view current_user post_id action json_faction now p i fs
    p' i' fs' active :
  post_action current_user post_id action json_faction now p i fs
    = Continue p' i' fs' active ->
  post_kept p p'.
Proof.
  unfold post_action. destruct i as [u q [] [] [] t]; simpl; intros H.
  all: repeat (case_bool_decide || case_match); simplify_eq; simpl;
    split; simpl; (done || lia).
Qed.

Lemma comment_action_kept action c i c' i' active :
  comment_action action c i = (c', i', active) -> comment_kept c c'.
Proof.
  unfold comment_action. destruct i as [u q [] [] t]; simpl; intros H.
  all: repeat (case_bool_decide || case_match); simplify_eq; simpl;
    by repeat split.
Qed.

Lemma update_scores_rescored ids (d d' : db F) :
  update_scores ids d = Ok d' -> same_rows rescored (users d) (users d').
Proof.
  revert d. induction ids as [|i ids IH]; intros d H; cbn [update_scores] in H.
  - inversion H; subst. by apply same_rows_refl.
  - destruct (users d !! i) as [u|] eqn:Hu; [|by apply IH].
    destruct (update_score i u d) as [[r d1]|] eqn:Hs; [|discriminate].
    apply update_score_writes in Hs. subst d1.
    eapply same_rows_trans; [unfold rescored; congruence| |by apply IH].
    by eapply same_rows_insert.
Qed.

(** What one committed request does to users, posts and comments. *)
Lemma step_cases (d d' : db F) :
  step d d' ->
  d' = register d
  \/ (exists u, is_Some (users d !! u) /\ d' = new_post u d)
  \/ (same_rows rescored (users d) (users d')
      /\ same_rows post_kept (posts d) (posts d')
      /\ (same_rows comment_kept (comments d) (comments d')
          \/ exists c,
               is_Some (users d !! c_author_id c)
               /\ is_Some (posts d !! c_post_id c)
               /\ comments d' = <[next_id (comments d) := c]> (comments d))).
Proof.
  intros Hs. destruct Hs as [d|d u Hu|d u form now post_id Hu
                             |d u jf now post_id action Hu
                             |d u now comment_id action Hu
                             |d u now post_id faction Hu|d].
  - by left.
  - right. left. eauto.
  - right. right. unfold post.
    destruct (posts d !! post_id) as [p|] eqn:Hp.
    2:{ repeat split; [by apply same_rows_refl|apply same_rows_refl, post_kept_refl|].
        left. apply same_rows_refl, comment_kept_refl. }
    assert (same_rows post_kept (posts d)
              (<[post_id := set_view_count p (p_view_count p + 1)]> (posts d))) as Hposts.
    { eapply same_rows_insert; [apply post_kept_refl|exact Hp|]. split; simpl; [done|lia]. }
    destruct form as [form|], u as [u|]; simpl.
    2-4: (repeat split; [by apply same_rows_refl|done|];
          left; apply same_rows_refl, comment_kept_refl).
    destruct (form_content form) as [[|a content]|]; simpl.
    1,3: (repeat split; [by apply same_rows_refl|done|];
          left; apply same_rows_refl, comment_kept_refl).
    case_bool_decide; [destruct (find_post_faction_in _ _ _ _)|]; simpl.
    all: repeat split; [by apply same_rows_refl|done|].
    2: left; apply same_rows_refl, comment_kept_refl.
    all: right; eexists; split_and!; cycle 2;
      [reflexivity|simpl; by apply Hu|simpl; by eexists].
  - right. right.
    destruct (post_interaction_commits u jf now post_id action d)
      as [->|(p & p' & i' & fs & a & us & Hp & Ha & -> & Hus)].
    { repeat split; [by apply same_rows_refl|apply same_rows_refl, post_kept_refl|].
      left. apply same_rows_refl, comment_kept_refl. }
    cbn [users posts comments]. split_and!.
    + destruct Hus as [->|(au & r & d1 & Hau & _ & ->)]; [by apply same_rows_refl|].
      by eapply same_rows_insert.
    + eapply same_rows_insert; [apply post_kept_refl|exact Hp|].
      by eapply post_action_view.
    + left. apply same_rows_refl, comment_kept_refl.
  - right. right.
    destruct (comment_interaction_commits u now comment_id action d)
      as [->|(c & c' & i' & a & us & Hc & Ha & -> & Hus)].
    { repeat split; [by apply same_rows_refl|apply same_rows_refl, post_kept_refl|].
      left. apply same_rows_refl, comment_kept_refl. }
    cbn [users posts comments]. split_and!.
    + destruct Hus as [->|(au & r & d1 & Hau & _ & ->)]; [by apply same_rows_refl|].
      by eapply same_rows_insert.
    + apply same_rows_refl, post_kept_refl.
    + left. eapply same_rows_insert; [apply comment_kept_refl|exact Hc|].
      by eapply comment_action_kept.
  - right. right.
    destruct (choose_faction_tables u now post_id faction d) as (-> & -> & -> & _).
    repeat split; [by apply same_rows_refl|apply same_rows_refl, post_kept_refl|].
    left. apply same_rows_refl, comment_kept_refl.
  - right. right.
    destruct (init_user_scores_tables d) as (-> & -> & _).
    split_and!; [|apply same_rows_refl, post_kept_refl|
                 left; apply same_rows_refl, comment_kept_refl].
    unfold init_user_scores.
    destruct (update_scores _ d) as [d1|] eqn:Hup; simpl; [|by apply same_rows_refl].
    by eapply update_scores_rescored.
Qed.

Lemma rows_kept_refl {A : Type} (R : A -> A -> Prop) (m : gmap Z A) :
  (forall x, R x x) -> rows_kept R m m.
Proof. intros HR k x Hk. eauto. Qed.

Lemma rows_kept_trans {A : Type} (R : A -> A -> Prop) (m1 m2 m3 : gmap Z A) :
  (forall x y z, R x y -> R y z -> R x z) ->
  rows_kept R m1 m2 -> rows_kept R m2 m3 -> rows_kept R m1 m3.
Proof.
  intros HR H12 H23 k x Hk.
  destruct (H12 _ _ Hk) as (y & Hy & Hxy). destruct (H23 _ _ Hy) as (z & Hz & Hyz).
  eauto.
Qed.

Lemma rows_kept_fresh {A : Type} (R : A -> A -> Prop) (m : gmap Z A) k x :
  (forall y, R y y) -> m !! k = None -> rows_kept R m (<[k := x]> m).
Proof.
  intros HR Hk j y Hj. exists y. split; [|done].
  rewrite lookup_insert_ne; [done|]. intros ->. congruence.
Qed.

Lemma user_kept_refl (u : UserModel F) : user_kept u u.
Proof. unfold user_kept. lia. Qed.

Lemma content_kept_refl (d : db F) : content_kept d d.
Proof.
  split_and!; apply rows_kept_refl;
    [apply user_kept_refl|apply post_kept_refl|apply comment_kept_refl].
Qed.

Lemma content_kept_trans (d1 d2 d3 : db F) :
  content_kept d1 d2 -> content_kept d2 d3 -> content_kept d1 d3.
Proof.
  intros (Hu1 & Hp1 & Hc1) (Hu2 & Hp2 & Hc2).
  split_and!.
  - eapply (rows_kept_trans user_kept); [|exact Hu1|exact Hu2].
    unfold user_kept. intros; lia.
  - eapply (rows_kept_trans post_kept); [|exact Hp1|exact Hp2].
    unfold post_kept. intros x y z [Ha ?] [Hb ?]. split; [congruence|lia].
  - eapply (rows_kept_trans comment_kept); [|exact Hc1|exact Hc2].
    unfold comment_kept. intros x y z (? & ? & ? & ?) (? & ? & ? & ?).
    split_and!; congruence.
Qed.

Lemma step_content_kept (d d' : db F) : step d d' -> content_kept d d'.
Proof.
  intros Hs. destruct (step_cases d d' Hs)
    as [->|[(u & [usr Hu] & ->)|(Hus & Hps & Hcs)]].
  - split_and!; [|apply rows_kept_refl, post_kept_refl
                 |apply rows_kept_refl, comment_kept_refl].
    apply rows_kept_fresh; [apply user_kept_refl|apply next_id_fresh].
  - unfold new_post. rewrite Hu. cbn [users posts comments set_users set_posts].
    split_and!; [| |apply rows_kept_refl, comment_kept_refl].
    + eapply same_rows_kept; [|eapply same_rows_insert; [apply user_kept_refl|exact Hu|]];
        [done|]. unfold user_kept. simpl. lia.
    + apply rows_kept_fresh; [apply post_kept_refl|apply next_id_fresh].
  - split_and!.
    + eapply same_rows_kept; [|exact Hus]. unfold rescored, user_kept. intros; lia.
    + by eapply same_rows_kept.
    + destruct Hcs as [Hcs|(c & _ & _ & ->)]; [by eapply same_rows_kept|].
      apply rows_kept_fresh; [apply comment_kept_refl|apply next_id_fresh].
Qed.

(** ** Authors and post counts *)

Lemma posts_by_same (d d' : db F) k :
  same_rows post_kept (posts d) (posts d') ->
  size (posts_by k d') = size (posts_by k d).
Proof.
  intros H. rewrite <- !size_dom. f_equal. apply set_eq. intros j.
  rewrite !elem_of_dom. unfold posts_by, is_Some.
  setoid_rewrite map_lookup_filter_Some. specialize (H j).
  destruct H as [p p' [Ha _]|]; simpl; [|naive_solver].
  split; intros (x & Hx & Hau); simplify_eq; simpl in *; eauto.
Qed.

Lemma posts_by_users (d : db F) us k : posts_by k (set_users d us) = posts_by k d.
Proof. reflexivity. Qed.

Lemma posts_by_unstored (d : db F) k :
  authors_stored d -> users d !! k = None -> size (posts_by k d) = 0%nat.
Proof.
  intros [Hau _] Hk. apply map_size_empty_iff, map_empty_filter.
  intros j p Hj Hp. simpl in Hp. subst k.
  destruct (Hau _ _ Hj) as [? ?]. congruence.
Qed.

Lemma step_authors_stored (d d' : db F) :
  step d d' -> authors_stored d -> authors_stored d'.
Proof.
  intros Hs [Hps Hcs].
  pose proof (step_content_kept d d' Hs) as (Hku & Hkp & _).
  assert (forall k, is_Some (users d !! k) -> is_Some (users d' !! k)) as Husers.
  { intros k [u Hk]. destruct (Hku _ _ Hk) as (? & ? & _). eauto. }
  assert (forall k, is_Some (posts d !! k) -> is_Some (posts d' !! k)) as Hposts.
  { intros k [p Hk]. destruct (Hkp _ _ Hk) as (? & ? & _). eauto. }
  destruct (step_cases d d' Hs)
    as [->|[(u & [usr Hu] & ->)|(Hus & Hps' & Hcs')]].
  - split; intros k x Hk; [apply Husers, (Hps _ _ Hk)|].
    destruct (Hcs _ _ Hk). split; [by apply Husers|done].
  - split.
    + intros k p Hk. apply Husers. revert Hk. unfold new_post. rewrite Hu.
      cbn [posts set_users set_posts]. intros [[_ <-]|[_ Hk]]%lookup_insert_Some;
        [by eexists|by eapply Hps].
    + intros k c Hk.
      assert (comments d !! k = Some c) as Hk'
        by (revert Hk; unfold new_post; by rewrite Hu).
      destruct (Hcs _ _ Hk'). split; [by apply Husers|by apply Hposts].
  - split.
    + intros k p' Hk. specialize (Hps' k). rewrite Hk in Hps'.
      inversion Hps' as [p ? [Ha _] Hp|]; subst. rewrite Ha.
      apply Husers. eapply Hps. eauto.
    + intros k c' Hk.
      assert (forall c, comment_kept c c' -> comments d !! k = Some c ->
                is_Some (users d' !! c_author_id c')
                /\ is_Some (posts d' !! c_post_id c')) as Hold.
      { intros c (_ & -> & -> & _) Hc. destruct (Hcs _ _ Hc).
        split; [by apply Husers|by apply Hposts]. }
      destruct Hcs' as [Hcs'|(c & Hcu & Hcp & Heq)].
      * specialize (Hcs' k). rewrite Hk in Hcs'. inversion Hcs'; subst. eauto.
      * rewrite Heq in Hk. apply lookup_insert_Some in Hk as [[_ <-]|[_ Hk]].
        -- split; [by apply Husers|by apply Hposts].
        -- eapply Hold; [apply comment_kept_refl|done].
Qed.

Lemma step_post_counts_ok (d d' : db F) :
  step d d' -> authors_stored d -> post_counts_ok d -> post_counts_ok d'.
Proof.
  intros Hs Hau Hok.
  destruct (step_cases d d' Hs)
    as [->|[(u & [usr Hu] & ->)|(Hus & Hps' & Hcs')]].
  - intros k x. unfold register. cbn [users set_users]. rewrite posts_by_users.
    intros [[<- <-]|[_ Hk]]%lookup_insert_Some; [|by apply Hok].
    simpl. rewrite posts_by_unstored; [done|done|apply next_id_fresh].
  - intros k x. unfold new_post. rewrite Hu. cbn [users set_users set_posts].
    rewrite posts_by_users. unfold posts_by. cbn [posts set_posts].
    intros [[<- <-]|[Hne Hk]]%lookup_insert_Some.
    + rewrite map_filter_insert_True by done.
      rewrite map_size_insert_None
        by (apply map_lookup_filter_None; left; apply next_id_fresh).
      simpl. rewrite (Hok _ _ Hu). unfold posts_by. lia.
    + rewrite map_filter_insert_not' ; [by apply Hok|simpl; congruence|].
      intros y. by rewrite next_id_fresh.
  - intros k u' Hk. rewrite (posts_by_same d d') by done.
    specialize (Hus k). rewrite Hk in Hus. inversion Hus as [u ? Hr Hu|]; subst.
    rewrite Hr. by apply Hok.
Qed.

Lemma reachable_profile (d : db F) :
  reachable d -> authors_stored d /\ post_counts_ok d.
Proof.
  induction 1 as [|d d' _ [IHa IHc] Hs].
  - split; [split; apply map_Forall_empty|]. intros k u Hk.
    unfold empty_db in Hk. simpl in Hk. by rewrite lookup_empty in Hk.
  - split; [by eapply step_authors_stored|by eapply step_post_counts_ok].
Qed.
End Profile.

(** X9. Between two databases linked by any number of committed requests,
    no user, post or comment disappears; a post keeps its author and its
    view count does not go down; a comment keeps its content, author, post
    and faction; a user's post_count does not go down. *)
Theorem content_is_kept {F : Type} {PN : PyNum F} (d d' : db F) :
  rtc step d d' -> content_kept d d'.
Proof.
  induction 1 as [d|d1 d2 d3 Hs _ IH]; [apply content_kept_refl|].
  eapply content_kept_trans; [by apply step_content_kept|exact IH].
Qed.

Lemma content_is_kept_witness :
  content_kept (db_posted (F := Q)) (db_liked (F := Q)).
Proof.
  apply content_is_kept, rtc_once.
  apply (step_post_interaction db_posted 1 None 100 1 "like"). by eexists.
Defined.

(** X10. In every reachable database every post has a stored author,
    every comment has a stored author and a stored post, and the
    post_count of every user is the number of posts the profile page
    queries for that user. *)
Theorem profile_counts_posts {F : Type} {PN : PyNum F} (d : db F) :
  reachable d ->
  (forall k p, posts d !! k = Some p -> is_Some (users d !! p_author_id p))
  /\ (forall k c, comments d !! k = Some c ->
        is_Some (users d !! c_author_id c) /\ is_Some (posts d !! c_post_id c))
  /\ (forall k u, users d !! k = Some u ->
        post_count u = Z.of_nat (size (posts_by k d))).
Proof.
  intros Hr. destruct (reachable_profile d Hr) as [[Hp Hc] Hn].
  split_and!; [exact Hp|exact Hc|exact Hn].
Qed.

Lemma profile_counts_posts_witness :
  (forall k p, posts (db_commented (F := Q)) !! k = Some p ->
     is_Some (users (db_commented (F := Q)) !! p_author_id p))
  /\ (forall k c, comments (db_commented (F := Q)) !! k = Some c ->
        is_Some (users (db_commented (F := Q)) !! c_author_id c)
        /\ is_Some (posts (db_commented (F := Q)) !! c_post_id c))
  /\ (forall k u, users (db_commented (F := Q)) !! k = Some u ->
        post_count u = Z.of_nat (size (posts_by k (db_commented (F := Q))))).
Proof. apply profile_counts_posts, reachable_db_commented. Defined.

Section Sign.
Local Open Scope Q_scope.

Lemma voter_weight_pos (v : option Q) (s : Q) (k c : Z) :
  (0 < k)%Z -> (0 < c)%Z -> 1 <= s ->
  0 < py_max (py_or v (of_Z 1)) (of_Z 1) / (inject_Z k * (1 + s / inject_Z c)).
Proof.
  intros Hk Hc Hs.
  pose proof (py_max_floor (py_or v (of_Z 1))) as Hv.
  assert (0 < inject_Z k) as Hk' by (change 0 with (inject_Z 0); by rewrite <- Zlt_Qlt).
  assert (0 < inject_Z c) as Hc' by (change 0 with (inject_Z 0); by rewrite <- Zlt_Qlt).
  assert (0 < s / inject_Z c) as Hd by (apply Qlt_shift_div_l; lra).
  apply Qlt_shift_div_l; [apply Qmult_lt_0_compat; lra|lra].
Qed.

Lemma score_post_interactions_sign (s : Q) rows acc :
  1 <= s ->
  exists r,
    score_post_interactions (Some s) rows acc = Ok r
    /\ (Forall (fun iu => upi_liked iu.1 = false) rows -> r <= acc)
    /\ (Forall (fun iu => negb (upi_liked iu.1) && upi_disliked iu.1 = false) rows ->
        acc <= r
        /\ (Exists (fun iu => upi_liked iu.1 = true) rows -> acc < r)).
Proof.
  intros Hs. revert acc. induction rows as [|[i u] rows IH]; intros acc.
  { exists acc. split; [done|]. split; [intros; apply Qle_refl|].
    intros _. split; [apply Qle_refl|]. by intros ?%Exists_nil. }
  cbn [score_post_interactions].
  pose proof (voter_weight_pos (score u) s 500 10 eq_refl eq_refl Hs) as Hl.
  pose proof (voter_weight_pos (score u) s 500 20 eq_refl eq_refl Hs) as Hd.
  destruct (upi_liked i) eqn:Eli; [|destruct (upi_disliked i) eqn:Edi];
    rewrite ?weight_defined by (done || lia); cbn [mbind result_bind].
  - destruct (IH (add acc (py_max (py_or (score u) (of_Z 1)) (of_Z 1)
                             / (inject_Z 500 * (1 + s / inject_Z 10)))))
      as (r & -> & Hno & Hyes).
    exists r. split; [done|]. simpl in *. split.
    + intros [H _]%Forall_cons. simpl in H. congruence.
    + intros [_ H]%Forall_cons. destruct (Hyes H) as [Hle _].
      assert (acc < r) by lra. split; [lra|done].
  - destruct (IH (sub acc (py_max (py_or (score u) (of_Z 1)) (of_Z 1)
                             / (inject_Z 500 * (1 + s / inject_Z 20)))))
      as (r & -> & Hno & Hyes).
    exists r. split; [done|]. simpl in *. split.
    + intros [_ H]%Forall_cons. specialize (Hno H). lra.
    + intros [H _]%Forall_cons. simpl in H. rewrite Eli, Edi in H. discriminate.
  - destruct (IH acc) as (r & -> & Hno & Hyes).
    exists r. split; [done|]. split.
    + intros [_ H]%Forall_cons. auto.
    + intros [_ H]%Forall_cons. destruct (Hyes H) as [Hle Hlt]. split; [done|].
      intros [H'|H']%Exists_cons; [simpl in H'; congruence|auto].
Qed.

Lemma score_comment_interactions_sign (s : Q) rows acc :
  1 <= s ->
  exists r,
    score_comment_interactions (Some s) rows acc = Ok r
    /\ (Forall (fun iu => uci_liked iu.1 = false) rows -> r <= acc)
    /\ (Forall (fun iu => negb (uci_liked iu.1) && uci_disliked iu.1 = false) rows ->
        acc <= r
        /\ (Exists (fun iu => uci_liked iu.1 = true) rows -> acc < r)).
Proof.
  intros Hs. revert acc. induction rows as [|[i u] rows IH]; intros acc.
  { exists acc. split; [done|]. split; [intros; apply Qle_refl|].
    intros _. split; [apply Qle_refl|]. by intros ?%Exists_nil. }
  cbn [score_comment_interactions].
  pose proof (voter_weight_pos (score u) s 100 5 eq_refl eq_refl Hs) as Hl.
  pose proof (voter_weight_pos (score u) s 100 10 eq_refl eq_refl Hs) as Hd.
  destruct (uci_liked i) eqn:Eli; [|destruct (uci_disliked i) eqn:Edi];
    rewrite ?weight_defined by (done || lia); cbn [mbind result_bind].
  - destruct (IH (add acc (py_max (py_or (score u) (of_Z 1)) (of_Z 1)
                             / (inject_Z 100 * (1 + s / inject_Z 5)))))
      as (r & -> & Hno & Hyes).
    exists r. split; [done|]. simpl in *. split.
    + intros [H _]%Forall_cons. simpl in H. congruence.
    + intros [_ H]%Forall_cons. destruct (Hyes H) as [Hle _].
      assert (acc < r) by lra. split; [lra|done].
  - destruct (IH (sub acc (py_max (py_or (score u) (of_Z 1)) (of_Z 1)
                             / (inject_Z 100 * (1 + s / inject_Z 10)))))
      as (r & -> & Hno & Hyes).
    exists r. split; [done|]. simpl in *. split.
    + intros [_ H]%Forall_cons. specialize (Hno H). lra.
    + intros [H _]%Forall_cons. simpl in H. rewrite Eli, Edi in H. discriminate.
  - destruct (IH acc) as (r & -> & Hno & Hyes).
    exists r. split; [done|]. split.
    + intros [_ H]%Forall_cons. auto.
    + intros [_ H]%Forall_cons. destruct (Hyes H) as [Hle Hlt]. split; [done|].
      intros [H'|H']%Exists_cons; [simpl in H'; congruence|auto].
Qed.

End Sign.

(** X12. For a stored user of a reachable database [update_score] never
    fails.  If no row of its two queries is liked, the new score is 1
    whatever the dislikes; if no row is counted as a dislike and some row is
    liked, the new score is above 1. *)
Theorem score_follows_votes (d : db Q) (self_id : Z) (self : UserModel Q) :
  reachable d ->
  users d !! self_id = Some self ->
  exists r d',
    update_score self_id self d = Ok (r, d')
    /\ ((forall iu, iu ∈ post_interactions_of self_id d -> upi_liked iu.1 = false) ->
        (forall iu, iu ∈ comment_interactions_of self_id d -> uci_liked iu.1 = false) ->
        (r == 1)%Q)
    /\ ((forall iu, iu ∈ post_interactions_of self_id d ->
           negb (upi_liked iu.1) && upi_disliked iu.1 = false) ->
        (forall iu, iu ∈ comment_interactions_of self_id d ->
           negb (uci_liked iu.1) && uci_disliked iu.1 = false) ->
        (exists iu, iu ∈ post_interactions_of self_id d /\ upi_liked iu.1 = true)
        \/ (exists iu, iu ∈ comment_interactions_of self_id d /\ uci_liked iu.1 = true) ->
        (1 < r)%Q).
Proof.
  intros Hreach Hself.
  destruct (reachable_scores_ok d Hreach _ _ Hself) as (s & Hsc & Hs).
  unfold update_score. rewrite Hsc.
  destruct (score_post_interactions_sign s (post_interactions_of self_id d) (of_Z 1) Hs)
    as (r1 & -> & Hno1 & Hyes1).
  cbn [mbind result_bind].
  destruct (score_comment_interactions_sign s (comment_interactions_of self_id d) r1 Hs)
    as (r2 & -> & Hno2 & Hyes2).
  cbn [mbind result_bind]. eexists _, _. split; [reflexivity|].
  split.
  - intros Hp Hc. rewrite <- Forall_forall in Hp. rewrite <- Forall_forall in Hc.
    specialize (Hno1 Hp). specialize (Hno2 Hc).
    rewrite (py_max_Qmax r2). change (of_Z 1) with 1%Q in *. apply Q.max_r. lra.
  - intros Hp Hc Hex. rewrite <- Forall_forall in Hp. rewrite <- Forall_forall in Hc.
    destruct (Hyes1 Hp) as [Hle1 Hlt1]. destruct (Hyes2 Hc) as [Hle2 Hlt2].
    change (of_Z 1) with 1%Q in *.
    assert (1 < r2)%Q as Hr.
    { destruct Hex as [Hex|Hex]; apply Exists_exists in Hex;
        [specialize (Hlt1 Hex)|specialize (Hlt2 Hex)]; lra. }
    change 1%Q with (of_Z (F := Q) 1) at 2. rewrite py_max_above; [done|lra].
Qed.

Lemma score_follows_votes_witness :
  (exists r d',
     update_score 2 {| score := Some (5510 # 5500)%Q; post_count := 1 |}
       (db_liked (F := Q))
     = Ok (r, d') /\ (1 < r)%Q)
  /\ (exists r d',
        update_score 2 {| score := Some 1%Q; post_count := 1 |} (db_disliked (F := Q))
        = Ok (r, d') /\ (r == 1)%Q).
Proof.
  split.
  - destruct (score_follows_votes (db_liked (F := Q)) 2
                {| score := Some (5510 # 5500)%Q; post_count := 1 |}
                reachable_db_liked eq_refl)
      as (r & d' & Hu & _ & Hyes).
    exists r, d'. split; [exact Hu|]. apply Hyes.
    + intros iu Hin. vm_compute in Hin.
      apply list_elem_of_singleton in Hin. by subst iu.
    + intros iu Hin. vm_compute in Hin. by apply elem_of_nil in Hin.
    + left. eexists. split; [apply list_elem_of_here|reflexivity].
  - destruct (score_follows_votes (db_disliked (F := Q)) 2
                {| score := Some 1%Q; post_count := 1 |}
                reachable_db_disliked eq_refl)
      as (r & d' & Hu & Hno & _).
    exists r, d'. split; [exact Hu|]. apply Hno.
    + intros iu Hin. vm_compute in Hin.
      apply list_elem_of_singleton in Hin. by subst iu.
    + intros iu Hin. vm_compute in Hin. by apply elem_of_nil in Hin.
Defined.

(** ** Recomputing every score *)

Lemma update_scores_defined ids (d : db Q) :
  scores_ok d -> exists d', update_scores ids d = Ok d'.
Proof.
  revert d. induction ids as [|i ids IH]; intros d Hok; cbn [update_scores];
    [by eexists|].
  destruct (users d !! i) as [u|] eqn:Hu; [|by apply IH].
  destruct (Hok _ _ Hu) as (s & Hsc & Hs).
  destruct (update_score_defined d i u s Hsc Hs) as [r Hup]. rewrite Hup.
  apply IH. eapply scores_ok_insert; [exact Hok|reflexivity|].
  exists r. split; [done|]. by eapply update_score_floor.
Qed.

(** X13. [init_user_scores] on a reachable database never fails: it
    commits a database with the same posts, comments, interactions and
    factions and the same users, each with a score of at least 1 and its
    post_count unchanged. *)
Theorem init_user_scores_succeeds (d : db Q) :
  reachable d ->
  exists d',
    init_user_scores d = (Ok (), d')
    /\ posts d' = posts d /\ comments d' = comments d
    /\ post_interactions d' = post_interactions d
    /\ comment_interactions d' = comment_interactions d
    /\ post_factions d' = post_factions d
    /\ forall k,
         match users d !! k with
         | Some u => exists r, (1 <= r)%Q /\ users d' !! k = Some (set_score u (Some r))
         | None => users d' !! k = None
         end.
Proof.
  intros Hr. pose proof (reachable_scores_ok d Hr) as Hok.
  destruct (update_scores_defined (fst <$> map_to_list (users d)) d Hok) as [d' Hup].
  exists d'. unfold init_user_scores. rewrite Hup. split; [done|].
  pose proof (update_scores_ok _ _ _ Hup Hok) as Hok'.
  destruct (update_scores_tables _ _ _ Hup) as (? & ? & ? & ? & ? & _).
  split_and!; try done.
  intros k. pose proof (update_scores_rescored _ _ _ Hup k) as Hk.
  destruct (users d !! k) as [u|]; destruct (users d' !! k) as [u'|] eqn:Hu';
    inversion Hk as [? ? Hpc|]; subst; [|done].
  destruct (Hok' _ _ Hu') as (r & Hsc & Hle).
  exists r. split; [done|]. f_equal. destruct u'. unfold rescored in Hpc.
  simpl in *. subst. reflexivity.
Qed.

Lemma init_user_scores_succeeds_witness :
  exists d',
    init_user_scores (db_liked (F := Q)) = (Ok (), d')
    /\ posts d' = posts (db_liked (F := Q))
    /\ comments d' = comments (db_liked (F := Q))
    /\ post_interactions d' = post_interactions (db_liked (F := Q))
    /\ comment_interactions d' = comment_interactions (db_liked (F := Q))
    /\ post_factions d' = post_factions (db_liked (F := Q))
    /\ forall k,
         match users (db_liked (F := Q)) !! k with
         | Some u => exists r, (1 <= r)%Q /\ users d' !! k = Some (set_score u (Some r))
         | None => users d' !! k = None
         end.
Proof. apply init_user_scores_succeeds, reachable_db_liked. Defined.


(** X14. The count in a relative time is in range: at least one year, 1 to
    12 months, 1 to 30 days, 1 to 23 hours, 1 to 60 minutes. *)
Theorem format_time_ranges (now dt : Z) :
  match format_time now dt with
  | YearsAgo n => 1 <= n
  | MonthsAgo n => 1 <= n <= 12
  | DaysAgo n => 1 <= n <= 30
  | HoursAgo n => 1 <= n <= 23
  | MinutesAgo n => 1 <= n <= 60
  | JustNow => True
  end.
Proof.
  unfold format_time, datetime_sub. cbn [days seconds].
  generalize (now - dt). intros us.
  assert (0 <= (us mod 86400000000) / 1000000 < 86400) as Hsec.
  { pose proof (Z.mod_pos_bound us 86400000000 eq_refl).
    split; [apply Z.div_pos; lia|apply Z.div_lt_upper_bound; lia]. }
  revert Hsec. generalize ((us mod 86400000000) / 1000000). intros sec Hsec.
  generalize (us / 86400000000). intros d.
  repeat case_bool_decide; try done.
  - apply Z.div_le_lower_bound; lia.
  - split; [apply Z.div_le_lower_bound; lia|].
    apply Z.lt_succ_r. apply Z.div_lt_upper_bound; lia.
  - lia.
  - split; [apply Z.div_le_lower_bound; lia|].
    apply Z.lt_succ_r. apply Z.div_lt_upper_bound; lia.
  - split; [apply Z.div_le_lower_bound; lia|].
    apply Z.lt_succ_r. apply Z.div_lt_upper_bound; lia.
Qed.

(** X15. A timestamp in the future is shown by its time of day only: the
    days of the difference are negative, so the result is that of the
    difference reduced modulo one day; a timestamp up to one hour ahead reads
    as 23 hours ago. *)
Theorem format_time_future (now dt : Z) :
  now < dt ->
  format_time now dt = format_time ((now - dt) mod 86400000000) 0
  /\ (dt - now <= 3600000000 -> format_time now dt = HoursAgo 23).
Proof.
  intros Hlt. unfold format_time, datetime_sub. cbn [days seconds].
  rewrite Z.sub_0_r. replace (dt - now) with (- (now - dt)) by lia.
  assert (now - dt < 0) as Hus by lia. revert Hus.
  generalize (now - dt). intros us Hus.
  assert (us / 86400000000 < 0) as Hneg by (apply Z.div_lt_upper_bound; lia).
  rewrite Z.mod_mod by lia.
  rewrite (Z.div_small (us mod 86400000000) 86400000000)
    by (apply Z.mod_pos_bound; reflexivity).
  revert Hneg. generalize (us / 86400000000). intros d Hneg.
  rewrite !(bool_decide_eq_false_2 (d > _)) by lia.
  rewrite !(bool_decide_eq_false_2 (0 > _)) by lia.
  split; [done|]. intros Hnear.
  assert (us mod 86400000000 = us + 86400000000) as ->.
  { symmetry. apply (Z.mod_unique us 86400000000 (-1)); lia. }
  assert (82800 <= (us + 86400000000) / 1000000 < 86400) as Hsec.
  { split; [apply Z.div_le_lower_bound; lia|apply Z.div_lt_upper_bound; lia]. }
  revert Hsec. generalize ((us + 86400000000) / 1000000). intros sec Hsec.
  rewrite bool_decide_eq_true_2 by lia. f_equal.
  symmetry. apply (Z.div_unique sec 3600 23 (sec - 82800)); lia.
Qed.

Lemma format_time_future_witness :
  format_time 1000000000 1001000000 = format_time ((1000000000 - 1001000000) mod 86400000000) 0
  /\ (1001000000 - 1000000000 <= 3600000000 ->
      format_time 1000000000 1001000000 = HoursAgo 23).
Proof. apply format_time_future. reflexivity. Defined.

(** The two counts at the edge of a range. *)
Example format_time_edges :
  format_time (365 * 86400000000) 0 = MonthsAgo 12
  /\ format_time (366 * 86400000000) 0 = YearsAgo 1
  /\ format_time 3600000000 0 = MinutesAgo 60
  /\ format_time 60000000 0 = JustNow.
Proof. repeat split. Qed.

(** ** The likes page *)

Section LikesPage.
Context {F : Type} {PN : PyNum F}.

Lemma join_like_Some post_id (d : db F) i iu :
  join_like post_id d i = Some iu ->
  iu.1 = i /\ users d !! upi_user_id i = Some iu.2
  /\ upi_post_id i = post_id /\ upi_liked i = true.
Proof.
  unfold join_like. destruct (users d !! upi_user_id i) as [u|]; simpl; [|done].
  case_bool_decide; simpl; [|done]. destruct (upi_liked i); [|done].
  intros [= <-]. done.
Qed.

Lemma join_like_length post_id (d : db F) l :
  Forall (fun i => is_Some (users d !! upi_user_id i)) l ->
  Z.of_nat (length (omap (join_like post_id d) l)) = post_rows upi_liked post_id l.
Proof.
  unfold post_rows. induction 1 as [|i l [u Hu] _ IH]; [done|].
  cbn [omap list_omap count_if]. unfold join_like at 1. rewrite Hu. simpl.
  destruct (bool_decide (upi_post_id i = post_id) && upi_liked i); simpl length; lia.
Qed.

Lemma join_like_NoDup post_id (d : db F) l :
  NoDup (interaction_key <$> l) ->
  NoDup ((fun iu => upi_user_id iu.1) <$> omap (join_like post_id d) l).
Proof.
  induction l as [|i l IH]; [intros _; apply NoDup_nil_2|].
  rewrite fmap_cons. intros [Hi Hl]%NoDup_cons. specialize (IH Hl).
  cbn [omap list_omap]. destruct (join_like post_id d i) as [iu|] eqn:Hj; [|done].
  apply join_like_Some in Hj as (Hfst & _ & Hp & _).
  rewrite fmap_cons. apply NoDup_cons. split; [|done].
  intros ([i' u'] & Hu & Hin)%list_elem_of_fmap. apply Hi.
  apply list_elem_of_omap in Hin as (j & Hj & Hjoin).
  apply join_like_Some in Hjoin as (Hfst' & _ & Hp' & _). simpl in *.
  apply list_elem_of_fmap. exists j. split; [|done].
  unfold interaction_key. congruence.
Qed.
End LikesPage.

#[export] Instance newest_first_total {F : Type} : Total (newest_first (F := F)).
Proof. intros a b. unfold newest_first. lia. Qed.

(** X16. The author of a post in a reachable database sees on the likes
    page as many entries as the post's like_count says, newest first, one
    per voter; each is a row of this post that is liked and not disliked,
    with the voter's stored user. *)
Theorem post_likes_lists_like_count {F : Type} {PN : PyNum F} (d : db F)
    (post_id : Z) (p : PostModel) :
  reachable d ->
  posts d !! post_id = Some p ->
  exists likes,
    post_likes (Some (p_author_id p)) post_id d = Ok (LikesPage likes)
    /\ Z.of_nat (length likes) = p_like_count p
    /\ Sorted newest_first likes
    /\ NoDup ((fun iu => upi_user_id iu.1) <$> likes)
    /\ forall iu, iu ∈ likes ->
         iu.1 ∈ post_interactions d
         /\ upi_post_id iu.1 = post_id
         /\ upi_liked iu.1 = true /\ upi_disliked iu.1 = false
         /\ users d !! upi_user_id iu.1 = Some iu.2.
Proof.
  intros Hr Hp. unfold post_likes. rewrite Hp.
  rewrite bool_decide_eq_false_2 by (intros H; by apply H).
  eexists. split; [reflexivity|].
  pose proof (merge_sort_Permutation newest_first
                (omap (join_like post_id d) (post_interactions d))) as Hperm.
  destruct (reachable_counters_ok d Hr) as [Hc _].
  destruct (Hc _ _ Hp) as (Hlike & _).
  destruct (reachable_voters_stored d Hr) as [Hv _].
  destruct (reachable_interactions_unique d Hr) as [Hn _].
  destruct (reachable_exclusive d Hr) as [Hx _].
  split_and!.
  - rewrite Hperm, Hlike. by apply join_like_length.
  - apply Sorted_merge_sort, _.
  - rewrite Hperm. by apply join_like_NoDup.
  - intros iu Hin. rewrite Hperm in Hin.
    apply list_elem_of_omap in Hin as (i & Hi & Hj).
    apply join_like_Some in Hj as (<- & Hu & Hpid & Hl).
    rewrite Forall_forall in Hx. specialize (Hx _ Hi). rewrite Hl in Hx.
    split_and!; try done.
Qed.

Lemma post_likes_lists_like_count_witness :
  exists likes,
    post_likes (Some 2) 1 (db_liked (F := Q)) = Ok (LikesPage likes)
    /\ Z.of_nat (length likes) = 1
    /\ Sorted newest_first likes
    /\ NoDup ((fun iu => upi_user_id iu.1) <$> likes)
    /\ forall iu, iu ∈ likes ->
         iu.1 ∈ post_interactions (db_liked (F := Q))
         /\ upi_post_id iu.1 = 1
         /\ upi_liked iu.1 = true /\ upi_disliked iu.1 = false
         /\ users (db_liked (F := Q)) !! upi_user_id iu.1 = Some iu.2.
Proof.
  apply (post_likes_lists_like_count (db_liked (F := Q)) 1
           {| p_author_id := 2; p_view_count := 0; p_like_count := 1;
              p_dislike_count := 0; p_favorite_count := 0 |});
    [apply reachable_db_liked|reflexivity].
Defined.

(** A logged-in visitor who is not the author gets no page but the
    exception of the missing attribute; an anonymous one is turned away. *)
Example post_likes_other_visitors :
  post_likes (Some 1) 1 (db_liked (F := Q)) = Raise AttributeError
  /\ post_likes None 1 (db_liked (F := Q)) = Ok LikesDenied
  /\ post_likes (Some 2) 7 (db_liked (F := Q)) = Raise NotFound.
Proof. repeat split. Qed.

(** ** The two faction paths together *)

(** X17. The choice made through [choose_faction] is final on that path
    only: while the user holds a faction on the post a second choice is
    refused, but once the user has left through the join_faction action with
    the held faction, [choose_faction] accepts any of the two factions again
    and stores it. *)
Theorem choose_faction_after_leaving {F : Type} {PN : PyNum F} (d : db F)
    (actor now1 now2 post_id : Z) (p : PostModel) (held wanted : string) :
  reachable d ->
  posts d !! post_id = Some p ->
  faction_of d actor post_id = Some held ->
  wanted ∈ ["pro"; "anti"] ->
  choose_faction actor now2 post_id wanted d = (Ok (Redirect AlreadyChosen), d)
  /\ let d1 := (post_interaction actor (Some held) now1 post_id "join_faction" d).2 in
     let out := choose_faction actor now2 post_id wanted d1 in
     faction_of d1 actor post_id = None
     /\ out.1 = Ok (Redirect (Joined wanted))
     /\ faction_of out.2 actor post_id = Some wanted.
Proof.
  intros Hr Hp Hheld Hw.
  pose proof (reachable_factions_unique d Hr) as Hn.
  pose proof (reachable_factions_valid d Hr) as Hvalid.
  unfold faction_of in Hheld.
  destruct (find_post_faction actor post_id (post_factions d)) as [[k row]|] eqn:Hfind;
    [|discriminate].
  injection Hheld as Hrow. simpl in Hrow.
  pose proof (find_post_faction_key _ _ _ _ _ Hfind) as [Hk _].
  assert (held ∈ ["pro"; "anti"]) as Hh.
  { unfold factions_valid in Hvalid. rewrite Forall_forall in Hvalid.
    rewrite <- Hrow. apply Hvalid. by eapply list_elem_of_lookup_2. }
  split.
  { unfold choose_faction. by rewrite (bool_decide_eq_true_2 _ Hw), Hfind. }
  assert ("join_faction" ∉ ["like"; "dislike"]) as Hplain
    by (intros H; repeat (apply elem_of_cons in H as [H|H]; [discriminate|]);
        by apply elem_of_nil in H).
  erewrite post_interaction_plain; [|done|exact Hp|].
  2:{ unfold post_action. simpl. rewrite (bool_decide_eq_true_2 _ Hh), Hfind.
      by rewrite bool_decide_eq_true_2. }
  cbn [snd]. unfold faction_of, choose_faction. cbn [post_factions].
  rewrite (find_post_faction_deleted _ _ _ _ _ Hn Hfind).
  rewrite (bool_decide_eq_true_2 _ Hw). cbn [fst snd post_factions set_post_factions].
  split; [done|]. split; [done|].
  unfold find_post_faction.
  rewrite list_find_app_r
    by (apply (find_post_faction_deleted _ _ _ _ _ Hn Hfind)).
  simpl. by rewrite decide_True.
Qed.

Lemma choose_faction_after_leaving_witness :
  choose_faction 1 70 1 "anti" (db_pro (F := Q))
  = (Ok (Redirect AlreadyChosen), db_pro (F := Q))
  /\ let d1 := (post_interaction 1 (Some "pro") 60 1 "join_faction"
                    (db_pro (F := Q))).2 in
     let out := choose_faction 1 70 1 "anti" d1 in
     faction_of d1 1 1 = None
     /\ out.1 = Ok (Redirect (Joined "anti"))
     /\ faction_of out.2 1 1 = Some "anti".
Proof.
  apply (choose_faction_after_leaving (db_pro (F := Q)) 1 60 70 1
           {| p_author_id := 2; p_view_count := 0; p_like_count := 0;
              p_dislike_count := 0; p_favorite_count := 0 |} "pro" "anti");
    [apply reachable_db_pro|reflexivity|reflexivity|].
  apply elem_of_cons. right. apply elem_of_cons. by left.
Defined.

(** X18. [choose_faction] does not look the post up: for a post that is
    not stored it still creates the faction row, so that, unlike the
    interaction rows, a faction row of a reachable database need not refer
    to a stored post. *)
Theorem choose_faction_without_post {F : Type} {PN : PyNum F} (d : db F)
    (actor now post_id : Z) (faction : string) :
  reachable d ->
  is_Some (users d !! actor) ->
  posts d !! post_id = None ->
  faction ∈ ["pro"; "anti"] ->
  faction_of d actor post_id = None ->
  let out := choose_faction actor now post_id faction d in
  out.1 = Ok (Redirect (Joined faction))
  /\ reachable out.2
  /\ in_faction out.2 actor post_id faction
  /\ posts out.2 !! post_id = None.
Proof.
  intros Hr Hu Hp Hf Hnone out.
  assert (reachable out.2) as Hr'
    by (eapply reachable_step; [exact Hr|by apply step_choose_faction]).
  split_and!; [| exact Hr'| |]; subst out; unfold choose_faction in *.
  all: rewrite (bool_decide_eq_true_2 _ Hf) in *.
  all: unfold faction_of in Hnone.
  all: destruct (find_post_faction actor post_id (post_factions d)); [discriminate|].
  - done.
  - eexists. split; [apply elem_of_app; right; apply list_elem_of_here|done].
  - done.
Qed.

Lemma choose_faction_without_post_witness :
  let out := choose_faction 1 80 9 "pro" (db_posted (F := Q)) in
  out.1 = Ok (Redirect (Joined "pro"))
  /\ reachable out.2
  /\ in_faction out.2 1 9 "pro"
  /\ posts out.2 !! 9 = None.
Proof.
  apply (choose_faction_without_post (db_posted (F := Q)) 1 80 9 "pro");
    [apply reachable_db_posted|by eexists|reflexivity| |reflexivity].
  apply elem_of_cons. by left.
Defined.


Lemma find_category_favorite_Some user_id category_id l k f :
  find_category_favorite user_id category_id l = Some (k, f) ->
  l !! k = Some f /\ category_favorite_key f = (user_id, category_id).
Proof.
  intros (Hk & [Hu Hc] & _)%list_find_Some. split; [done|].
  unfold category_favorite_key. by rewrite Hu, Hc.
Qed.

Lemma find_category_favorite_None user_id category_id l :
  find_category_favorite user_id category_id l = None <->
  (user_id, category_id) ∉ category_favorite_key <$> l.
Proof.
  unfold find_category_favorite. rewrite list_find_None, Forall_forall. split.
  - intros H (f & Hkey & Hin)%list_elem_of_fmap. apply (H _ Hin).
    unfold category_favorite_key in Hkey. by simplify_eq.
  - intros H f Hin [Hu Hc]. apply H, list_elem_of_fmap. exists f. split; [|done].
    unfold category_favorite_key. by rewrite Hu, Hc.
Qed.

Lemma elem_of_delete_other {A : Type} (l : list A) k x y :
  l !! k = Some y -> x <> y -> x ∈ delete k l <-> x ∈ l.
Proof.
  intros Hk Hne. split.
  - intros Hx. eapply elem_of_sublist; [exact Hx|apply sublist_delete].
  - intros [j Hj]%list_elem_of_lookup_1.
    assert (j <> k) by (intros ->; congruence).
    destruct (decide (j < k)%nat).
    + apply (list_elem_of_lookup_2 _ j). by rewrite list_lookup_delete_lt.
    + apply (list_elem_of_lookup_2 _ (pred j)).
      rewrite list_lookup_delete_ge by lia. by replace (S (pred j)) with j by lia.
Qed.

Lemma key_not_in_delete {A K : Type} (key : A -> K) (l : list A) k y :
  NoDup (key <$> l) -> l !! k = Some y -> key y ∉ key <$> delete k l.
Proof.
  intros Hn Hk (x & Hkey & Hin)%list_elem_of_fmap.
  apply list_elem_of_lookup_1 in Hin as [j Hj].
  assert (forall j', l !! j' = Some x -> j' = k) as Honly.
  { intros j' Hj'. eapply (NoDup_lookup _ j' k (key y) Hn).
    - by rewrite list_lookup_fmap, Hj', Hkey.
    - by rewrite list_lookup_fmap, Hk. }
  destruct (decide (j < k)%nat).
  - rewrite list_lookup_delete_lt in Hj by done. apply Honly in Hj. lia.
  - rewrite list_lookup_delete_ge in Hj by lia. apply Honly in Hj. lia.
Qed.

(** X19. Favoriting a stored category toggles: the answer is removed when
    the user has a row for the category and added otherwise, the user has
    a row afterwards exactly when there was none before, nobody else's rows
    and none of the user's other categories change, and the table keeps at
    most one row per (user, category).  Adding and then removing restores
    the table. *)
Theorem category_favorite_toggles (categories : gset Z)
    (favorites : list UserCategoryFavorite) (user now1 now2 category_id : Z) :
  category_id ∈ categories ->
  NoDup (category_favorite_key <$> favorites) ->
  let out1 := toggle_category_favorite user now1 category_id categories favorites in
  let out2 := toggle_category_favorite user now2 category_id categories out1.2 in
  let before := (user, category_id) ∈ category_favorite_key <$> favorites in
  out1.1 = Ok (if decide before then "removed" else "added")
  /\ ((user, category_id) ∈ category_favorite_key <$> out1.2 <-> ~ before)
  /\ NoDup (category_favorite_key <$> out1.2)
  /\ (forall f, category_favorite_key f <> (user, category_id) ->
        f ∈ out1.2 <-> f ∈ favorites)
  /\ (~ before -> out2 = (Ok "removed", favorites)).
Proof.
  intros Hc Hn out1 out2 before. subst out2 out1 before.
  unfold toggle_category_favorite. rewrite (bool_decide_eq_true_2 _ Hc).
  destruct (find_category_favorite user category_id favorites) as [[k f]|] eqn:Hfind.
  - destruct (find_category_favorite_Some _ _ _ _ _ Hfind) as [Hk Hkey].
    assert ((user, category_id) ∈ category_favorite_key <$> favorites) as Hin.
    { rewrite <- Hkey. apply list_elem_of_fmap. exists f. split; [done|].
      by eapply list_elem_of_lookup_2. }
    cbn [fst snd]. rewrite decide_True by done.
    pose proof (key_not_in_delete category_favorite_key favorites k f Hn Hk) as Hgone.
    rewrite Hkey in Hgone.
    split_and!; [done|tauto| | |tauto].
    + rewrite list_fmap_delete. eapply sublist_NoDup; [exact Hn|apply sublist_delete].
    + intros x Hx. apply elem_of_delete_other with f; [done|]. intros ->. by apply Hx.
  - pose proof Hfind as Hnot%find_category_favorite_None.
    cbn [fst snd]. rewrite decide_False by done.
    set (new := {| ucf_user_id := user; ucf_category_id := category_id;
                   ucf_created_at := now1 |}).
    split_and!; [done| | | |].
    + split; [done|]. intros _. rewrite fmap_app. apply elem_of_app. right.
      apply list_elem_of_here.
    + rewrite fmap_app. apply NoDup_app. split; [done|]. split; [|apply NoDup_singleton].
      intros x Hx Hin. apply list_elem_of_singleton in Hin. by subst x.
    + intros x Hx. rewrite elem_of_app, list_elem_of_singleton. split; [|tauto].
      intros [?|Heq]; [done|]. subst x. by destruct Hx.
    + intros _. unfold find_category_favorite in *.
      rewrite list_find_app_r by done. simpl. rewrite decide_True by done.
      simpl. f_equal.
      by rewrite delete_middle, app_nil_r.
Qed.

Lemma category_favorite_toggles_witness :
  let favorites := [{| ucf_user_id := 1; ucf_category_id := 3; ucf_created_at := 5 |}] in
  let out1 := toggle_category_favorite 1 10 4 {[3; 4]} favorites in
  let out2 := toggle_category_favorite 1 20 4 {[3; 4]} out1.2 in
  let before := (1, 4) ∈ category_favorite_key <$> favorites in
  out1.1 = Ok (if decide before then "removed" else "added")
  /\ ((1, 4) ∈ category_favorite_key <$> out1.2 <-> ~ before)
  /\ NoDup (category_favorite_key <$> out1.2)
  /\ (forall f, category_favorite_key f <> (1, 4) -> f ∈ out1.2 <-> f ∈ favorites)
  /\ (~ before -> out2 = (Ok "removed", favorites)).
Proof.
  apply (category_favorite_toggles {[3; 4]}
           [{| ucf_user_id := 1; ucf_category_id := 3; ucf_created_at := 5 |}]
           1 10 20 4).
  - apply elem_of_union. right. by apply elem_of_singleton.
  - apply NoDup_singleton.
Defined.
